(** * f1-race-predictor: data acquisition and caching

    A shallow embedding of [f1_predictor/cache.py] (class [DataCache]) and
    [f1_predictor/data_fetcher.py] (class [F1DataFetcher]).

    - JSON documents are the values [json.load] produces, and the dynamic
      operations the source applies to them ([in], subscripting, [dict.get],
      [int], [float], truthiness, iteration) are written out with the
      exception each raises on every kind of value.
    - Python exceptions are an inductive type; a computation that can raise
      returns [res A]; [try]/[except] is a match on the raised exception's class.
    - The cache directory is a finite map from file paths to file contents.
    - The wall clock and the network are oracles: the n-th clock reading and
      the reply to the n-th HTTP request.  The mutable parts (files, readings
      taken, requests sent, [_last_request_time], and the trace of sleeps and
      requests) are threaded through a [world] record.
    - Logging ([logger.*], [print]) has no effect on results and is left out. *)

From Stdlib Require Import ZArith Lia Bool Ascii.
From Stdlib Require Import DecimalString DecimalZ DecimalPos.
From stdpp Require Import base option list gmap strings.

Local Open Scope Z_scope.

(** ** Exceptions and results *)

(** The exception classes the two modules raise or catch.  [ReqTimeout],
    [HTTPError], [ConnectionError] and [RequestException] are the classes of
    the [requests] package (the first three are subclasses of the last). *)
Inductive exn : Type :=
| ReqTimeout
| HTTPError (status_code : Z)
| ConnectionError
| RequestException
| ValueError
| KeyError
| TypeError
| IndexError
| AttributeError
| OverflowError
| OSError
| JSONDecodeError.

Global Instance exn_eq_dec : EqDecision exn.
Proof. solve_decision. Defined.

(** [isinstance(e, requests.RequestException)] *)
Definition is_request_exception (e : exn) : bool :=
  match e with
  | ReqTimeout | HTTPError _ | ConnectionError | RequestException => true
  | _ => false
  end.

(** membership of [e]'s class in an [except (...)] tuple of builtin classes *)
(** [json.JSONDecodeError] is a subclass of [ValueError]. *)
Definition is_value_error (e : exn) : bool :=
  match e with ValueError | JSONDecodeError => true | _ => false end.
Definition is_type_error (e : exn) : bool :=
  match e with TypeError => true | _ => false end.
Definition is_key_error (e : exn) : bool :=
  match e with KeyError => true | _ => false end.
Definition is_index_error (e : exn) : bool :=
  match e with IndexError => true | _ => false end.
Definition is_os_error (e : exn) : bool :=
  match e with OSError => true | _ => false end.

Inductive res (A : Type) : Type :=
| Ok (a : A)
| Raise (e : exn).
Arguments Ok {A} a.
Arguments Raise {A} e.

Definition bind {A B : Type} (m : res A) (k : A → res B) : res B :=
  match m with
  | Ok a => k a
  | Raise e => Raise e
  end.

(** [try: m / except <classes> as e: handler e] *)
Definition try_except {A : Type} (m : res A) (catches : exn → bool)
    (handler : exn → res A) : res A :=
  match m with
  | Ok a => Ok a
  | Raise e => if catches e then handler e else Raise e
  end.

(** stdpp's monad notations: [x ← m; k] is [bind m (λ x, k)]. *)
Global Instance res_bind : MBind res := λ A B k m, bind m k.
Global Instance res_ret : MRet res := λ A a, Ok a.

(** ** JSON values and the dynamic operations of Python on them *)

#[local] Set Warnings "-register-all".

(** The values [json.load] and [response.json()] return; [F] is the type of
    Python's floats. *)
Inductive json (F : Type) : Type :=
| JNull
| JBool (b : bool)
| JInt (n : Z)
| JFloat (x : F)
| JStr (s : string)
| JArr (items : list (json F))
| JObj (fields : list (string * json F)).
Arguments JNull {F}.
Arguments JBool {F} b.
Arguments JInt {F} n.
Arguments JFloat {F} x.
Arguments JStr {F} s.
Arguments JArr {F} items.
Arguments JObj {F} fields.

(** A [datetime]: naive (no time zone, as [datetime.now()] returns) or aware;
    [t] counts microseconds. *)
Inductive datetime : Type :=
| Naive (t : Z)
| Aware (t : Z).

(** The library functions the two modules call on numbers, strings and
    dates; they are not part of the repository. *)
Class PyLib : Type := {
  pyfloat : Type;
  (** [float(s)] for a [str]; [None] is [ValueError] *)
  float_of_str : string → option pyfloat;
  (** [float(n)] for an [int]; [None] is [OverflowError] *)
  float_of_int : Z → option pyfloat;
  (** [int(x)] for a [float]: truncation, [OverflowError] on an infinity,
      [ValueError] on a NaN *)
  int_of_float : pyfloat → res Z;
  (** [bool(x)] for a [float] *)
  float_truth : pyfloat → bool;
  (** [int(s)] for a [str]; [None] is [ValueError] *)
  int_of_str : string → option Z;
  (** [str(v)] for a value that is not a [str] *)
  py_repr : json pyfloat → string;
  (** [d.isoformat()] for a naive [datetime] *)
  isoformat : Z → string;
  (** [datetime.fromisoformat(s)]; [None] is [ValueError] *)
  fromisoformat : string → option datetime;
  (** the year of the proleptic Gregorian calendar that the microsecond count
      falls in: [d.year] for a naive [datetime] *)
  year_of : Z → Z;
}.

Abbreviation value := (json pyfloat).

Section Python.
Context {L : PyLib}.

(** Python's [None] is JSON's [null]. *)
Definition PyNone : value := JNull.

Definition is_none (v : value) : bool :=
  match v with JNull => true | _ => false end.

(** Lookup in a dict; the first binding of a key is the dict's binding. *)
Fixpoint assoc (k : string) (fields : list (string * value)) : option value :=
  match fields with
  | [] => None
  | (k', v) :: rest => if String.eqb k k' then Some v else assoc k rest
  end.

(** [sub in s] for two strings *)
Fixpoint is_substring (sub s : string) : bool :=
  String.prefix sub s ||
  match s with
  | EmptyString => false
  | String _ rest => is_substring sub rest
  end.

Definition is_str (k : string) (v : value) : bool :=
  match v with JStr s => String.eqb k s | _ => false end.

(** [k in v] *)
Definition py_in (k : string) (v : value) : res bool :=
  match v with
  | JObj fields => Ok (bool_decide (is_Some (assoc k fields)))
  | JArr items => Ok (existsb (is_str k) items)
  | JStr s => Ok (is_substring k s)
  | _ => Raise TypeError
  end.

(** [v[k]] for a string key *)
Definition py_getitem (v : value) (k : string) : res value :=
  match v with
  | JObj fields => match assoc k fields with Some x => Ok x | None => Raise KeyError end
  | _ => Raise TypeError
  end.

(** [v.get(k, default)]: only dicts have the method. *)
Definition py_get (v : value) (k : string) (dflt : value) : res value :=
  match v with
  | JObj fields => Ok (default dflt (assoc k fields))
  | _ => Raise AttributeError
  end.

(** [v[0]] *)
Definition py_first (v : value) : res value :=
  match v with
  | JArr [] => Raise IndexError
  | JArr (x :: _) => Ok x
  | JStr EmptyString => Raise IndexError
  | JStr (String c _) => Ok (JStr (String c EmptyString))
  | JObj _ => Raise KeyError
  | _ => Raise TypeError
  end.

(** [bool(v)], the test of [if v] and [not v] *)
Definition py_truth (v : value) : bool :=
  match v with
  | JNull => false
  | JBool b => b
  | JInt n => negb (n =? 0)
  | JFloat x => float_truth x
  | JStr s => negb (String.eqb s EmptyString)
  | JArr items => match items with [] => false | _ => true end
  | JObj fields => match fields with [] => false | _ => true end
  end.

Fixpoint chars (s : string) : list value :=
  match s with
  | EmptyString => []
  | String c rest => JStr (String c EmptyString) :: chars rest
  end.

(** the elements [for x in v] visits *)
Definition py_iter (v : value) : res (list value) :=
  match v with
  | JArr items => Ok items
  | JObj fields => Ok (map (λ kv, JStr (fst kv)) fields)
  | JStr s => Ok (chars s)
  | _ => Raise TypeError
  end.

(** [int(v)] *)
Definition py_int (v : value) : res Z :=
  match v with
  | JInt n => Ok n
  | JBool b => Ok (if b then 1 else 0)
  | JFloat x => int_of_float x
  | JStr s => match int_of_str s with Some n => Ok n | None => Raise ValueError end
  | _ => Raise TypeError
  end.

Definition float_of_int_res (n : Z) : res pyfloat :=
  match float_of_int n with Some x => Ok x | None => Raise OverflowError end.

(** [float(v)] *)
Definition py_float (v : value) : res pyfloat :=
  match v with
  | JInt n => float_of_int_res n
  | JBool b => float_of_int_res (if b then 1 else 0)
  | JFloat x => Ok x
  | JStr s => match float_of_str s with Some x => Ok x | None => Raise ValueError end
  | _ => Raise TypeError
  end.

(** [str(v)], as an f-string formats [v] *)
Definition py_str (v : value) : string :=
  match v with JStr s => s | _ => py_repr v end.

(** [s.rstrip(c)] for a one-character [c] *)
Fixpoint rstrip (c : ascii) (s : string) : string :=
  match s with
  | EmptyString => EmptyString
  | String a rest =>
      match rstrip c rest with
      | EmptyString => if Ascii.eqb a c then EmptyString else String a EmptyString
      | r => String a r
      end
  end.

(** [v.rstrip('Z')]: only [str] has the method. *)
Definition py_rstrip_Z (v : value) : res string :=
  match v with
  | JStr s => Ok (rstrip "Z"%char s)
  | _ => Raise AttributeError
  end.

(** [str(n)] for an [int] *)
Definition str_of_int (n : Z) : string := NilZero.string_of_int (Z.to_int n).

End Python.

(** ** Domain records ([models.py])

    A dataclass does not check its fields: a field the parser does not
    coerce holds whatever JSON value the response had. *)

Section Models.
Context {L : PyLib}.

Record Circuit : Type := {
  circuit_id : value;
  circuit_name : value;
  location : value;
  country : value;
}.

Record Driver : Type := {
  driver_id : value;
  code : value;
  forename : value;
  surname : value;
  driver_nationality : value;
}.

Record Constructor : Type := {
  constructor_id : value;
  constructor_name : value;
  constructor_nationality : value;
}.

Record Race : Type := {
  season : Z;
  round : Z;
  race_name : value;
  circuit : Circuit;
  date : datetime;
}.

Record RaceResult : Type := {
  rr_race : Race;
  rr_driver : Driver;
  rr_constructor : Constructor;
  rr_position : Z;
  rr_points : pyfloat;
  rr_grid : Z;
  rr_laps : Z;
  rr_status : value;
}.

Record QualifyingResult : Type := {
  qr_race : Race;
  qr_driver : Driver;
  qr_constructor : Constructor;
  qr_position : Z;
  q1_time : value;
  q2_time : value;
  q3_time : value;
}.

Record DriverStanding : Type := {
  ds_driver : Driver;
  ds_constructor : Constructor;
  ds_position : Z;
  ds_points : pyfloat;
  ds_wins : Z;
}.

Record ConstructorStanding : Type := {
  cs_constructor : Constructor;
  cs_position : Z;
  cs_points : pyfloat;
  cs_wins : Z;
}.

End Models.

(** ** Response parsers ([F1DataFetcher._parse_*]) *)

Section Parsers.
Context {L : PyLib}.

(** [for field in required_fields: if field not in d: raise ValueError(...)] *)
Fixpoint check_required (required_fields : list string) (d : value) : res unit :=
  match required_fields with
  | [] => Ok tt
  | field :: rest =>
      present ← py_in field d;
      if present : bool then check_required rest d else Raise ValueError
  end.

(** [except (ValueError, TypeError) as e: raise ValueError(...)] *)
Definition value_or_type_error (e : exn) : bool :=
  is_value_error e || is_type_error e.

Definition _parse_circuit (circuit_data : value) : res Circuit :=
  _ ← check_required ["circuitId"; "circuitName"; "Location"] circuit_data;
  location ← py_getitem circuit_data "Location";
  has_locality ← py_in "locality" location;
  has_country ← (if has_locality : bool then py_in "country" location else Ok false);
  if negb has_locality || negb has_country then Raise ValueError
  else
    circuit_id ← py_getitem circuit_data "circuitId";
    circuit_name ← py_getitem circuit_data "circuitName";
    locality ← py_getitem location "locality";
    country ← py_getitem location "country";
    Ok {| circuit_id := circuit_id; circuit_name := circuit_name;
          location := locality; country := country |}.

Definition _parse_driver (driver_data : value) : res Driver :=
  _ ← check_required ["driverId"; "givenName"; "familyName"; "nationality"] driver_data;
  driver_id ← py_getitem driver_data "driverId";
  code ← py_get driver_data "code" (JStr "???");
  forename ← py_getitem driver_data "givenName";
  surname ← py_getitem driver_data "familyName";
  nationality ← py_getitem driver_data "nationality";
  Ok {| driver_id := driver_id; code := code; forename := forename;
        surname := surname; driver_nationality := nationality |}.

Definition _parse_constructor (constructor_data : value) : res Constructor :=
  _ ← check_required ["constructorId"; "name"; "nationality"] constructor_data;
  constructor_id ← py_getitem constructor_data "constructorId";
  name ← py_getitem constructor_data "name";
  nationality ← py_getitem constructor_data "nationality";
  Ok {| constructor_id := constructor_id; constructor_name := name;
        constructor_nationality := nationality |}.

Definition _parse_race (race_data : value) : res Race :=
  _ ← check_required ["season"; "round"; "raceName"; "Circuit"; "date"] race_data;
  race_date ←
    try_except
      (date_str ← py_getitem race_data "date";
       time_str ← py_get race_data "time" (JStr "00:00:00Z");
       stripped ← py_rstrip_Z time_str;
       match fromisoformat (py_str date_str +:+ "T" +:+ stripped) with
       | Some d => Ok d
       | None => Raise ValueError
       end)
      value_or_type_error (λ _, Raise ValueError);
  season ← py_getitem race_data "season" ≫= py_int;
  round ← py_getitem race_data "round" ≫= py_int;
  race_name ← py_getitem race_data "raceName";
  circuit ← py_getitem race_data "Circuit" ≫= _parse_circuit;
  Ok {| season := season; round := round; race_name := race_name;
        circuit := circuit; date := race_date |}.

Definition _parse_race_result (race : Race) (result_data : value) : res RaceResult :=
  _ ← check_required
        ["Driver"; "Constructor"; "position"; "points"; "grid"; "laps"; "status"]
        result_data;
  try_except
    (driver ← py_getitem result_data "Driver" ≫= _parse_driver;
     constructor ← py_getitem result_data "Constructor" ≫= _parse_constructor;
     position ← py_getitem result_data "position" ≫= py_int;
     points ← py_getitem result_data "points" ≫= py_float;
     grid ← py_getitem result_data "grid" ≫= py_int;
     laps ← py_getitem result_data "laps" ≫= py_int;
     status ← py_getitem result_data "status";
     Ok {| rr_race := race; rr_driver := driver; rr_constructor := constructor;
           rr_position := position; rr_points := points; rr_grid := grid;
           rr_laps := laps; rr_status := status |})
    value_or_type_error (λ _, Raise ValueError).

Definition _parse_qualifying_result (race : Race) (qual_data : value)
    : res QualifyingResult :=
  _ ← check_required ["Driver"; "Constructor"; "position"] qual_data;
  try_except
    (driver ← py_getitem qual_data "Driver" ≫= _parse_driver;
     constructor ← py_getitem qual_data "Constructor" ≫= _parse_constructor;
     position ← py_getitem qual_data "position" ≫= py_int;
     q1 ← py_get qual_data "Q1" PyNone;
     q2 ← py_get qual_data "Q2" PyNone;
     q3 ← py_get qual_data "Q3" PyNone;
     Ok {| qr_race := race; qr_driver := driver; qr_constructor := constructor;
           qr_position := position; q1_time := q1; q2_time := q2; q3_time := q3 |})
    value_or_type_error (λ _, Raise ValueError).

Definition _parse_driver_standing (standing_data : value) : res DriverStanding :=
  _ ← check_required ["Driver"; "Constructors"; "position"; "points"; "wins"]
        standing_data;
  constructors ← py_getitem standing_data "Constructors";
  if negb (py_truth constructors) then Raise ValueError
  else
    try_except
      (driver ← py_getitem standing_data "Driver" ≫= _parse_driver;
       constructor ←
         (py_getitem standing_data "Constructors" ≫= py_first) ≫= _parse_constructor;
       position ← py_getitem standing_data "position" ≫= py_int;
       points ← py_getitem standing_data "points" ≫= py_float;
       wins ← py_getitem standing_data "wins" ≫= py_int;
       Ok {| ds_driver := driver; ds_constructor := constructor;
             ds_position := position; ds_points := points; ds_wins := wins |})
      value_or_type_error (λ _, Raise ValueError).

Definition _parse_constructor_standing (standing_data : value)
    : res ConstructorStanding :=
  _ ← check_required ["Constructor"; "position"; "points"; "wins"] standing_data;
  try_except
    (constructor ← py_getitem standing_data "Constructor" ≫= _parse_constructor;
     position ← py_getitem standing_data "position" ≫= py_int;
     points ← py_getitem standing_data "points" ≫= py_float;
     wins ← py_getitem standing_data "wins" ≫= py_int;
     Ok {| cs_constructor := constructor; cs_position := position;
           cs_points := points; cs_wins := wins |})
    value_or_type_error (λ _, Raise ValueError).

End Parsers.

(** ** The world: cache files, clock, network *)

(** What reading a cache file gives: [open]/[read] raises [OSError],
    [json.load] raises [JSONDecodeError] (or [UnicodeDecodeError], also a
    [ValueError]), or [json.load] returns a value. *)
Inductive file_content {L : PyLib} : Type :=
| Unreadable
| Undecodable
| Decoded (v : value).

(** The outcome of [requests.get]: it raises [requests.Timeout], raises
    another [RequestException] (a connection failure), or returns a response
    with a status code and a body that [response.json()] decodes ([Some]) or
    rejects ([None]). *)
Inductive reply {L : PyLib} : Type :=
| ReplyTimeout
| ReplyConnectionError
| ReplyResponse (status_code : Z) (body : option value).

(** Query parameters: [None], or a dict of integers. *)
Definition params : Type := option (list (string * Z)).

(** What the process does that the outside can observe. *)
Inductive event : Type :=
| EvRateLimitSleep (microseconds : Z)
| EvBackoffSleep (seconds : Z)
| EvRequest (url : string) (query : params).

(** The oracles: [clock n] is the n-th reading of the wall clock
    ([time.time()] and [datetime.now()]), in microseconds; [net n url query]
    is the outcome of the n-th [requests.get]. *)
Record env {L : PyLib} : Type := {
  clock : nat → Z;
  net : nat → string → params → reply;
}.

(** The mutable state.  The cache directory exists and is writable:
    opening a file for writing and unlinking a file succeed. *)
Record world {L : PyLib} : Type := World {
  files : gmap string file_content;
  readings : nat;
  sent : nat;
  last_request_time : Z;
  trace : list event;
}.

Arguments World {L} files readings sent last_request_time trace.

Section World.
Context {L : PyLib} (E : env).

Definition read_clock (w : world) : Z * world :=
  (clock E (readings w),
   World (files w) (S (readings w)) (sent w) (last_request_time w) (trace w)).

Definition emit (ev : event) (w : world) : world :=
  World (files w) (readings w) (sent w) (last_request_time w) (trace w ++ [ev]).

Definition set_files (fs : gmap string file_content) (w : world) : world :=
  World fs (readings w) (sent w) (last_request_time w) (trace w).

Definition set_last_request_time (t : Z) (w : world) : world :=
  World (files w) (readings w) (sent w) t (trace w).

(** [requests.get(url, params=query, timeout=...)] *)
Definition requests_get (url : string) (query : params) (w : world) : reply * world :=
  (net E (sent w) url query,
   World (files w) (readings w) (S (sent w)) (last_request_time w)
         (trace w ++ [EvRequest url query])).

(** [cache_path.unlink()] *)
Definition unlink (path : string) (w : world) : world :=
  set_files (delete path (files w)) w.

(** [open(path, 'w')] followed by [json.dump] *)
Definition write_json (path : string) (v : value) (w : world) : world :=
  set_files (<[path := Decoded v]> (files w)) w.

(** [open(path, 'r')] followed by [json.load] *)
Definition load_json (content : file_content) : res value :=
  match content with
  | Unreadable => Raise OSError
  | Undecodable => Raise JSONDecodeError
  | Decoded v => Ok v
  end.

(** The events of [w'] that [w] did not have yet. *)
Definition events_since (w w' : world) : list event :=
  drop (length (trace w)) (trace w').

Definition is_request (ev : event) : bool :=
  match ev with EvRequest _ _ => true | _ => false end.

Definition is_backoff (ev : event) : bool :=
  match ev with EvBackoffSleep _ => true | _ => false end.

(** How many HTTP requests, and which backoff sleeps, a list of events has. *)
Definition attempts (evs : list event) : nat := length (filter is_request evs).

Definition backoffs (evs : list event) : list Z :=
  omap (λ ev, match ev with EvBackoffSleep s => Some s | _ => None end) evs.

End World.

(** ** The cache store ([DataCache]) *)

Section DataCache.
Context {L : PyLib} (E : env).

(** [key.replace(old, new)] for one-character [old] and [new] *)
Fixpoint replace (old new : ascii) (s : string) : string :=
  match s with
  | EmptyString => EmptyString
  | String c rest => String (if Ascii.eqb c old then new else c) (replace old new rest)
  end.

Definition _get_cache_path (cache_dir key : string) : string :=
  let safe_key := replace ":" "_" (replace "/" "_" key) in
  cache_dir +:+ "/" +:+ safe_key +:+ ".json".

(** [datetime.fromisoformat(v)]: [TypeError] unless [v] is a [str]. *)
Definition py_fromisoformat (v : value) : res datetime :=
  match v with
  | JStr s => match fromisoformat s with Some d => Ok d | None => Raise ValueError end
  | _ => Raise TypeError
  end.

(** [now > d] for the naive [now]: comparing it with an aware [datetime]
    raises [TypeError]. *)
Definition now_after (now : Z) (d : datetime) : res bool :=
  match d with
  | Naive t => Ok (t <? now)
  | Aware _ => Raise TypeError
  end.

(** [now <= d] *)
Definition now_not_after (now : Z) (d : datetime) : res bool :=
  match d with
  | Naive t => Ok (now <=? t)
  | Aware _ => Raise TypeError
  end.

(** The [except (json.JSONDecodeError, ValueError, OSError)] clause of
    [get] and [is_valid]. *)
Definition corrupted (e : exn) : bool := is_value_error e || is_os_error e.

(** The structure check of [get]:
    ['data' not in cache_entry or 'expires_at' not in cache_entry] *)
Definition lacks_fields (cache_entry : value) : res bool :=
  has_data ← py_in "data" cache_entry;
  if has_data : bool then
    has_expiry ← py_in "expires_at" cache_entry; Ok (negb has_expiry)
  else Ok true.

(** The body of [get]'s [try] block once the file exists. *)
Definition get_try (content : file_content) (ignore_ttl : bool) (w : world)
    : res value * world :=
  match load_json content with
  | Raise e => (Raise e, w)
  | Ok cache_entry =>
    match lacks_fields cache_entry with
    | Raise e => (Raise e, w)
    | Ok true => (Ok PyNone, w)
    | Ok false =>
      if ignore_ttl then (py_getitem cache_entry "data", w)
      else
        match py_getitem cache_entry "expires_at" ≫= py_fromisoformat with
        | Raise e => (Raise e, w)
        | Ok expires_at =>
          let '(now, w1) := read_clock E w in
          match now_after now expires_at with
          | Raise e => (Raise e, w1)
          | Ok true => (Ok PyNone, w1)
          | Ok false => (py_getitem cache_entry "data", w1)
          end
        end
    end
  end.

Definition get (cache_dir key : string) (ignore_ttl : bool) (w : world)
    : res value * world :=
  let cache_path := _get_cache_path cache_dir key in
  match files w !! cache_path with
  | None => (Ok PyNone, w)
  | Some content =>
    match get_try content ignore_ttl w with
    | (Raise e, w1) =>
        if corrupted e then (Ok PyNone, unlink cache_path w1) else (Raise e, w1)
    | (Ok v, w1) => (Ok v, w1)
    end
  end.

(** [timedelta(seconds=ttl)] in microseconds *)
Definition timedelta_seconds (ttl : Z) : Z := ttl * 1000000.

(** A [timedelta] holds at most 999999999 days in magnitude, and a
    [datetime] exists for the years [MINYEAR] to [MAXYEAR] only. *)
Definition MAX_DELTA_DAYS : Z := 999999999.
Definition MINYEAR : Z := 1.
Definition MAXYEAR : Z := 9999.

(** [timedelta(seconds=ttl)]: [OverflowError] when the days, [ttl // 86400],
    are out of range. *)
Definition timedelta (ttl : Z) : res Z :=
  if (- MAX_DELTA_DAYS <=? ttl / 86400) && (ttl / 86400 <=? MAX_DELTA_DAYS)
  then Ok (timedelta_seconds ttl)
  else Raise OverflowError.

(** [d + delta]: [OverflowError] when the sum is no [datetime]. *)
Definition datetime_add (d delta : Z) : res Z :=
  if (MINYEAR <=? year_of (d + delta)) && (year_of (d + delta) <=? MAXYEAR)
  then Ok (d + delta)
  else Raise OverflowError.

(** [expires_at] is computed before the [try]: an [OverflowError] of
    [datetime.now() + timedelta(seconds=ttl)] leaves [set] after the first
    reading of the clock, with nothing written. *)
Definition set (cache_dir key : string) (data : value) (ttl : Z) (w : world)
    : res unit * world :=
  let cache_path := _get_cache_path cache_dir key in
  let '(now, w1) := read_clock E w in
  match timedelta ttl ≫= datetime_add now with
  | Raise e => (Raise e, w1)
  | Ok expires_at =>
    let '(cached_at, w2) := read_clock E w1 in
    let cache_entry :=
      JObj [("data", data); ("cached_at", JStr (isoformat cached_at));
            ("expires_at", JStr (isoformat expires_at)); ("ttl", JInt ttl)] in
    (Ok tt, write_json cache_path cache_entry w2)
  end.

Definition is_valid (cache_dir key : string) (w : world) : res bool * world :=
  let cache_path := _get_cache_path cache_dir key in
  match files w !! cache_path with
  | None => (Ok false, w)
  | Some content =>
    let attempt : res bool * world :=
      match load_json content with
      | Raise e => (Raise e, w)
      | Ok cache_entry =>
        match py_in "expires_at" cache_entry with
        | Raise e => (Raise e, w)
        | Ok false => (Ok false, w)
        | Ok true =>
          match py_getitem cache_entry "expires_at" ≫= py_fromisoformat with
          | Raise e => (Raise e, w)
          | Ok expires_at =>
            let '(now, w1) := read_clock E w in (now_not_after now expires_at, w1)
          end
        end
      end in
    match attempt with
    | (Ok b, w1) => (Ok b, w1)
    | (Raise e, w1) => if corrupted e then (Ok false, w1) else (Raise e, w1)
    end
  end.

End DataCache.

(** ** The fetcher ([F1DataFetcher]): requests, retries, cache orchestration *)

Section Fetcher.
Context {L : PyLib} (E : env).

Definition BASE_URL : string := "https://api.jolpi.ca/ergast/f1".
(** 100 ms, in microseconds *)
Definition RATE_LIMIT_DELAY : Z := 100000.
Definition MAX_RETRIES : Z := 3.
Definition CACHE_TTL_SEASON_RESULTS : Z := 86400.
Definition CACHE_TTL_STANDINGS : Z := 21600.
Definition CACHE_TTL_QUALIFYING : Z := 3600.
Definition CACHE_TTL_CIRCUIT_HISTORY : Z := 604800.
Definition CACHE_TTL_NEXT_RACE : Z := 3600.

(** The attributes of a fetcher that do not change: the directory of its
    [DataCache] and [use_cache]. *)
Record fetcher : Type := {
  cache_dir : string;
  use_cache : bool;
}.

Definition _rate_limit (w : world) : world :=
  let '(now, w1) := read_clock E w in
  let elapsed := now - last_request_time w1 in
  let w2 :=
    if elapsed <? RATE_LIMIT_DELAY
    then emit (EvRateLimitSleep (RATE_LIMIT_DELAY - elapsed)) w1
    else w1 in
  let '(now', w3) := read_clock E w2 in
  set_last_request_time now' w3.

(** [isinstance(data, dict)] *)
Definition is_dict (v : value) : bool :=
  match v with JObj _ => true | _ => false end.

(** [response.raise_for_status()]: [HTTPError] for a 4xx or 5xx status. *)
Definition raise_for_status (status_code : Z) : res unit :=
  if (400 <=? status_code) && (status_code <? 600)
  then Raise (HTTPError status_code) else Ok tt.

(** The inner [try] of [_make_request]: decode and validate the body; a
    [ValueError] becomes a [RequestException]. *)
Definition validate_body (body : option value) : res value :=
  try_except
    (data ← match body with Some d => Ok d | None => Raise JSONDecodeError end;
     if negb (is_dict data) then Raise ValueError
     else
       has_envelope ← py_in "MRData" data;
       if has_envelope : bool then Ok data else Raise ValueError)
    is_value_error (λ _, Raise RequestException).

(** What one reply makes of the outer [try] of [_make_request]. *)
Definition response_outcome (r : reply) : res value :=
  match r with
  | ReplyTimeout => Raise ReqTimeout
  | ReplyConnectionError => Raise ConnectionError
  | ReplyResponse status_code body =>
      _ ← raise_for_status status_code; validate_body body
  end.

(** The body of the outer [try] of [_make_request]: one request. *)
Definition attempt (url : string) (query : params) (w : world) : res value * world :=
  let '(r, w1) := requests_get E url query w in (response_outcome r, w1).

(** [raise last_exception]; raising [None] is a [TypeError]. *)
Definition raise_last (last_exception : option exn) : res value :=
  match last_exception with
  | Some e => Raise e
  | None => Raise TypeError
  end.

(** What the three retrying [except] clauses share: count the failure and
    sleep [2 ** retry_count] seconds unless the budget is used up. *)
Definition count_failure (retry_count : Z) (w : world) : Z * world :=
  let retry_count := retry_count + 1 in
  (retry_count,
   if retry_count <? MAX_RETRIES then emit (EvBackoffSleep (2 ^ retry_count)) w else w).

(** The [while retry_count < self.MAX_RETRIES] loop.  Every iteration that
    does not leave the loop adds one to [retry_count], so [fuel] iterations
    suffice when [MAX_RETRIES - retry_count <= fuel] ([retry_loop_fuel]). *)
Fixpoint retry_loop (fuel : nat) (url : string) (query : params)
    (retry_count : Z) (last_exception : option exn) (w : world)
    : res value * world :=
  if retry_count <? MAX_RETRIES then
    match fuel with
    | O => (raise_last last_exception, w)
    | S fuel' =>
      match attempt url query w with
      | (Ok data, w1) => (Ok data, w1)
      | (Raise e, w1) =>
        match e with
        | ReqTimeout =>
            let '(retry_count, w2) := count_failure retry_count w1 in
            retry_loop fuel' url query retry_count (Some e) w2
        | HTTPError status_code =>
            if (400 <=? status_code) && (status_code <? 500) then (Raise e, w1)
            else
              let '(retry_count, w2) := count_failure retry_count w1 in
              retry_loop fuel' url query retry_count (Some e) w2
        | ConnectionError | RequestException =>
            let '(retry_count, w2) := count_failure retry_count w1 in
            retry_loop fuel' url query retry_count (Some e) w2
        | _ => (Raise e, w1)
        end
      end
    end
  else (raise_last last_exception, w).

Definition _make_request (url : string) (query : params) (w : world)
    : res value * world :=
  let w1 := _rate_limit w in
  retry_loop (Z.to_nat MAX_RETRIES) url query 0 None w1.

Definition _get_cached_or_fetch (self : fetcher) (cache_key url : string) (ttl : Z)
    (query : params) (w : world) : res value * world :=
  (* Check cache first if enabled; [except Exception] swallows a read error. *)
  let '(cached_data, w1) :=
    if use_cache self then
      match get E (cache_dir self) cache_key false w with
      | (Ok cached_data, w1) => (cached_data, w1)
      | (Raise _, w1) => (PyNone, w1)
      end
    else (PyNone, w) in
  if negb (is_none cached_data) then (Ok cached_data, w1)
  else
    match _make_request url query w1 with
    | (Ok data, w2) =>
        (* [except Exception] swallows a write error. *)
        (Ok data,
         if use_cache self then (set E (cache_dir self) cache_key data ttl w2).2
         else w2)
    | (Raise e, w2) =>
        if is_request_exception e then
          if use_cache self then
            match get E (cache_dir self) cache_key true w2 with
            | (Ok stale_data, w3) =>
                if negb (is_none stale_data) then (Ok stale_data, w3) else (Raise e, w3)
            | (Raise _, w3) => (Raise e, w3)
            end
          else (Raise e, w2)
        else (Raise e, w2)
    end.

End Fetcher.

(** ** Resource operations ([F1DataFetcher.get_*]) *)

Section Collections.
Context {L : PyLib}.

(** [except (KeyError, ValueError, TypeError)]: the per-element clause *)
Definition skippable (e : exn) : bool :=
  is_key_error e || is_value_error e || is_type_error e.

(** [except (KeyError, TypeError)] *)
Definition structure_error (e : exn) : bool :=
  is_key_error e || is_type_error e.

(** [except (KeyError, IndexError, TypeError)] *)
Definition structure_or_index_error (e : exn) : bool :=
  is_key_error e || is_index_error e || is_type_error e.

(** A loop body works on the list it appends to; the list keeps what was
    appended when the body raises. *)
Definition body (A : Type) : Type := value → list A → res unit * list A.

(** [for x in items: try: <body> except (KeyError, ValueError, TypeError): continue] *)
Fixpoint for_each_skipping {A : Type} (f : body A) (items : list value)
    (results : list A) : res unit * list A :=
  match items with
  | [] => (Ok tt, results)
  | x :: rest =>
    match f x results with
    | (Ok _, results1) => for_each_skipping f rest results1
    | (Raise e, results1) =>
        if skippable e then for_each_skipping f rest results1
        else (Raise e, results1)
    end
  end.

(** [result = parse(x); results.append(result)] *)
Definition append_parsed {A : Type} (parse : value → res A) : body A :=
  λ x results,
    match parse x with
    | Ok result => (Ok tt, results ++ [result])
    | Raise e => (Raise e, results)
    end.

(** The end of an operation whose outer [try] has the clause [catches]:
    the clause logs and falls through to [return results]. *)
Definition finish {A : Type} (catches : exn → bool) (r : res unit * list A)
    : res (list A) :=
  match r with
  | (Ok _, results) => Ok results
  | (Raise e, results) => if catches e then Ok results else Raise e
  end.

(** [[f for f in required_fields if f not in d]] *)
Fixpoint missing_fields (required_fields : list string) (d : value)
    : res (list string) :=
  match required_fields with
  | [] => Ok []
  | field :: rest =>
      present ← py_in field d;
      missing ← missing_fields rest d;
      Ok (if present : bool then missing else field :: missing)
  end.

(** [data['MRData'].get(table, {}).get(collection, [])] *)
Definition nested_collection (data : value) (table collection : string) : res value :=
  envelope ← py_getitem data "MRData";
  t ← py_get envelope table (JObj []);
  py_get t collection (JArr []).

(** The parsing half of [get_next_race]. *)
Definition next_race_of (data : value) : res Race :=
  try_except
    (has_envelope ← py_in "MRData" data;
     if negb has_envelope then Raise ValueError
     else
       races ← nested_collection data "RaceTable" "Races";
       if negb (py_truth races) then Raise ValueError
       else
         race_data ← py_first races;
         missing ← missing_fields ["season"; "round"; "raceName"; "Circuit"; "date"]
                     race_data;
         match missing with
         | [] => _parse_race race_data
         | _ :: _ => Raise ValueError
         end)
    structure_or_index_error (λ _, Raise ValueError).

(** The body of the race loop of [get_current_season_results]. *)
Definition season_race_body : body RaceResult :=
  λ race_data results,
    match _parse_race race_data with
    | Raise e => (Raise e, results)
    | Ok race =>
      match py_get race_data "Results" (JArr []) ≫= py_iter with
      | Raise e => (Raise e, results)
      | Ok items =>
          for_each_skipping (append_parsed (_parse_race_result race)) items results
      end
    end.

(** The parsing half of [get_current_season_results]. *)
Definition season_results_of (data : value) : res (list RaceResult) :=
  match py_in "MRData" data with
  | Raise e => finish structure_error (Raise e, [])
  | Ok false => Ok []
  | Ok true =>
    match nested_collection data "RaceTable" "Races" ≫= py_iter with
    | Raise e => finish structure_error (Raise e, [])
    | Ok races => finish structure_error (for_each_skipping season_race_body races [])
    end
  end.

(** The parsing half of [get_driver_standings] and
    [get_constructor_standings]: [collection] is ["DriverStandings"] or
    ["ConstructorStandings"]. *)
Definition standings_of {A : Type} (collection : string) (parse : value → res A)
    (data : value) : res (list A) :=
  match py_in "MRData" data with
  | Raise e => finish structure_or_index_error (Raise e, [])
  | Ok false => Ok []
  | Ok true =>
    match nested_collection data "StandingsTable" "StandingsLists" with
    | Raise e => finish structure_or_index_error (Raise e, [])
    | Ok standings_lists =>
      if negb (py_truth standings_lists) then Ok []
      else
        match (standings_list ← py_first standings_lists;
               py_get standings_list collection (JArr [])) ≫= py_iter with
        | Raise e => finish structure_or_index_error (Raise e, [])
        | Ok items =>
            finish structure_or_index_error
              (for_each_skipping (append_parsed parse) items [])
        end
    end
  end.

(** The parsing half of [get_qualifying_results]. *)
Definition qualifying_results_of (data : value) : res (list QualifyingResult) :=
  match py_in "MRData" data with
  | Raise e => finish structure_error (Raise e, [])
  | Ok false => Ok []
  | Ok true =>
    match nested_collection data "RaceTable" "Races" with
    | Raise e => finish structure_error (Raise e, [])
    | Ok races =>
      if negb (py_truth races) then Ok []
      else
        match py_first races with
        | Raise e => finish structure_error (Raise e, [])
        | Ok race_data =>
          (* the inner [try] logs a skippable exception and falls through *)
          let inner : res unit * list QualifyingResult :=
            match _parse_race race_data with
            | Raise e => (Raise e, [])
            | Ok race =>
              match py_get race_data "QualifyingResults" (JArr []) ≫= py_iter with
              | Raise e => (Raise e, [])
              | Ok items =>
                  for_each_skipping (append_parsed (_parse_qualifying_result race))
                    items []
              end
            end in
          match inner with
          | (Raise e, results) =>
              if skippable e then Ok results
              else finish structure_error (Raise e, results)
          | (Ok _, results) => Ok results
          end
        end
    end
  end.

(** The body of the race loop of [get_circuit_history]. *)
Definition history_race_body (cutoff_year : Z) : body RaceResult :=
  λ race_data results,
    match _parse_race race_data with
    | Raise e => (Raise e, results)
    | Ok race =>
      if cutoff_year <=? season race then
        match py_get race_data "Results" (JArr []) ≫= py_iter with
        | Raise e => (Raise e, results)
        | Ok items =>
            for_each_skipping (append_parsed (_parse_race_result race)) items results
        end
      else (Ok tt, results)
    end.

End Collections.

Section Operations.
Context {L : PyLib} (E : env).

(** [str(season) if season else "current"] *)
Definition season_str_of (season : option Z) : string :=
  match season with
  | Some n => if n =? 0 then "current" else str_of_int n
  | None => "current"
  end.

(** [except requests.RequestException] around the fetch of an operation
    that answers a failed fetch with [on_failure]. *)
Definition fetched {A : Type} (r : res value * world) (on_failure : res A)
    (parse : value → world → res A * world) : res A * world :=
  match r with
  | (Raise e, w1) => if is_request_exception e then (on_failure, w1) else (Raise e, w1)
  | (Ok data, w1) => parse data w1
  end.

Definition get_next_race (self : fetcher) (w : world) : res Race * world :=
  let cache_key := "next_race" in
  let url := BASE_URL +:+ "/current/next.json" in
  fetched (_get_cached_or_fetch E self cache_key url CACHE_TTL_NEXT_RACE None w)
    (Raise ValueError)
    (λ data w1, (next_race_of data, w1)).

Definition get_current_season_results (self : fetcher) (season : option Z) (w : world)
    : res (list RaceResult) * world :=
  let season_str := season_str_of season in
  let cache_key := "season_results_" +:+ season_str in
  let url := BASE_URL +:+ "/" +:+ season_str +:+ "/results.json" in
  fetched
    (_get_cached_or_fetch E self cache_key url CACHE_TTL_SEASON_RESULTS
       (Some [("limit", 1000)]) w)
    (Ok [])
    (λ data w1, (season_results_of data, w1)).

Definition get_driver_standings (self : fetcher) (season : option Z) (w : world)
    : res (list DriverStanding) * world :=
  let season_str := season_str_of season in
  let cache_key := "driver_standings_" +:+ season_str in
  let url := BASE_URL +:+ "/" +:+ season_str +:+ "/driverStandings.json" in
  fetched (_get_cached_or_fetch E self cache_key url CACHE_TTL_STANDINGS None w)
    (Ok [])
    (λ data w1, (standings_of "DriverStandings" _parse_driver_standing data, w1)).

Definition get_constructor_standings (self : fetcher) (season : option Z) (w : world)
    : res (list ConstructorStanding) * world :=
  let season_str := season_str_of season in
  let cache_key := "constructor_standings_" +:+ season_str in
  let url := BASE_URL +:+ "/" +:+ season_str +:+ "/constructorStandings.json" in
  fetched (_get_cached_or_fetch E self cache_key url CACHE_TTL_STANDINGS None w)
    (Ok [])
    (λ data w1,
       (standings_of "ConstructorStandings" _parse_constructor_standing data, w1)).

Definition get_qualifying_results (self : fetcher) (season round_num : Z) (w : world)
    : res (list QualifyingResult) * world :=
  let cache_key := "qualifying_" +:+ str_of_int season +:+ "_" +:+ str_of_int round_num in
  let url := BASE_URL +:+ "/" +:+ str_of_int season +:+ "/" +:+ str_of_int round_num
             +:+ "/qualifying.json" in
  fetched (_get_cached_or_fetch E self cache_key url CACHE_TTL_QUALIFYING None w)
    (Ok [])
    (λ data w1, (qualifying_results_of data, w1)).

(** The parsing half of [get_circuit_history]; it reads the clock for the
    current year once the race collection is at hand. *)
Definition circuit_history_of (years : Z) (data : value) (w : world)
    : res (list RaceResult) * world :=
  match py_in "MRData" data with
  | Raise e => (finish structure_error (Raise e, []), w)
  | Ok false => (Ok [], w)
  | Ok true =>
    match nested_collection data "RaceTable" "Races" with
    | Raise e => (finish structure_error (Raise e, []), w)
    | Ok races =>
      let '(now, w1) := read_clock E w in
      let current_year := year_of now in
      let cutoff_year := current_year - years in
      match py_iter races with
      | Raise e => (finish structure_error (Raise e, []), w1)
      | Ok items =>
          (finish structure_error
             (for_each_skipping (history_race_body cutoff_year) items []), w1)
      end
    end
  end.

Definition get_circuit_history (self : fetcher) (circuit_id : string) (years : Z)
    (w : world) : res (list RaceResult) * world :=
  let cache_key := "circuit_history_" +:+ circuit_id +:+ "_" +:+ str_of_int years in
  let url := BASE_URL +:+ "/circuits/" +:+ circuit_id +:+ "/results.json" in
  fetched
    (_get_cached_or_fetch E self cache_key url CACHE_TTL_CIRCUIT_HISTORY
       (Some [("limit", years * 30)]) w)
    (Ok [])
    (circuit_history_of years).

End Operations.

(** ** Clearing the cache ([DataCache.clear]) *)

Section Clear.
Context {L : PyLib}.

(** [s] without the prefix [p], when it starts with [p]. *)
Fixpoint strip_prefix (p s : string) : option string :=
  match p with
  | EmptyString => Some s
  | String a p' =>
      match s with
      | EmptyString => None
      | String b s' => if Ascii.eqb a b then strip_prefix p' s' else None
      end
  end.

(** [s] contains the character [c]. *)
Fixpoint has_char (c : ascii) (s : string) : bool :=
  match s with
  | EmptyString => false
  | String a rest => Ascii.eqb a c || has_char c rest
  end.

(** [s] ends with [suffix]. *)
Fixpoint ends_with (suffix s : string) : bool :=
  String.eqb suffix s ||
  match s with
  | EmptyString => false
  | String _ rest => ends_with suffix rest
  end.

(** The files [cache_dir.glob('*.json')] yields: those directly in the
    directory whose name ends in [.json]. *)
Definition globbed (cache_dir path : string) : bool :=
  match strip_prefix (cache_dir +:+ "/") path with
  | Some name => negb (has_char "/" name) && ends_with ".json" name
  | None => false
  end.

(** [for cache_file in self.cache_dir.glob('*.json'): cache_file.unlink()] *)
Definition clear (cache_dir : string) (w : world) : world :=
  set_files (filter (λ kv, globbed cache_dir kv.1 = false) (files w)) w.

End Clear.

(** ** The prediction engine ([engine.py]) *)

Section Engine.
Context {L : PyLib} (E : env).

(** [PredictionError]. Its [message] quotes the text of the exception at
    hand; the exceptions here carry no text, so the field is left out. *)
Record PredictionError : Type := {
  error_type : string;
  suggestions : list string;
  recoverable : bool;
}.

(** [PredictionAnalyzer.analyze] computes on floats and touches neither the
    clock, the files nor the network: the engine is modelled for any such
    function. [true_div a b] is [a / b] on two ints. *)
Context {DriverPrediction : Type}.
Context (analyze : Race → list DriverStanding → list ConstructorStanding →
                   list RaceResult → list QualifyingResult → list RaceResult →
                   Z → res (list DriverPrediction)).
Context (true_div : Z → Z → pyfloat).

(** [generated_at] is the clock reading of [datetime.utcnow()]. *)
Record PredictionResult : Type := {
  pr_race : Race;
  predictions : list DriverPrediction;
  generated_at : Z;
  data_sources : list string;
  data_completeness : pyfloat;
}.

(** The fields of [PredictionEngine] that [predict_next_race] reads;
    [verbose] only chooses whether progress is printed. *)
Record engine : Type := {
  data_fetcher : fetcher;
  top_n : Z;
}.

(** [len(xs)] *)
Definition len {A : Type} (xs : list A) : Z := Z.of_nat (length xs).

(** A [Race] holds a [Circuit] and a [datetime], which are always true, so
    [not race.circuit] and [not race.date] are false. The clock is read for
    the current year only when [race.season < 1950] is false. *)
Definition _validate_race_data (race : Race) (w : world) : list string * world :=
  let warnings : list string := [] in
  let warnings :=
    if negb (py_truth (race_name race))
    then warnings ++ ["Race name is missing"] else warnings in
  let warnings :=
    if negb (py_truth (circuit_id (circuit race)))
    then warnings ++ ["Circuit information is incomplete"] else warnings in
  let invalid := "Race season " +:+ str_of_int (season race) +:+ " seems invalid" in
  if season race <? 1950 then (warnings ++ [invalid], w)
  else
    let '(now, w1) := read_clock E w in
    if year_of now + 1 <? season race then (warnings ++ [invalid], w1)
    else (warnings, w1).

Definition _validate_standings_data (driver_standings : list DriverStanding)
    (constructor_standings : list ConstructorStanding) : list string :=
  let warnings : list string := [] in
  let warnings :=
    match driver_standings with
    | [] => warnings ++ ["No driver standings data available"]
    | _ :: _ =>
        if len driver_standings <? 10
        then warnings ++ ["Limited driver standings data ("
                          +:+ str_of_int (len driver_standings) +:+ " drivers)"]
        else warnings
    end in
  match constructor_standings with
  | [] => warnings ++ ["No constructor standings data available"]
  | _ :: _ =>
      if len constructor_standings <? 5
      then warnings ++ ["Limited constructor standings data ("
                        +:+ str_of_int (len constructor_standings) +:+ " teams)"]
      else warnings
  end.

Definition _validate_results_data (results : list RaceResult) : list string :=
  let warnings : list string := [] in
  match results with
  | [] => warnings ++ ["No race results data available"]
  | _ :: _ =>
      if len results <? 20
      then warnings ++ ["Limited race results data ("
                        +:+ str_of_int (len results) +:+ " results)"]
      else warnings
  end.

Definition _calculate_data_completeness
    (qualifying_results : option (list QualifyingResult))
    (circuit_history : option (list RaceResult)) : pyfloat :=
  let total_sources := 5 in
  let available_sources := 3 in
  let available_sources :=
    match qualifying_results with
    | Some (_ :: _) => available_sources + 1
    | _ => available_sources
    end in
  let available_sources :=
    match circuit_history with
    | Some (_ :: _) => available_sources + 1
    | _ => available_sources
    end in
  true_div available_sources total_sources.

(** The errors [predict_next_race] raises. *)
Definition next_race_data_error : PredictionError :=
  {| error_type := "DataError";
     suggestions := ["Check if the F1 season is currently active";
                     "Verify API connectivity";
                     "Check if there are any scheduled races";
                     "Try again later"];
     recoverable := true |}.

Definition network_error : PredictionError :=
  {| error_type := "NetworkError";
     suggestions := ["Check your internet connection";
                     "Verify the API is accessible";
                     "Try again later";
                     "Use --no-cache flag to bypass cache"];
     recoverable := true |}.

Definition standings_data_error : PredictionError :=
  {| error_type := "DataError";
     suggestions := ["Check if the F1 season has started";
                     "Verify API is returning valid data";
                     "Try again later"];
     recoverable := true |}.

Definition missing_data : PredictionError :=
  {| error_type := "MissingData";
     suggestions := ["Check if the F1 season has started";
                     "Verify API connectivity";
                     "Try again later"];
     recoverable := false |}.

Definition analysis_error : PredictionError :=
  {| error_type := "AnalysisError";
     suggestions := ["Check data quality";
                     "Verify sufficient historical data exists";
                     "Try again later"];
     recoverable := false |}.

Definition unexpected_error : PredictionError :=
  {| error_type := "UnexpectedError";
     suggestions := ["Check your internet connection";
                     "Verify the API is accessible";
                     "Check logs for more details";
                     "Try again later"];
     recoverable := true |}.

(** What leaves the body of the outer [try]: a [PredictionError], or
    another exception. *)
Inductive raised : Type :=
| Predict (error : PredictionError)
| Other (e : exn).

(** [try: xs = <fetch> / except requests.RequestException: xs = [] /
    except Exception: xs = []] *)
Definition or_empty {A : Type} (r : res (list A) * world) : list A * world :=
  match r with
  | (Ok xs, w) => (xs, w)
  | (Raise _, w) => ([], w)
  end.

(** [except requests.RequestException] and [except Exception] around the two
    standings fetches. *)
Definition standings_failure (e : exn) : raised :=
  if is_request_exception e then Predict network_error
  else Predict standings_data_error.

(** The body of the outer [try] of [predict_next_race]. The warnings of the
    three validations are logged and used for nothing else. *)
Definition prediction_attempt (self : engine) (w : world)
    : (raised + PredictionResult) * world :=
  match get_next_race E (data_fetcher self) w with
  | (Raise e, w1) =>
      if is_value_error e then (inl (Predict next_race_data_error), w1)
      else if is_request_exception e then (inl (Predict network_error), w1)
      else (inl (Other e), w1)
  | (Ok race, w1) =>
    let '(race_warnings, w2) := _validate_race_data race w1 in
    match get_driver_standings E (data_fetcher self) (Some (season race)) w2 with
    | (Raise e, w3) => (inl (standings_failure e), w3)
    | (Ok driver_standings, w3) =>
      match get_constructor_standings E (data_fetcher self) (Some (season race)) w3 with
      | (Raise e, w4) => (inl (standings_failure e), w4)
      | (Ok constructor_standings, w4) =>
        let standings_warnings :=
          _validate_standings_data driver_standings constructor_standings in
        match driver_standings with
        | [] => (inl (Predict missing_data), w4)
        | _ :: _ =>
          let '(season_results, w5) :=
            or_empty (get_current_season_results E (data_fetcher self)
                        (Some (season race)) w4) in
          let results_warnings := _validate_results_data season_results in
          let '(qualifying_results, w6) :=
            or_empty (get_qualifying_results E (data_fetcher self)
                        (season race) (round race) w5) in
          let '(circuit_history, w7) :=
            or_empty (get_circuit_history E (data_fetcher self)
                        (py_str (circuit_id (circuit race))) 5 w6) in
          match analyze race driver_standings constructor_standings season_results
                  qualifying_results circuit_history (top_n self) with
          | Raise e => (inl (Other e), w7)
          | Ok [] => (inl (Predict analysis_error), w7)
          | Ok (p :: ps) =>
            let data_completeness :=
              _calculate_data_completeness (Some qualifying_results)
                (Some circuit_history) in
            let '(now, w8) := read_clock E w7 in
            (inr {| pr_race := race;
                    predictions := p :: ps;
                    generated_at := now;
                    data_sources := ["Jolpica F1 API"];
                    data_completeness := data_completeness |}, w8)
          end
        end
      end
    end
  end.

(** [except PredictionError: raise] and [except Exception as e: raise
    PredictionError("UnexpectedError", ...)]. *)
Definition predict_next_race (self : engine) (w : world)
    : (PredictionError + PredictionResult) * world :=
  match prediction_attempt self w with
  | (inl (Predict error), w') => (inl error, w')
  | (inl (Other _), w') => (inl unexpected_error, w')
  | (inr result, w') => (inr result, w')
  end.

End Engine.

(** * Vocabulary of the properties *)

Section RequestVocabulary.
Context {L : PyLib} (E : env).

(** A body [_make_request] accepts: a JSON object with the top-level
    envelope field. *)
Definition well_formed (body : option value) : bool :=
  match body with
  | Some (JObj fields) => bool_decide (is_Some (assoc "MRData" fields))
  | _ => false
  end.

(** Statuses [raise_for_status] lets through as a success. *)
Definition success (status_code : Z) : Prop := 200 <= status_code < 300.
Definition client_error (status_code : Z) : Prop := 400 <= status_code < 500.
Definition server_error (status_code : Z) : Prop := 500 <= status_code < 600.

(** The world after one [requests.get]. *)
Definition requested (url : string) (query : params) (w : world) : world :=
  (requests_get E url query w).2.

(** The world after a backoff sleep of [seconds]. *)
Definition slept (seconds : Z) (w : world) : world := emit (EvBackoffSleep seconds) w.

(** The exceptions after which the loop goes round again. *)
Definition retried (e : exn) : bool :=
  match e with
  | ReqTimeout | ConnectionError | RequestException => true
  | HTTPError s => negb ((400 <=? s) && (s <? 500))
  | _ => false
  end.

(** [_make_request] raises after exactly one attempt: all it does after rate
    limiting is one request, with no backoff sleep and no second request. *)
Definition fails_at_once (url : string) (query : params) (w : world) : Prop :=
  ∃ e, _make_request E url query w =
         (Raise e, requested url query (_rate_limit E w)).

End RequestVocabulary.

Section CollectionVocabulary.
Context {L : PyLib}.

(** The fields each element parser requires of its element. *)
Definition race_result_fields : list string :=
  ["Driver"; "Constructor"; "position"; "points"; "grid"; "laps"; "status"].
Definition qualifying_result_fields : list string :=
  ["Driver"; "Constructor"; "position"].
Definition driver_standing_fields : list string :=
  ["Driver"; "Constructors"; "position"; "points"; "wins"].
Definition constructor_standing_fields : list string :=
  ["Constructor"; "position"; "points"; "wins"].

(** An element that is missing a required field: a JSON object without
    one of [required_fields]. *)
Definition lacks_required (required_fields : list string) (x : value) : Prop :=
  ∃ fields field,
    x = JObj fields ∧ field ∈ required_fields ∧ assoc field fields = None.

(** [items] has one element that is missing a required field, and its
    other elements are valid: [parse] turns them, in order, into [records].
    (Three items, hence two records, is the case of a collection of three.) *)
Definition one_malformed {A : Type} (required_fields : list string)
    (parse : value → res A) (items : list value) (records : list A) : Prop :=
  ∃ before bad after,
    items = before ++ bad :: after ∧
    lacks_required required_fields bad ∧
    Forall2 (λ x record, parse x = Ok record) (before ++ after) records.

(** [data] is a response with one race, [race_data], which parses to [race]
    and whose [collection] holds [items]. *)
Definition race_collection (data race_data : value) (race : Race)
    (collection : string) (items : list value) : Prop :=
  nested_collection data "RaceTable" "Races" = Ok (JArr [race_data]) ∧
  _parse_race race_data = Ok race ∧
  py_get race_data collection (JArr []) = Ok (JArr items).

(** [data] is a response whose first standings list holds [items] under
    [collection]. *)
Definition standings_collection (data : value) (collection : string)
    (items : list value) : Prop :=
  ∃ standings_list more,
    nested_collection data "StandingsTable" "StandingsLists" =
      Ok (JArr (standings_list :: more)) ∧
    py_get standings_list collection (JArr []) = Ok (JArr items).

End CollectionVocabulary.

Section HistoryVocabulary.
Context {L : PyLib} (E : env).

(** The first year [get_circuit_history] keeps, when the clock is read in [w]. *)
Definition cutoff_year (years : Z) (w : world) : Z :=
  year_of (clock E (readings w)) - years.

End HistoryVocabulary.

Section CacheVocabulary.
Context {L : PyLib} (E : env).

(** What the library owes [set] and [get]: a naive date written by
    [isoformat] is read back by [fromisoformat]. *)
Definition iso_round_trip : Prop :=
  ∀ t, fromisoformat (isoformat t) = Some (Naive t).

(** The [expires_at] of an entry that [set] writes with [ttl] in world [w]. *)
Definition expiry (ttl : Z) (w : world) : Z :=
  clock E (readings w) + timedelta_seconds ttl.

(** [set] can compute that [expires_at]: the [timedelta] of [ttl] exists
    and [now + timedelta] is a [datetime]. *)
Definition storable (ttl : Z) (w : world) : Prop :=
  - MAX_DELTA_DAYS <= ttl / 86400 <= MAX_DELTA_DAYS ∧
  MINYEAR <= year_of (expiry ttl w) <= MAXYEAR.

(** The world after one reading of the clock. *)
Definition ticked (w : world) : world := (read_clock E w).2.

(** A persisted entry as [set] writes it: a JSON object with the payload
    under [data] and a naive timestamp under [expires_at]. *)
Definition entry_of (content : file_content) (payload : value) (expires_at : Z) : Prop :=
  ∃ fields s,
    content = Decoded (JObj fields) ∧
    assoc "data" fields = Some payload ∧
    assoc "expires_at" fields = Some (JStr s) ∧
    fromisoformat s = Some (Naive expires_at).

(** A decodable JSON object that lacks [data] or [expires_at]. *)
Definition incomplete_entry (content : file_content) : Prop :=
  ∃ fields,
    content = Decoded (JObj fields) ∧
    (assoc "data" fields = None ∨ assoc "expires_at" fields = None).

End CacheVocabulary.

Section PolicyVocabulary.
Context {L : PyLib} (E : env).

(** The fetch each operation starts with. *)
Definition fetch_next_race (self : fetcher) (w : world) : res value * world :=
  _get_cached_or_fetch E self "next_race" (BASE_URL +:+ "/current/next.json")
    CACHE_TTL_NEXT_RACE None w.

Definition fetch_season_results (self : fetcher) (season : option Z) (w : world)
    : res value * world :=
  _get_cached_or_fetch E self ("season_results_" +:+ season_str_of season)
    (BASE_URL +:+ "/" +:+ season_str_of season +:+ "/results.json")
    CACHE_TTL_SEASON_RESULTS (Some [("limit", 1000)]) w.

Definition fetch_driver_standings (self : fetcher) (season : option Z) (w : world)
    : res value * world :=
  _get_cached_or_fetch E self ("driver_standings_" +:+ season_str_of season)
    (BASE_URL +:+ "/" +:+ season_str_of season +:+ "/driverStandings.json")
    CACHE_TTL_STANDINGS None w.

Definition fetch_constructor_standings (self : fetcher) (season : option Z)
    (w : world) : res value * world :=
  _get_cached_or_fetch E self ("constructor_standings_" +:+ season_str_of season)
    (BASE_URL +:+ "/" +:+ season_str_of season +:+ "/constructorStandings.json")
    CACHE_TTL_STANDINGS None w.

End PolicyVocabulary.

Section KeyVocabulary.

(** A character [_get_cache_path] leaves as it is. *)
Definition safe (c : ascii) : Prop := c ≠ "/"%char ∧ c ≠ ":"%char.

(** A safe character other than the one [_get_cache_path] substitutes. *)
Definition safe_not_underscore (c : ascii) : Prop := safe c ∧ c ≠ "_"%char.

(** [k2] differs from [k1] only by characters that satisfy [ok], in the
    same positions: the keys have the same length, and wherever their
    characters differ the character of [k2] satisfies [ok]. *)
Fixpoint differs_only_by (ok : ascii → Prop) (k1 k2 : string) : Prop :=
  match k1, k2 with
  | EmptyString, EmptyString => True
  | String c1 rest1, String c2 rest2 =>
      (c1 = c2 ∨ ok c2) ∧ differs_only_by ok rest1 rest2
  | _, _ => False
  end.

(** [k] contains a ['/'] or a [':']. *)
Definition has_separator (k : string) : Prop :=
  ∃ i, String.get i k = Some "/"%char ∨ String.get i k = Some ":"%char.

End KeyVocabulary.

Section ExtraVocabulary.
Context {L : PyLib}.

(** A JSON value that is no container: [in] raises [TypeError] on it. *)
Definition scalar (v : value) : Prop :=
  match v with
  | JNull | JBool _ | JInt _ | JFloat _ => True
  | _ => False
  end.

(** A key without the two characters [_get_cache_path] replaces. *)
Definition separator_free (k : string) : Prop :=
  has_char "/" k = false ∧ has_char ":" k = false.

(** A reply after which [_make_request] tries again, with the exception it
    records: a timeout, a connection failure, a 5xx status, or a success
    status with a body that is not a JSON object with the envelope field. *)
Inductive transient : reply → exn → Prop :=
| transient_timeout : transient ReplyTimeout ReqTimeout
| transient_connection : transient ReplyConnectionError ConnectionError
| transient_server s body :
    server_error s → transient (ReplyResponse s body) (HTTPError s)
| transient_malformed s body :
    success s → well_formed body = false →
    transient (ReplyResponse s body) RequestException.

(** The events of [k] failed attempts, each followed by its backoff, and
    one more attempt. *)
Fixpoint retry_events (url : string) (query : params) (first : Z) (k : nat)
    : list event :=
  match k with
  | O => [EvRequest url query]
  | S k' =>
      EvRequest url query :: EvBackoffSleep (2 ^ first)
        :: retry_events url query (first + 1) k'
  end.

(** A cache read that is no hit: absent, or an exception. *)
Definition is_miss (r : res value) : Prop :=
  match r with
  | Ok v => v = PyNone
  | Raise _ => True
  end.

(** The records of the elements of [items] that [parse] accepts, in order. *)
Definition valid_records {A : Type} (parse : value → res A) (items : list value)
    : list A :=
  omap (λ x, match parse x with Ok record => Some record | Raise _ => None end) items.

(** Every element of [items] parses or fails with an exception of the
    per-element clause [(KeyError, ValueError, TypeError)]. *)
Definition tolerable {A : Type} (parse : value → res A) (items : list value) : Prop :=
  ∀ x e, x ∈ items → parse x = Raise e → skippable e = true.

(** The same for a race of a race table: the race parses or fails with such
    an exception, and so does each of its results. *)
Definition tolerable_race (race_data : value) : Prop :=
  match _parse_race race_data with
  | Raise e => skippable e = true
  | Ok race =>
      ∀ items, py_get race_data "Results" (JArr []) ≫= py_iter = Ok items →
               tolerable (_parse_race_result race) items
  end.

(** The records a race contributes: those of its valid results, when the
    race parses and [keep] holds of it. *)
Definition records_of_race (keep : Race → bool) (race_data : value)
    : list RaceResult :=
  match _parse_race race_data with
  | Ok race =>
      if keep race then
        match py_get race_data "Results" (JArr []) ≫= py_iter with
        | Ok items => valid_records (_parse_race_result race) items
        | Raise _ => []
        end
      else []
  | Raise _ => []
  end.

(** The fields [_parse_race] requires. *)
Definition race_fields : list string :=
  ["season"; "round"; "raceName"; "Circuit"; "date"].

(** A JSON object that has every field of [required_fields]. *)
Definition has_fields (required_fields : list string) (fields : list (string * value))
    : Prop :=
  ∀ field, field ∈ required_fields → is_Some (assoc field fields).

Definition is_string (v : value) : bool :=
  match v with JStr _ => true | _ => false end.

End ExtraVocabulary.

(** ** Vocabulary of the statements about exceptions and the engine *)

Section EngineVocabulary.
Context {L : PyLib}.

(** [m] raises no exception of the [requests] library. *)
Definition builtin {A : Type} (m : res A) : Prop :=
  ∀ e, m = Raise e → is_request_exception e = false.

(** The library keeps to its documentation on this point: [int(x)] for a
    float raises no exception of the [requests] library ([OverflowError] and
    [ValueError] are what it raises). *)
Definition int_raises_builtin : Prop :=
  ∀ x : pyfloat, builtin (int_of_float x).

End EngineVocabulary.

(** ** A library to run the definitions on

    A small model of the library functions, for evaluating the definitions
    on concrete inputs.  A float is written as an integer; [int] and [float]
    read a decimal numeral.  [isoformat] writes a naive date as its count of
    microseconds since 1970 in decimal; [fromisoformat] reads that form back
    and also reads the calendar form [YYYY-MM-DDTHH:MM:SS]. *)

Module Demo.

Definition parse_int (s : string) : option Z :=
  Z.of_int <$> NilZero.int_of_string s.

Definition digit (c : ascii) : option Z := Z.of_nat <$> Ascii.is_nat c.

Fixpoint number_from (acc : Z) (s : string) : option Z :=
  match s with
  | EmptyString => Some acc
  | String c rest => d ← digit c; number_from (10 * acc + d) rest
  end.

(** The days from 1970-01-01 to a day of the Gregorian calendar. *)
Definition days_from_civil (y m d : Z) : Z :=
  let y := if m <=? 2 then y - 1 else y in
  let era := y / 400 in
  let yoe := y - era * 400 in
  let doy := (153 * (if 2 <? m then m - 3 else m + 9) + 2) / 5 + d - 1 in
  let doe := yoe * 365 + yoe / 4 - yoe / 100 + doy in
  era * 146097 + doe - 719468.

Definition microseconds_per_day : Z := 86400 * 1000000.

(** The microseconds from 1970-01-01T00:00:00 to a date and time of day. *)
Definition at_time (y m d hour minute second : Z) : Z :=
  days_from_civil y m d * microseconds_per_day
  + ((hour * 60 + minute) * 60 + second) * 1000000.

(** [YYYY-MM-DDTHH:MM:SS] *)
Definition calendar (s : string) : option Z :=
  if bool_decide (String.length s = 19%nat
                  ∧ String.get 4 s = Some "-"%char ∧ String.get 7 s = Some "-"%char
                  ∧ String.get 10 s = Some "T"%char
                  ∧ String.get 13 s = Some ":"%char ∧ String.get 16 s = Some ":"%char)
  then
    y ← number_from 0 (String.substring 0 4 s);
    m ← number_from 0 (String.substring 5 2 s);
    d ← number_from 0 (String.substring 8 2 s);
    hour ← number_from 0 (String.substring 11 2 s);
    minute ← number_from 0 (String.substring 14 2 s);
    second ← number_from 0 (String.substring 17 2 s);
    Some (at_time y m d hour minute second)
  else None.

(** The year of the day that holds microsecond [t]. *)
Definition year (t : Z) : Z :=
  let z := t / microseconds_per_day + 719468 in
  let era := z / 146097 in
  let doe := z - era * 146097 in
  let yoe := (doe - doe / 1460 + doe / 36524 - doe / 146096) / 365 in
  let doy := doe - (365 * yoe + yoe / 4 - yoe / 100) in
  let mp := (5 * doy + 2) / 153 in
  if mp <? 10 then yoe + era * 400 else yoe + era * 400 + 1.

#[local] Instance lib : PyLib := {|
  pyfloat := Z;
  float_of_str := parse_int;
  float_of_int := Some;
  int_of_float := Ok;
  float_truth := λ x, negb (x =? 0);
  int_of_str := parse_int;
  py_repr := λ _, "<value>";
  isoformat := str_of_int;
  fromisoformat := λ s,
    match parse_int s with
    | Some t => Some (Naive t)
    | None => Naive <$> calendar s
    end;
  year_of := year;
|}.

(** A network that answers every request with [r]. *)
Definition always (r : reply) : nat → string → params → reply := λ _ _ _, r.

(** A network that answers the n-th request with the n-th reply of [rs],
    and with [r] after those. *)
Definition scripted (rs : list reply) (r : reply) : nat → string → params → reply :=
  λ n _ _, default r (rs !! n).

(** A clock that stands still, and one that advances one second per reading. *)
Definition frozen (t : Z) : nat → Z := λ _, t.
Definition ticking (t : Z) : nat → Z := λ n, t + 1000000 * Z.of_nat n.

Definition start (fs : gmap string file_content) : world := World fs 0 0 0 [].

Definition a_fetcher : fetcher := {| cache_dir := ".f1_cache"; use_cache := true |}.

(** A provider that is down: every request gets a 500. *)
Definition down : env :=
  {| clock := ticking 5000; net := always (ReplyResponse 500 None) |}.

(** A response body and a persisted entry that holds it, expired at
    microsecond 1000. *)
Definition a_body : value := JObj [("MRData", JObj [])].

Definition an_entry : file_content :=
  Decoded (JObj [("data", a_body); ("cached_at", JStr "0");
                 ("expires_at", JStr "1000"); ("ttl", JInt 0)]).

Definition a_driver : value :=
  JObj [("driverId", JStr "hakkinen"); ("code", JStr "HAK");
        ("givenName", JStr "Mika"); ("familyName", JStr "Hakkinen");
        ("nationality", JStr "Finnish")].

Definition a_constructor : value :=
  JObj [("constructorId", JStr "mclaren"); ("name", JStr "McLaren");
        ("nationality", JStr "British")].

Definition a_result (position : string) : value :=
  JObj [("Driver", a_driver); ("Constructor", a_constructor);
        ("position", JStr position); ("points", JStr "10"); ("grid", JStr "1");
        ("laps", JStr "71"); ("status", JStr "Finished")].

(** A result without its [status]. *)
Definition a_bad_result : value :=
  JObj [("Driver", a_driver); ("Constructor", a_constructor);
        ("position", JStr "2"); ("points", JStr "6"); ("grid", JStr "2");
        ("laps", JStr "71")].

Definition three_results : list value := [a_result "1"; a_bad_result; a_result "3"].

(** The race of 26 March 2000 with the three results. *)
Definition a_race : value :=
  JObj [("season", JStr "2000"); ("round", JStr "2");
        ("raceName", JStr "Brazilian Grand Prix");
        ("Circuit",
         JObj [("circuitId", JStr "interlagos");
               ("circuitName", JStr "Autodromo Jose Carlos Pace");
               ("Location",
                JObj [("locality", JStr "Sao Paulo"); ("country", JStr "Brazil")])]);
        ("date", JStr "2000-03-26"); ("time", JStr "17:00:00Z");
        ("Results", JArr three_results)].

Definition a_race_response : value :=
  JObj [("MRData", JObj [("RaceTable", JObj [("Races", JArr [a_race])])])].

(** Noon of 4 November 2026. *)
Definition today : env :=
  {| clock := frozen (at_time 2026 11 4 12 0 0);
     net := always (ReplyResponse 500 None) |}.

(** Noon of 4 November 2003, when the race of 2000 is within five years. *)
Definition back_then : env :=
  {| clock := frozen (at_time 2003 11 4 12 0 0);
     net := always (ReplyResponse 500 None) |}.

(** A provider that answers every request with [a_body]. *)
Definition up : env :=
  {| clock := ticking 5000; net := always (ReplyResponse 200 (Some a_body)) |}.

(** A provider that times out once and then answers with [a_body]. *)
Definition slow : env :=
  {| clock := ticking 5000;
     net := scripted [ReplyTimeout] (ReplyResponse 200 (Some a_body)) |}.

(** A clock that stands at microsecond 500, before [an_entry] expires. *)
Definition early : env :=
  {| clock := frozen 500; net := always (ReplyResponse 500 None) |}.

Definition a_standing (position : string) : value :=
  JObj [("Driver", a_driver); ("Constructors", JArr [a_constructor]);
        ("position", JStr position); ("points", JStr "25"); ("wins", JStr "1")].

(** A standing without its [wins]. *)
Definition a_bad_standing : value :=
  JObj [("Driver", a_driver); ("Constructors", JArr [a_constructor]);
        ("position", JStr "2"); ("points", JStr "18")].

Definition three_standings : list value :=
  [a_standing "1"; a_bad_standing; a_standing "3"].

Definition a_standings_response : value :=
  JObj [("MRData",
         JObj [("StandingsTable",
                JObj [("StandingsLists",
                       JArr [JObj [("DriverStandings", JArr three_standings)]])])])].

Definition a_qualifying (position : string) : value :=
  JObj [("Driver", a_driver); ("Constructor", a_constructor);
        ("position", JStr position); ("Q1", JStr "1:14.285")].

(** A qualifying result without its [position]. *)
Definition a_bad_qualifying : value :=
  JObj [("Driver", a_driver); ("Constructor", a_constructor)].

Definition three_qualifyings : list value :=
  [a_qualifying "1"; a_bad_qualifying; a_qualifying "3"].

Definition race_fields_of (extra : list (string * value)) : list (string * value) :=
  [("season", JStr "2000"); ("round", JStr "2");
   ("raceName", JStr "Brazilian Grand Prix");
   ("Circuit",
    JObj [("circuitId", JStr "interlagos");
          ("circuitName", JStr "Autodromo Jose Carlos Pace");
          ("Location",
           JObj [("locality", JStr "Sao Paulo"); ("country", JStr "Brazil")])]);
   ("date", JStr "2000-03-26")] ++ extra.

(** The race with its qualifying results, and a race whose [time] is a number. *)
Definition a_qualifying_race : value :=
  JObj (race_fields_of [("time", JStr "17:00:00Z");
                        ("QualifyingResults", JArr three_qualifyings)]).

Definition a_race_with_numeric_time : list (string * value) :=
  race_fields_of [("time", JInt 170000)].

Definition races_response (races : list value) : value :=
  JObj [("MRData", JObj [("RaceTable", JObj [("Races", JArr races)])])].

End Demo.

(** ** Sample inputs for the engine *)

Module EngineDemo.

#[local] Existing Instance Demo.lib.

Definition a_constructor_standing : value :=
  JObj [("Constructor", Demo.a_constructor); ("position", JStr "1");
        ("points", JStr "44"); ("wins", JStr "2")].

Definition a_constructor_standings_response : value :=
  JObj [("MRData",
         JObj [("StandingsTable",
                JObj [("StandingsLists",
                       JArr [JObj [("ConstructorStandings",
                                    JArr [a_constructor_standing])]])])])].

(** A provider that knows the next race (of season 2000) and the
    constructor standings of that season, answers the request for the driver
    standings with [drivers] and every other request with a 500. *)
Definition provider (drivers : reply) : nat → string → params → reply :=
  λ _ url _,
    if String.eqb url (BASE_URL +:+ "/current/next.json")
    then ReplyResponse 200 (Some Demo.a_race_response)
    else if String.eqb url (BASE_URL +:+ "/2000/driverStandings.json")
    then drivers
    else if String.eqb url (BASE_URL +:+ "/2000/constructorStandings.json")
    then ReplyResponse 200 (Some a_constructor_standings_response)
    else ReplyResponse 500 None.

Definition without_driver_standings : env :=
  {| clock := Demo.ticking 5000; net := provider (ReplyResponse 500 None) |}.

Definition with_driver_standings : env :=
  {| clock := Demo.ticking 5000;
     net := provider (ReplyResponse 200 (Some Demo.a_standings_response)) |}.

Definition an_engine : engine :=
  {| data_fetcher := Demo.a_fetcher; top_n := 3 |}.

Definition an_engine_without_cache : engine :=
  {| data_fetcher := {| cache_dir := ".f1_cache"; use_cache := false |}; top_n := 3 |}.

(** An analyzer that predicts the drivers in the order of the standings. *)
Definition by_standing : Race → list DriverStanding → list ConstructorStanding →
    list RaceResult → list QualifyingResult → list RaceResult → Z → res (list Driver) :=
  λ _ driver_standings _ _ _ _ _, Ok (ds_driver <$> driver_standings).

Definition quotient : Z → Z → pyfloat := Z.div.

End EngineDemo.

(** * Properties *)

(** ** The demo library *)

Lemma parse_int_str_of_int (n : Z) : Demo.parse_int (str_of_int n) = Some n.
Proof.
  unfold Demo.parse_int, str_of_int.
  rewrite NilZero.isi.
  - simpl. f_equal. apply DecimalZ.of_to.
  - destruct n; simpl; try discriminate.
    intros [= H]. by apply DecimalPos.Unsigned.to_uint_nonnil in H.
  - destruct n; simpl; try discriminate.
    intros [= H]. by apply DecimalPos.Unsigned.to_uint_nonnil in H.
Qed.

(** The demo library reads back the dates it writes. *)
Lemma demo_round_trip : @iso_round_trip Demo.lib.
Proof. intros t. simpl. by rewrite parse_int_str_of_int. Qed.

(** ** The request executor *)

Section RequestProperties.
Context {L : PyLib} (E : env).

Lemma raise_for_status_success s : success s → raise_for_status s = Ok tt.
Proof.
  unfold success, raise_for_status. intros H.
  destruct (400 <=? s) eqn:H4; [apply Z.leb_le in H4; lia | done].
Qed.

Lemma raise_for_status_error s :
  400 <= s < 600 → raise_for_status s = Raise (HTTPError s).
Proof.
  unfold raise_for_status. intros H.
  replace (400 <=? s) with true by (symmetry; apply Z.leb_le; lia).
  replace (s <? 600) with true by (symmetry; apply Z.ltb_lt; lia).
  done.
Qed.

Lemma validate_body_well_formed body :
  well_formed body = true → ∃ data, body = Some data ∧ validate_body body = Ok data.
Proof.
  destruct body as [[| | | | | |fields]|]; try discriminate.
  intros H. exists (JObj fields). split; [done|].
  unfold validate_body. simpl in *. by rewrite H.
Qed.

Lemma validate_body_malformed body :
  well_formed body = false → validate_body body = Raise RequestException.
Proof.
  destruct body as [[| | | | | |fields]|]; try done.
  intros H. unfold validate_body. simpl in *. by rewrite H.
Qed.

Lemma response_outcome_client_error s body :
  client_error s → response_outcome (ReplyResponse s body) = Raise (HTTPError s).
Proof.
  unfold client_error. intros H. simpl.
  rewrite raise_for_status_error by lia. done.
Qed.

Lemma response_outcome_server_error s body :
  server_error s → response_outcome (ReplyResponse s body) = Raise (HTTPError s).
Proof.
  unfold server_error. intros H. simpl.
  rewrite raise_for_status_error by lia. done.
Qed.

Lemma response_outcome_malformed s body :
  success s → well_formed body = false →
  response_outcome (ReplyResponse s body) = Raise RequestException.
Proof.
  intros Hs Hb. simpl. rewrite raise_for_status_success by done.
  by apply validate_body_malformed.
Qed.

Lemma response_outcome_well_formed s data :
  success s → well_formed (Some data) = true →
  response_outcome (ReplyResponse s (Some data)) = Ok data.
Proof.
  intros Hs Hb. simpl. rewrite raise_for_status_success by done.
  destruct (validate_body_well_formed _ Hb) as (d & [= <-] & ->). done.
Qed.

Lemma sent_rate_limit w : sent (_rate_limit E w) = sent w.
Proof. unfold _rate_limit. simpl. by destruct (_ <? _). Qed.

Lemma files_rate_limit w : files (_rate_limit E w) = files w.
Proof. unfold _rate_limit. simpl. by destruct (_ <? _). Qed.

(** One iteration of the loop, by the outcome of its request. *)
Lemma retry_loop_step fuel url query retry_count last_exception w :
  retry_count < MAX_RETRIES →
  retry_loop E (S fuel) url query retry_count last_exception w =
    match response_outcome (net E (sent w) url query) with
    | Ok data => (Ok data, requested E url query w)
    | Raise e =>
        if retried e then
          retry_loop E fuel url query (retry_count + 1) (Some e)
            (count_failure retry_count (requested E url query w)).2
        else (Raise e, requested E url query w)
    end.
Proof.
  intros Hlt. simpl.
  replace (retry_count <? MAX_RETRIES) with true by (symmetry; by apply Z.ltb_lt).
  unfold attempt, requested. simpl.
  destruct (response_outcome _) as [data|e]; [done|].
  destruct e; simpl; try done.
  by destruct (_ && _).
Qed.

Lemma retry_loop_done fuel url query retry_count last_exception w :
  MAX_RETRIES <= retry_count →
  retry_loop E fuel url query retry_count last_exception w =
    (raise_last last_exception, w).
Proof.
  intros Hge.
  destruct fuel; simpl;
    by replace (retry_count <? MAX_RETRIES) with false by (symmetry; by apply Z.ltb_ge).
Qed.

(** The loop never runs out of fuel: more fuel than the iterations left
    changes nothing. *)
Lemma retry_loop_fuel fuel fuel' url query retry_count last_exception w :
  (Z.to_nat (MAX_RETRIES - retry_count) ≤ fuel)%nat →
  (Z.to_nat (MAX_RETRIES - retry_count) ≤ fuel')%nat →
  retry_loop E fuel url query retry_count last_exception w =
  retry_loop E fuel' url query retry_count last_exception w.
Proof.
  revert fuel' retry_count last_exception w.
  induction fuel as [|fuel IH]; intros fuel' retry_count last_exception w H1 H2.
  - rewrite !retry_loop_done by lia. done.
  - destruct (Z.lt_ge_cases retry_count MAX_RETRIES) as [Hlt|Hge].
    + destruct fuel' as [|fuel']; [lia|].
      rewrite !retry_loop_step by done.
      destruct (response_outcome _) as [|e]; [done|].
      destruct (retried e); [|done].
      apply IH; lia.
    + rewrite !retry_loop_done by lia. done.
Qed.

End RequestProperties.

Section RequestClaims.
Context {L : PyLib} (E : env).

Lemma trace_requested url query w :
  trace (requested E url query w) = trace w ++ [EvRequest url query].
Proof. done. Qed.

Lemma sent_requested url query w : sent (requested E url query w) = S (sent w).
Proof. done. Qed.

Lemma count_failure_sent retry_count w : sent (count_failure retry_count w).2 = sent w.
Proof. unfold count_failure. simpl. by destruct (_ <? _). Qed.

Lemma count_failure_trace retry_count w :
  trace (count_failure retry_count w).2 =
    trace w ++ (if retry_count + 1 <? MAX_RETRIES
                then [EvBackoffSleep (2 ^ (retry_count + 1))] else []).
Proof.
  unfold count_failure. simpl. destruct (_ <? _); simpl; [done|].
  by rewrite app_nil_r.
Qed.

(** The loop only adds to the trace. *)
Lemma retry_loop_trace fuel url query retry_count last_exception w :
  trace w `prefix_of` trace (retry_loop E fuel url query retry_count last_exception w).2.
Proof.
  revert retry_count last_exception w.
  induction fuel as [|fuel IH]; intros retry_count last_exception w.
  - simpl. by destruct (_ <? _).
  - destruct (Z.lt_ge_cases retry_count MAX_RETRIES) as [Hlt|Hge].
    + rewrite retry_loop_step by done.
      destruct (response_outcome _) as [|e].
      { simpl. by apply prefix_app_r. }
      destruct (retried e); [|simpl; by apply prefix_app_r].
      etrans; [|apply IH].
      rewrite count_failure_trace, trace_requested.
      by do 2 apply prefix_app_r.
    + by rewrite retry_loop_done.
Qed.

(** A 4xx status ends the loop whatever is left of the budget. *)
Lemma retry_loop_client_error fuel url query retry_count last_exception w s body :
  retry_count < MAX_RETRIES → client_error s →
  net E (sent w) url query = ReplyResponse s body →
  retry_loop E (S fuel) url query retry_count last_exception w =
    (Raise (HTTPError s), requested E url query w).
Proof.
  intros Hlt Hs Hnet. rewrite retry_loop_step by done.
  rewrite Hnet, response_outcome_client_error by done. simpl.
  unfold client_error in Hs.
  replace (400 <=? s) with true by (symmetry; apply Z.leb_le; lia).
  replace (s <? 500) with true by (symmetry; apply Z.ltb_lt; lia).
  done.
Qed.

(** C6: a 4xx status on the first attempt makes [_make_request] raise the
    [HTTPError] at once: the only event after rate limiting is the one
    request, no backoff is slept and no second request is sent, although
    two attempts of the budget are left. *)
Theorem client_error_fails_at_once url query w status_code body :
  client_error status_code →
  net E (sent w) url query = ReplyResponse status_code body →
  ∃ w', _make_request E url query w = (Raise (HTTPError status_code), w') ∧
        trace w' = trace (_rate_limit E w) ++ [EvRequest url query] ∧
        sent w' = S (sent w).
Proof.
  intros Hs Hnet. exists (requested E url query (_rate_limit E w)).
  split; [|split].
  - unfold _make_request. change (Z.to_nat MAX_RETRIES) with 3%nat.
    apply (retry_loop_client_error _ _ _ _ _ _ _ body); [done|done|].
    by rewrite sent_rate_limit.
  - apply trace_requested.
  - by rewrite sent_requested, sent_rate_limit.
Qed.

(** C5: two 5xx statuses and then a well-formed success: [_make_request]
    returns the third body; between the three requests it sleeps 2 and then
    4 seconds, and it sends no fourth request. *)
Theorem two_server_errors_then_success url query w s1 b1 s2 b2 s3 data :
  server_error s1 → server_error s2 → success s3 →
  well_formed (Some data) = true →
  net E (sent w) url query = ReplyResponse s1 b1 →
  net E (S (sent w)) url query = ReplyResponse s2 b2 →
  net E (S (S (sent w))) url query = ReplyResponse s3 (Some data) →
  ∃ w', _make_request E url query w = (Ok data, w') ∧
        trace w' = trace (_rate_limit E w) ++
          [EvRequest url query; EvBackoffSleep 2; EvRequest url query;
           EvBackoffSleep 4; EvRequest url query] ∧
        sent w' = (3 + sent w)%nat.
Proof.
  intros H1 H2 H3 Hd N1 N2 N3.
  assert (Hr : ∀ s, server_error s → retried (HTTPError s) = true).
  { unfold server_error. intros s Hs. simpl.
    replace (s <? 500) with false by (symmetry; apply Z.ltb_ge; lia).
    by rewrite andb_false_r. }
  unfold _make_request. change (Z.to_nat MAX_RETRIES) with 3%nat.
  set (w0 := _rate_limit E w).
  assert (S0 : sent w0 = sent w) by apply sent_rate_limit.
  rewrite retry_loop_step by done.
  rewrite S0, N1, response_outcome_server_error, Hr by done.
  rewrite retry_loop_step by done.
  rewrite count_failure_sent, sent_requested, S0, N2.
  rewrite response_outcome_server_error, Hr by done.
  rewrite retry_loop_step by done.
  rewrite count_failure_sent, sent_requested, count_failure_sent, sent_requested, S0, N3.
  rewrite response_outcome_well_formed by done.
  eexists. split; [done|]. split.
  - rewrite trace_requested, count_failure_trace, trace_requested,
      count_failure_trace, trace_requested. simpl.
    by rewrite <- !app_assoc.
  - by rewrite sent_requested, count_failure_sent, sent_requested,
      count_failure_sent, sent_requested, S0.
Qed.

End RequestClaims.

Section MalformedResponses.
Context {L : PyLib} (E : env).

(** C1, as the code has it: a success response whose body is not a JSON
    object with the ['MRData'] field becomes a [RequestException], which the
    loop counts as a failed attempt and retries like a transport error: it
    sleeps the 2 second backoff and sends a second request.  When the second
    and third responses are malformed too, [_make_request] raises the
    [RequestException] after exactly three requests, having slept 2 and 4
    seconds between them. *)
Theorem malformed_response_is_retried url query w s1 b1 :
  success s1 → well_formed b1 = false →
  net E (sent w) url query = ReplyResponse s1 b1 →
  ∃ r w', _make_request E url query w = (r, w') ∧
    (trace (_rate_limit E w) ++
       [EvRequest url query; EvBackoffSleep 2; EvRequest url query])
      `prefix_of` trace w' ∧
    ∀ s2 b2 s3 b3,
      success s2 → well_formed b2 = false →
      success s3 → well_formed b3 = false →
      net E (S (sent w)) url query = ReplyResponse s2 b2 →
      net E (S (S (sent w))) url query = ReplyResponse s3 b3 →
      r = Raise RequestException ∧
      trace w' = trace (_rate_limit E w) ++
        [EvRequest url query; EvBackoffSleep 2; EvRequest url query;
         EvBackoffSleep 4; EvRequest url query] ∧
      sent w' = (3 + sent w)%nat.
Proof.
  intros H1 Hb1 N1.
  unfold _make_request. change (Z.to_nat MAX_RETRIES) with 3%nat.
  set (w0 := _rate_limit E w).
  assert (S0 : sent w0 = sent w) by apply sent_rate_limit.
  rewrite retry_loop_step by done.
  rewrite S0, N1, response_outcome_malformed by done. simpl retried. cbv iota.
  set (w1 := (count_failure 0 (requested E url query w0)).2).
  assert (T1 : trace w1 = trace w0 ++ [EvRequest url query; EvBackoffSleep 2]).
  { unfold w1. rewrite count_failure_trace, trace_requested. simpl.
    by rewrite <- app_assoc. }
  assert (S1 : sent w1 = S (sent w)).
  { unfold w1. by rewrite count_failure_sent, sent_requested, S0. }
  destruct (retry_loop E 2 url query (0 + 1) (Some RequestException) w1)
    as [r w'] eqn:Hloop.
  exists r, w'. split; [done|]. split.
  - rewrite retry_loop_step in Hloop by done.
    assert (Hp : (trace w1 ++ [EvRequest url query]) `prefix_of` trace w').
    { destruct (response_outcome _) as [|e].
      - injection Hloop as <- <-. by rewrite trace_requested.
      - destruct (retried e).
        + replace w' with
            (retry_loop E 1 url query (0 + 1 + 1) (Some e)
               (count_failure (0 + 1) (requested E url query w1)).2).2
            by (by rewrite Hloop).
          etrans; [|apply retry_loop_trace].
          rewrite count_failure_trace, trace_requested. by apply prefix_app_r.
        + injection Hloop as <- <-. by rewrite trace_requested. }
    rewrite T1, <- app_assoc in Hp. exact Hp.
  - intros s2 b2 s3 b3 H2 Hb2 H3 Hb3 N2 N3.
    rewrite retry_loop_step in Hloop by done.
    rewrite S1, N2, response_outcome_malformed in Hloop by done.
    simpl retried in Hloop. cbv iota in Hloop.
    rewrite retry_loop_step in Hloop by done.
    rewrite count_failure_sent, sent_requested, S1, N3 in Hloop.
    rewrite response_outcome_malformed in Hloop by done.
    simpl retried in Hloop. cbv iota in Hloop.
    rewrite retry_loop_done in Hloop by done.
    injection Hloop as <- <-. split; [done|]. split.
    + cbn [trace requested requests_get emit snd]. rewrite T1.
      by rewrite <- !app_assoc.
    + cbn [sent requested requests_get emit snd]. by rewrite S1.
Qed.

End MalformedResponses.

(** ** The response parsers *)

Section ParserProperties.
Context {L : PyLib}.

Lemma py_in_present k fields v :
  assoc k fields = Some v → py_in k (JObj fields) = Ok true.
Proof. intros H. simpl. by rewrite H. Qed.

Lemma py_in_absent k fields :
  assoc k fields = None → py_in k (JObj fields) = Ok false.
Proof. intros H. simpl. by rewrite H. Qed.

Lemma py_getitem_present k fields v :
  assoc k fields = Some v → py_getitem (JObj fields) k = Ok v.
Proof. intros H. simpl. by rewrite H. Qed.

Lemma py_get_present k fields v dflt :
  assoc k fields = Some v → py_get (JObj fields) k dflt = Ok v.
Proof. intros H. simpl. by rewrite H. Qed.

Lemma py_get_absent k fields dflt :
  assoc k fields = None → py_get (JObj fields) k dflt = Ok dflt.
Proof. intros H. simpl. by rewrite H. Qed.

(** C10: a driver payload that has [driverId], [givenName], [familyName]
    and [nationality] but no [code] parses, and the record's code is the
    string "???". *)
Theorem driver_without_code fields id given family nationality :
  assoc "driverId" fields = Some id →
  assoc "givenName" fields = Some given →
  assoc "familyName" fields = Some family →
  assoc "nationality" fields = Some nationality →
  assoc "code" fields = None →
  _parse_driver (JObj fields) =
    Ok {| driver_id := id; code := JStr "???"; forename := given;
          surname := family; driver_nationality := nationality |}.
Proof.
  intros Hid Hgiven Hfamily Hnat Hcode.
  unfold _parse_driver, check_required.
  rewrite (py_in_present _ _ _ Hid), (py_in_present _ _ _ Hgiven),
    (py_in_present _ _ _ Hfamily), (py_in_present _ _ _ Hnat).
  rewrite (py_getitem_present _ _ _ Hid), (py_getitem_present _ _ _ Hgiven),
    (py_getitem_present _ _ _ Hfamily), (py_getitem_present _ _ _ Hnat).
  rewrite (py_get_absent _ _ _ Hcode).
  reflexivity.
Qed.

End ParserProperties.

(** ** Collections with a malformed element *)

Section CollectionProperties.
Context {L : PyLib}.

Lemma check_required_lacks required_fields x :
  lacks_required required_fields x →
  check_required required_fields x = Raise ValueError.
Proof.
  intros (fields & field & -> & Hin & Hnone).
  induction required_fields as [|f rest IH]; [by apply elem_of_nil in Hin|].
  cbn [check_required].
  destruct (assoc f fields) as [v|] eqn:Hf.
  - rewrite (py_in_present _ _ _ Hf). simpl.
    apply IH. apply elem_of_cons in Hin as [->|Hin]; [congruence|done].
  - by rewrite (py_in_absent _ _ Hf).
Qed.

Lemma _parse_race_result_lacks race x :
  lacks_required race_result_fields x → _parse_race_result race x = Raise ValueError.
Proof.
  intros H. unfold _parse_race_result.
  pose proof (check_required_lacks _ x H) as Hc.
  unfold race_result_fields in Hc. by rewrite Hc.
Qed.

Lemma _parse_qualifying_result_lacks race x :
  lacks_required qualifying_result_fields x →
  _parse_qualifying_result race x = Raise ValueError.
Proof.
  intros H. unfold _parse_qualifying_result.
  pose proof (check_required_lacks _ x H) as Hc.
  unfold qualifying_result_fields in Hc. by rewrite Hc.
Qed.

Lemma _parse_driver_standing_lacks x :
  lacks_required driver_standing_fields x → _parse_driver_standing x = Raise ValueError.
Proof.
  intros H. unfold _parse_driver_standing.
  pose proof (check_required_lacks _ x H) as Hc.
  unfold driver_standing_fields in Hc. by rewrite Hc.
Qed.

Lemma _parse_constructor_standing_lacks x :
  lacks_required constructor_standing_fields x →
  _parse_constructor_standing x = Raise ValueError.
Proof.
  intros H. unfold _parse_constructor_standing.
  pose proof (check_required_lacks _ x H) as Hc.
  unfold constructor_standing_fields in Hc. by rewrite Hc.
Qed.

(** The loop appends the record of every element that parses. *)
Lemma for_each_valid {A : Type} (parse : value → res A) items records results :
  Forall2 (λ x record, parse x = Ok record) items records →
  for_each_skipping (append_parsed parse) items results = (Ok tt, results ++ records).
Proof.
  intros H. revert results.
  induction H as [|x record items records Hx _ IH]; intros results.
  - by rewrite app_nil_r.
  - cbn [for_each_skipping]. unfold append_parsed at 1. rewrite Hx.
    rewrite IH. by rewrite <- app_assoc.
Qed.

(** The loop skips an element on which the parser raises [ValueError], and
    goes on with the elements after it. *)
Lemma for_each_one_malformed {A : Type} required_fields (parse : value → res A)
    items records results :
  (∀ x, lacks_required required_fields x → parse x = Raise ValueError) →
  one_malformed required_fields parse items records →
  for_each_skipping (append_parsed parse) items results = (Ok tt, results ++ records).
Proof.
  intros Hlacks (before & bad & after & -> & Hbad & Hvalid).
  apply Forall2_app_inv_l in Hvalid as (rs1 & rs2 & H1 & H2 & ->).
  revert results.
  induction H1 as [|x record items rs Hx _ IH]; intros results.
  - cbn [app for_each_skipping]. unfold append_parsed at 1.
    rewrite (Hlacks _ Hbad). cbn [skippable is_key_error is_value_error orb].
    by apply for_each_valid.
  - cbn [app for_each_skipping]. unfold append_parsed at 1. rewrite Hx.
    rewrite IH. by rewrite <- app_assoc.
Qed.

Lemma nested_collection_envelope data table collection v :
  nested_collection data table collection = Ok v → py_in "MRData" data = Ok true.
Proof.
  destruct data as [| | | | | |fields]; try discriminate.
  unfold nested_collection. simpl.
  by destruct (assoc "MRData" fields).
Qed.

(** Season results: one race, one of whose results is malformed. *)
Lemma season_results_one_malformed data race_data race items records :
  nested_collection data "RaceTable" "Races" = Ok (JArr [race_data]) →
  _parse_race race_data = Ok race →
  py_get race_data "Results" (JArr []) = Ok (JArr items) →
  one_malformed race_result_fields (_parse_race_result race) items records →
  season_results_of data = Ok records.
Proof.
  intros Hdata Hrace Hresults Hitems. unfold season_results_of.
  rewrite (nested_collection_envelope _ _ _ _ Hdata), Hdata.
  cbn [mbind res_bind bind py_iter for_each_skipping].
  unfold season_race_body at 1. rewrite Hrace, Hresults.
  cbn [mbind res_bind bind py_iter].
  rewrite (for_each_one_malformed race_result_fields _ items records [])
    by (done || apply _parse_race_result_lacks).
  done.
Qed.

(** Standings: the first standings list, one of whose entries is malformed. *)
Lemma standings_one_malformed {A : Type} collection required_fields
    (parse : value → res A) data standings_list more items records :
  (∀ x, lacks_required required_fields x → parse x = Raise ValueError) →
  nested_collection data "StandingsTable" "StandingsLists" =
    Ok (JArr (standings_list :: more)) →
  py_get standings_list collection (JArr []) = Ok (JArr items) →
  one_malformed required_fields parse items records →
  standings_of collection parse data = Ok records.
Proof.
  intros Hlacks Hdata Hlist Hitems. unfold standings_of.
  rewrite (nested_collection_envelope _ _ _ _ Hdata), Hdata.
  cbn [py_truth negb py_first mbind res_bind bind]. rewrite Hlist.
  cbn [mbind res_bind bind py_iter].
  rewrite (for_each_one_malformed required_fields _ items records [])
    by done.
  done.
Qed.

(** Qualifying: the first race, one of whose qualifying results is malformed. *)
Lemma qualifying_one_malformed data race_data more race items records :
  nested_collection data "RaceTable" "Races" = Ok (JArr (race_data :: more)) →
  _parse_race race_data = Ok race →
  py_get race_data "QualifyingResults" (JArr []) = Ok (JArr items) →
  one_malformed qualifying_result_fields (_parse_qualifying_result race) items records →
  qualifying_results_of data = Ok records.
Proof.
  intros Hdata Hrace Hresults Hitems. unfold qualifying_results_of.
  rewrite (nested_collection_envelope _ _ _ _ Hdata), Hdata.
  cbn [py_truth negb py_first]. rewrite Hrace, Hresults.
  cbn [mbind res_bind bind py_iter].
  rewrite (for_each_one_malformed qualifying_result_fields _ items records [])
    by (done || apply _parse_qualifying_result_lacks).
  done.
Qed.

End CollectionProperties.

Section CircuitHistory.
Context {L : PyLib} (E : env).

(** Circuit history: one race, of a season the operation keeps, one of
    whose results is malformed. *)
Lemma circuit_history_one_malformed years w data race_data race items records :
  nested_collection data "RaceTable" "Races" = Ok (JArr [race_data]) →
  _parse_race race_data = Ok race →
  py_get race_data "Results" (JArr []) = Ok (JArr items) →
  one_malformed race_result_fields (_parse_race_result race) items records →
  cutoff_year E years w <= season race →
  circuit_history_of E years data w = (Ok records, (read_clock E w).2).
Proof.
  intros Hdata Hrace Hresults Hitems Hyear. unfold circuit_history_of.
  rewrite (nested_collection_envelope _ _ _ _ Hdata), Hdata.
  cbn [read_clock py_iter for_each_skipping snd].
  unfold history_race_body at 1. rewrite Hrace.
  unfold cutoff_year in Hyear.
  replace (_ <=? season race) with true by (symmetry; by apply Z.leb_le).
  rewrite Hresults. cbn [mbind res_bind bind py_iter].
  rewrite (for_each_one_malformed race_result_fields _ items records [])
    by (done || apply _parse_race_result_lacks).
  done.
Qed.

(** Races of an earlier season are left out, whatever their results. *)
Lemma circuit_history_old_race years w data race_data race :
  nested_collection data "RaceTable" "Races" = Ok (JArr [race_data]) →
  _parse_race race_data = Ok race →
  season race < cutoff_year E years w →
  circuit_history_of E years data w = (Ok [], (read_clock E w).2).
Proof.
  intros Hdata Hrace Hyear. unfold circuit_history_of.
  rewrite (nested_collection_envelope _ _ _ _ Hdata), Hdata.
  cbn [read_clock py_iter for_each_skipping snd].
  unfold history_race_body at 1. rewrite Hrace.
  unfold cutoff_year in Hyear.
  replace (_ <=? season race) with false by (symmetry; by apply Z.leb_gt).
  done.
Qed.

End CircuitHistory.

Section MalformedElement.
Context {L : PyLib} (E : env).

(** C8, as the code has it: when one element of a collection is missing a
    required field and the others are valid, each collection-level parse
    returns exactly the records of the valid elements, in order, and does
    not raise: season results, driver standings, constructor standings and
    qualifying results always, circuit history when the race's season is not
    before the cutoff year (the current year minus [years]); results of an
    earlier race are left out by the year filter. *)
Theorem one_malformed_element_is_skipped data items :
  (∀ race_data race records,
     race_collection data race_data race "Results" items →
     one_malformed race_result_fields (_parse_race_result race) items records →
     season_results_of data = Ok records) ∧
  (∀ records,
     standings_collection data "DriverStandings" items →
     one_malformed driver_standing_fields _parse_driver_standing items records →
     standings_of "DriverStandings" _parse_driver_standing data = Ok records) ∧
  (∀ records,
     standings_collection data "ConstructorStandings" items →
     one_malformed constructor_standing_fields _parse_constructor_standing
       items records →
     standings_of "ConstructorStandings" _parse_constructor_standing data
       = Ok records) ∧
  (∀ race_data race records,
     race_collection data race_data race "QualifyingResults" items →
     one_malformed qualifying_result_fields (_parse_qualifying_result race)
       items records →
     qualifying_results_of data = Ok records) ∧
  (∀ race_data race records years w,
     race_collection data race_data race "Results" items →
     one_malformed race_result_fields (_parse_race_result race) items records →
     cutoff_year E years w <= season race →
     circuit_history_of E years data w = (Ok records, (read_clock E w).2)).
Proof.
  repeat split.
  - intros race_data race records (Hdata & Hrace & Hitems) Hone.
    by eapply season_results_one_malformed.
  - intros records (standings_list & more & Hdata & Hitems) Hone.
    eapply standings_one_malformed; eauto using _parse_driver_standing_lacks.
  - intros records (standings_list & more & Hdata & Hitems) Hone.
    eapply standings_one_malformed; eauto using _parse_constructor_standing_lacks.
  - intros race_data race records (Hdata & Hrace & Hitems) Hone.
    by eapply qualifying_one_malformed.
  - intros race_data race records years w (Hdata & Hrace & Hitems) Hone Hyear.
    by eapply circuit_history_one_malformed.
Qed.

End MalformedElement.

(** ** The cache store *)

Section CacheProperties.
Context {L : PyLib} (E : env).

Lemma get_absent dir key ignore_ttl w :
  files w !! _get_cache_path dir key = None →
  get E dir key ignore_ttl w = (Ok PyNone, w).
Proof. intros H. unfold get. by rewrite H. Qed.

(** An unreadable or undecodable file is a miss, and it is unlinked. *)
Lemma get_purges dir key ignore_ttl w content :
  files w !! _get_cache_path dir key = Some content →
  content = Unreadable ∨ content = Undecodable →
  get E dir key ignore_ttl w = (Ok PyNone, unlink (_get_cache_path dir key) w).
Proof. intros H [-> | ->]; unfold get; by rewrite H. Qed.

(** A decodable object without [data] or [expires_at] is a miss, and the
    world, its file included, stays as it was. *)
Lemma get_incomplete dir key ignore_ttl w content :
  files w !! _get_cache_path dir key = Some content →
  incomplete_entry content →
  get E dir key ignore_ttl w = (Ok PyNone, w).
Proof.
  intros H (fields & -> & Hlack). unfold get. rewrite H.
  unfold get_try, load_json, lacks_fields.
  destruct (assoc "data" fields) as [d|] eqn:Hd.
  - destruct Hlack as [|Hx]; [done|].
    by rewrite (py_in_present _ _ _ Hd), (py_in_absent _ _ Hx).
  - by rewrite (py_in_absent _ _ Hd).
Qed.

(** A stale read of an entry returns its payload and changes nothing. *)
Lemma get_entry_stale dir key w content payload expires_at :
  files w !! _get_cache_path dir key = Some content →
  entry_of content payload expires_at →
  get E dir key true w = (Ok payload, w).
Proof.
  intros H (fields & s & -> & Hd & Hx & Hs). unfold get. rewrite H.
  unfold get_try, load_json, lacks_fields.
  rewrite (py_in_present _ _ _ Hd), (py_in_present _ _ _ Hx).
  cbn [mbind res_bind bind negb].
  by rewrite (py_getitem_present _ _ _ Hd).
Qed.

(** A read that honours the TTL reads the clock once; it returns the payload
    unless the reading is after [expires_at], and leaves the files alone. *)
Lemma get_entry_fresh dir key w content payload expires_at :
  files w !! _get_cache_path dir key = Some content →
  entry_of content payload expires_at →
  get E dir key false w =
    (Ok (if expires_at <? clock E (readings w) then PyNone else payload),
     ticked E w).
Proof.
  intros H (fields & s & -> & Hd & Hx & Hs). unfold get. rewrite H.
  unfold get_try, load_json, lacks_fields.
  rewrite (py_in_present _ _ _ Hd), (py_in_present _ _ _ Hx).
  cbn [mbind res_bind bind negb].
  rewrite (py_getitem_present _ _ _ Hx).
  cbn [mbind res_bind bind py_fromisoformat]. rewrite Hs.
  cbn [read_clock now_after].
  destruct (expires_at <? clock E (readings w)); [done|].
  by rewrite (py_getitem_present _ _ _ Hd).
Qed.

(** [set] computes [expires_at] exactly when the expiry is storable. *)
Lemma expires_at_storable ttl w :
  storable E ttl w →
  timedelta ttl ≫= datetime_add (clock E (readings w)) = Ok (expiry E ttl w).
Proof.
  intros [Hdays Hyear]. unfold timedelta.
  destruct (Z.leb_spec (- MAX_DELTA_DAYS) (ttl / 86400)); [|lia].
  destruct (Z.leb_spec (ttl / 86400) MAX_DELTA_DAYS); [|lia].
  cbn [andb mbind res_bind bind]. unfold datetime_add.
  change (clock E (readings w) + timedelta_seconds ttl) with (expiry E ttl w).
  destruct (Z.leb_spec MINYEAR (year_of (expiry E ttl w))); [|lia].
  by destruct (Z.leb_spec (year_of (expiry E ttl w)) MAXYEAR); [|lia].
Qed.

Lemma expires_at_overflow ttl w :
  ¬ storable E ttl w →
  timedelta ttl ≫= datetime_add (clock E (readings w)) = Raise OverflowError.
Proof.
  intros Hnot. unfold timedelta.
  destruct (Z.leb_spec (- MAX_DELTA_DAYS) (ttl / 86400));
    [|done].
  destruct (Z.leb_spec (ttl / 86400) MAX_DELTA_DAYS); [|done].
  cbn [andb mbind res_bind bind]. unfold datetime_add.
  change (clock E (readings w) + timedelta_seconds ttl) with (expiry E ttl w).
  destruct (Z.leb_spec MINYEAR (year_of (expiry E ttl w))); [|done].
  destruct (Z.leb_spec (year_of (expiry E ttl w)) MAXYEAR); [|done].
  destruct Hnot. unfold storable. lia.
Qed.

(** Out of range, [set] raises after one clock reading and writes nothing. *)
Lemma set_overflow dir key data ttl w :
  ¬ storable E ttl w →
  set E dir key data ttl w = (Raise OverflowError, ticked E w).
Proof.
  intros Hnot. unfold set. cbn [read_clock].
  by rewrite (expires_at_overflow ttl w Hnot).
Qed.

Lemma set_returns dir key data ttl w :
  storable E ttl w → (set E dir key data ttl w).1 = Ok tt.
Proof.
  intros Hok. unfold set. cbn [read_clock].
  by rewrite (expires_at_storable ttl w Hok).
Qed.

Lemma files_set dir key data ttl w :
  storable E ttl w →
  files (set E dir key data ttl w).2 =
    <[_get_cache_path dir key :=
        Decoded (JObj [("data", data);
                       ("cached_at", JStr (isoformat (clock E (S (readings w)))));
                       ("expires_at", JStr (isoformat (expiry E ttl w)));
                       ("ttl", JInt ttl)])]> (files w).
Proof.
  intros Hok. unfold set. cbn [read_clock].
  by rewrite (expires_at_storable ttl w Hok).
Qed.

(** Whether it writes or raises, [set] changes no file but the key's. *)
Lemma files_set_other dir key data ttl w path :
  path ≠ _get_cache_path dir key →
  files (set E dir key data ttl w).2 !! path = files w !! path.
Proof.
  intros Hne. unfold set. cbn [read_clock].
  destruct (timedelta ttl ≫= datetime_add _); [|done].
  cbn [snd write_json set_files files]. by rewrite lookup_insert_ne.
Qed.

(** What [set] writes is an entry with the payload and [now + ttl]. *)
Lemma set_entry dir key data ttl w :
  iso_round_trip →
  storable E ttl w →
  ∃ content,
    files (set E dir key data ttl w).2 !! _get_cache_path dir key = Some content ∧
    entry_of content data (expiry E ttl w).
Proof.
  intros Hiso Hok. eexists. split.
  - rewrite files_set by done. apply lookup_insert_eq.
  - eexists _, _. split; [done|]. split; [done|]. split; [done|]. apply Hiso.
Qed.

(** C7, as the code has it: after [set] has written payload [p] for key
    [k], with a [ttl] for which it can compute [expires_at], a read that
    ignores the TTL returns [p] and changes nothing; a
    read that honours it returns [p] when the clock reading is at most
    [expires_at] and absent when it is past [expires_at], and in both cases
    leaves the entry in storage.  The reading is past [expires_at] for a
    negative [ttl] as soon as the clock has not gone backwards since the
    write, and for [ttl = 0] once it has advanced. *)
Theorem expired_entry_is_kept dir k p ttl w w' :
  iso_round_trip →
  storable E ttl w →
  files w' = files (set E dir k p ttl w).2 →
  let now := clock E (readings w') in
  let expires_at := expiry E ttl w in
  get E dir k true w' = (Ok p, w') ∧
  (expires_at < now → get E dir k false w' = (Ok PyNone, ticked E w')) ∧
  (now <= expires_at → get E dir k false w' = (Ok p, ticked E w')) ∧
  files (ticked E w') = files w' ∧
  (ttl < 0 → clock E (readings w) <= now → expires_at < now) ∧
  (ttl <= 0 → clock E (readings w) < now → expires_at < now).
Proof.
  intros Hiso Hok Hfiles now expires_at.
  destruct (set_entry dir k p ttl w Hiso Hok) as (content & Hfile & Hentry).
  rewrite <- Hfiles in Hfile.
  split; [by eapply get_entry_stale|].
  split; [|split; [|split; [done|]]].
  - intros Hlt. rewrite (get_entry_fresh _ _ _ _ _ _ Hfile Hentry).
    by replace (_ <? _) with true by (symmetry; by apply Z.ltb_lt).
  - intros Hle. rewrite (get_entry_fresh _ _ _ _ _ _ Hfile Hentry).
    by replace (_ <? _) with false by (symmetry; by apply Z.ltb_ge).
  - unfold expires_at, expiry, timedelta_seconds. split; lia.
Qed.

End CacheProperties.

(** ** The cached fetch *)

Section FetchProperties.
Context {L : PyLib} (E : env).

Lemma is_none_false (v : value) : v ≠ PyNone → is_none v = false.
Proof. by destruct v. Qed.

Lemma validate_body_raises body e :
  validate_body body = Raise e → e = RequestException.
Proof.
  destruct (well_formed body) eqn:Hb.
  - destruct (validate_body_well_formed _ Hb) as (d & _ & ->). discriminate.
  - rewrite (validate_body_malformed _ Hb). congruence.
Qed.

(** A request fails with an exception of the [requests] package. *)
Lemma response_outcome_raises r e :
  response_outcome r = Raise e → is_request_exception e = true.
Proof.
  destruct r as [| |s body]; simpl; try (intros [= <-]; done).
  unfold raise_for_status. destruct (_ && _); simpl.
  - by intros [= <-].
  - by intros ->%validate_body_raises.
Qed.

Lemma retried_request_exception e : retried e = true → is_request_exception e = true.
Proof. by destruct e. Qed.

Lemma retry_loop_raises fuel url query retry_count last_exception w e w' :
  retry_loop E fuel url query retry_count last_exception w = (Raise e, w') →
  (∀ e0, last_exception = Some e0 → is_request_exception e0 = true) →
  (last_exception = None → retry_count < MAX_RETRIES ∧ (0 < fuel)%nat) →
  is_request_exception e = true.
Proof.
  revert retry_count last_exception w.
  induction fuel as [|fuel IH]; intros retry_count last_exception w Hrun Hlast Hnone.
  - destruct last_exception as [e0|]; [|destruct Hnone; [done|lia]].
    simpl in Hrun. destruct (_ <? _); injection Hrun as <- _; by apply Hlast.
  - destruct (Z.lt_ge_cases retry_count MAX_RETRIES) as [Hlt|Hge].
    + rewrite retry_loop_step in Hrun by done.
      destruct (response_outcome _) as [|e1] eqn:Hout; [done|].
      apply response_outcome_raises in Hout.
      destruct (retried e1) eqn:Hre.
      * eapply IH; [exact Hrun| |done]. by intros e0 [= <-].
      * by injection Hrun as <- _.
    + rewrite retry_loop_done in Hrun by done.
      destruct last_exception as [e0|]; [|destruct Hnone; [done|lia]].
      injection Hrun as <- _. by apply Hlast.
Qed.

(** [_make_request] raises nothing but exceptions of the [requests] package. *)
Lemma _make_request_raises url query w e w' :
  _make_request E url query w = (Raise e, w') → is_request_exception e = true.
Proof.
  unfold _make_request. intros H.
  eapply retry_loop_raises; [exact H|done|]. intros _. split; [done|].
  change (Z.to_nat MAX_RETRIES) with 3%nat. lia.
Qed.

Lemma count_failure_files retry_count w : files (count_failure retry_count w).2 = files w.
Proof. unfold count_failure. simpl. by destruct (_ <? _). Qed.

Lemma retry_loop_files fuel url query retry_count last_exception w :
  files (retry_loop E fuel url query retry_count last_exception w).2 = files w.
Proof.
  revert retry_count last_exception w.
  induction fuel as [|fuel IH]; intros retry_count last_exception w.
  - simpl. by destruct (_ <? _).
  - destruct (Z.lt_ge_cases retry_count MAX_RETRIES) as [Hlt|Hge].
    + rewrite retry_loop_step by done.
      destruct (response_outcome _) as [|e]; [done|].
      destruct (retried e); [|done].
      by rewrite IH, count_failure_files.
    + by rewrite retry_loop_done.
Qed.

(** A request does not touch the cache. *)
Lemma _make_request_files url query w :
  files (_make_request E url query w).2 = files w.
Proof. unfold _make_request. by rewrite retry_loop_files, files_rate_limit. Qed.

(** C3: with the cache enabled and a live request that raises [e]: when an
    entry with payload [p] is persisted for the key, [_get_cached_or_fetch]
    returns [p] and does not raise (as the stale fallback after the failed
    request when the entry has expired); when no file is persisted for the
    key, it raises [e] itself. *)
Theorem stale_entry_is_served self key url ttl query w e w2 :
  use_cache self = true →
  _make_request E url query (get E (cache_dir self) key false w).2 = (Raise e, w2) →
  (∀ content p expires_at,
     files w !! _get_cache_path (cache_dir self) key = Some content →
     entry_of content p expires_at → p ≠ PyNone →
     (_get_cached_or_fetch E self key url ttl query w).1 = Ok p ∧
     (expires_at < clock E (readings w) →
      _get_cached_or_fetch E self key url ttl query w = (Ok p, w2))) ∧
  (files w !! _get_cache_path (cache_dir self) key = None →
   _get_cached_or_fetch E self key url ttl query w = (Raise e, w2)).
Proof.
  intros Hcache Hreq. split.
  - intros content p expires_at Hfile Hentry Hp.
    pose proof (is_none_false p Hp) as Hnone.
    unfold _get_cached_or_fetch. rewrite Hcache.
    rewrite (get_entry_fresh E _ _ _ _ _ _ Hfile Hentry) in Hreq |- *.
    cbn [snd] in Hreq.
    destruct (expires_at <? clock E (readings w)) eqn:Hexp.
    + cbn [is_none PyNone negb]. rewrite Hreq.
      rewrite (_make_request_raises _ _ _ _ _ Hreq).
      assert (Hfile2 : files w2 !! _get_cache_path (cache_dir self) key = Some content).
      { replace w2 with (_make_request E url query (ticked E w)).2
          by (by rewrite Hreq).
        by rewrite _make_request_files. }
      rewrite (get_entry_stale E _ _ _ _ _ _ Hfile2 Hentry), Hnone. done.
    + rewrite Hnone. cbn [negb]. split; [done|].
      apply Z.ltb_ge in Hexp. lia.
  - intros Hfile. unfold _get_cached_or_fetch. rewrite Hcache.
    rewrite (get_absent E _ _ _ _ Hfile) in Hreq |- *.
    cbn [snd] in Hreq.
    cbn [is_none PyNone negb]. rewrite Hreq.
    rewrite (_make_request_raises _ _ _ _ _ Hreq).
    assert (Hfile2 : files w2 !! _get_cache_path (cache_dir self) key = None).
    { replace w2 with (_make_request E url query w).2 by (by rewrite Hreq).
      by rewrite _make_request_files. }
    by rewrite (get_absent E _ _ _ _ Hfile2).
Qed.

End FetchProperties.

(** ** The failure policy of the operations *)

Section PolicyProperties.
Context {L : PyLib} (E : env).

(** [_get_cached_or_fetch] raises nothing but exceptions of the [requests]
    package. *)
Lemma _get_cached_or_fetch_raises self key url ttl query w e w' :
  _get_cached_or_fetch E self key url ttl query w = (Raise e, w') →
  is_request_exception e = true.
Proof.
  unfold _get_cached_or_fetch.
  destruct (if use_cache self then _ else _) as [cached_data w1].
  destruct (negb (is_none cached_data)); [done|].
  destruct (_make_request E url query w1) as [[data|e1] w2] eqn:Hreq; [done|].
  pose proof (_make_request_raises E _ _ _ _ _ Hreq) as He1. rewrite He1.
  destruct (use_cache self); [|by intros [= <- _]].
  destruct (get E _ _ true w2) as [[stale|e2] w3].
  - destruct (negb (is_none stale)); [done|]. by intros [= <- _].
  - by intros [= <- _].
Qed.

Lemma next_race_of_no_races data :
  nested_collection data "RaceTable" "Races" = Ok (JArr []) →
  next_race_of data = Raise ValueError.
Proof.
  intros H. unfold next_race_of.
  by rewrite (nested_collection_envelope _ _ _ _ H), H.
Qed.

(** C9: when its fetch raises, and when the fetched response has an empty
    race collection, [get_next_race] raises ([ValueError]); when their fetch
    raises, [get_current_season_results], [get_driver_standings] and
    [get_constructor_standings] return the empty list and do not raise. *)
Theorem failure_policy self season w :
  (∀ e w1, fetch_next_race E self w = (Raise e, w1) →
           get_next_race E self w = (Raise ValueError, w1)) ∧
  (∀ data w1, fetch_next_race E self w = (Ok data, w1) →
              nested_collection data "RaceTable" "Races" = Ok (JArr []) →
              get_next_race E self w = (Raise ValueError, w1)) ∧
  (∀ e w1, fetch_season_results E self season w = (Raise e, w1) →
           get_current_season_results E self season w = (Ok [], w1)) ∧
  (∀ e w1, fetch_driver_standings E self season w = (Raise e, w1) →
           get_driver_standings E self season w = (Ok [], w1)) ∧
  (∀ e w1, fetch_constructor_standings E self season w = (Raise e, w1) →
           get_constructor_standings E self season w = (Ok [], w1)).
Proof.
  repeat split.
  - intros e w1 H. unfold get_next_race. fold (fetch_next_race E self w).
    rewrite H. cbn [fetched].
    by rewrite (_get_cached_or_fetch_raises _ _ _ _ _ _ _ _ H).
  - intros data w1 H Hraces. unfold get_next_race. fold (fetch_next_race E self w).
    rewrite H. cbn [fetched]. by rewrite (next_race_of_no_races _ Hraces).
  - intros e w1 H. unfold get_current_season_results.
    fold (fetch_season_results E self season w). rewrite H. cbn [fetched].
    by rewrite (_get_cached_or_fetch_raises _ _ _ _ _ _ _ _ H).
  - intros e w1 H. unfold get_driver_standings.
    fold (fetch_driver_standings E self season w). rewrite H. cbn [fetched].
    by rewrite (_get_cached_or_fetch_raises _ _ _ _ _ _ _ _ H).
  - intros e w1 H. unfold get_constructor_standings.
    fold (fetch_constructor_standings E self season w). rewrite H. cbn [fetched].
    by rewrite (_get_cached_or_fetch_raises _ _ _ _ _ _ _ _ H).
Qed.

End PolicyProperties.

(** ** Cache keys and file names *)

Section KeyProperties.

Lemma append_cons (c : ascii) (s t : string) :
  String c s +:+ t = String c (s +:+ t).
Proof. reflexivity. Qed.

Lemma append_nil_l (s : string) : "" +:+ s = s.
Proof. reflexivity. Qed.

Lemma length_append (s t : string) :
  String.length (s +:+ t) = (String.length s + String.length t)%nat.
Proof.
  induction s as [|c s IH]; [done|].
  rewrite append_cons. cbn [String.length]. by rewrite IH.
Qed.

Lemma append_inj_r (s1 s2 t : string) : s1 +:+ t = s2 +:+ t → s1 = s2.
Proof.
  revert s2. induction s1 as [|c1 s1 IH]; intros [|c2 s2] H.
  - done.
  - apply (f_equal String.length) in H.
    rewrite !length_append in H. cbn [String.length] in H. lia.
  - apply (f_equal String.length) in H.
    rewrite !length_append in H. cbn [String.length] in H. lia.
  - rewrite !append_cons in H. injection H as -> H. f_equal. by apply IH.
Qed.

(** Two keys get the same file exactly when they are sanitized alike. *)
Lemma _get_cache_path_eq dir k1 k2 :
  _get_cache_path dir k1 = _get_cache_path dir k2 ↔
  replace ":" "_" (replace "/" "_" k1) = replace ":" "_" (replace "/" "_" k2).
Proof.
  unfold _get_cache_path. split; [|by intros ->].
  intros H. apply (inj (String.app dir)) in H.
  rewrite !append_cons in H. injection H as H.
  rewrite !append_nil_l in H. by apply append_inj_r in H.
Qed.

Lemma sanitized_safe c :
  safe_not_underscore c →
  (if Ascii.eqb (if Ascii.eqb c "/" then "_" else c) ":" then "_"
   else if Ascii.eqb c "/" then "_" else c)%char = c.
Proof.
  intros [[H1 H2] _].
  destruct (Ascii.eqb_spec c "/"); [done|].
  by destruct (Ascii.eqb_spec c ":").
Qed.

Lemma sanitized_cases c :
  let c' := (if Ascii.eqb (if Ascii.eqb c "/" then "_" else c) ":" then "_"
             else if Ascii.eqb c "/" then "_" else c)%char in
  c' = c ∨ c' = "_"%char.
Proof.
  cbv zeta. destruct (Ascii.eqb_spec c "/") as [->|]; [by right|].
  destruct (Ascii.eqb_spec c ":"); [by right|by left].
Qed.

Lemma sanitize_inj k1 k2 :
  differs_only_by safe_not_underscore k1 k2 →
  replace ":" "_" (replace "/" "_" k1) = replace ":" "_" (replace "/" "_" k2) →
  k1 = k2.
Proof.
  revert k2. induction k1 as [|c1 k1 IH]; intros [|c2 k2]; try done.
  cbn [differs_only_by replace]. intros [Hc Hrest] H.
  injection H as Hhead Htail. f_equal; [|by apply IH].
  destruct Hc as [->|Hok]; [done|].
  rewrite (sanitized_safe c2 Hok) in Hhead.
  destruct (sanitized_cases c1) as [Hc1|Hc1]; rewrite Hc1 in Hhead; [done|].
  destruct Hok as [_ Hne]. congruence.
Qed.

(** C4, as the code has it: two distinct keys, of which the second differs
    from the first only by characters that are safe and are not the
    substitute ['_'], in the same positions, get distinct file names. *)
Theorem distinct_keys_distinct_paths dir k1 k2 :
  k1 ≠ k2 →
  differs_only_by safe_not_underscore k1 k2 →
  _get_cache_path dir k1 ≠ _get_cache_path dir k2.
Proof.
  intros Hne Hdiff Heq. apply Hne, sanitize_inj; [done|].
  by apply _get_cache_path_eq in Heq.
Qed.

End KeyProperties.

(** * Further properties of the cache store *)

(** ** File names *)

Section PathExtras.

Lemma replace_no_char old new k : old ≠ new → has_char old (replace old new k) = false.
Proof.
  intros Hne. induction k as [|c k IH]; [done|]. cbn [replace has_char].
  rewrite IH, orb_false_r.
  destruct (Ascii.eqb_spec c old) as [->|Hc].
  - by apply Ascii.eqb_neq.
  - by apply Ascii.eqb_neq.
Qed.

Lemma replace_keeps_absent c old new k :
  c ≠ new → has_char c k = false → has_char c (replace old new k) = false.
Proof.
  intros Hne. induction k as [|a k IH]; [done|]. cbn [replace has_char].
  intros [Ha Hk]%orb_false_iff. rewrite (IH Hk), orb_false_r.
  destruct (Ascii.eqb a old); [|done].
  apply Ascii.eqb_neq. congruence.
Qed.

Lemma replace_length old new k : String.length (replace old new k) = String.length k.
Proof. induction k as [|c k IH]; [done|]. cbn. by rewrite IH. Qed.

Lemma replace_absent old new k : has_char old k = false → replace old new k = k.
Proof.
  induction k as [|c k IH]; [done|]. cbn [replace has_char].
  intros [Hc Hk]%orb_false_iff. by rewrite Hc, (IH Hk).
Qed.

Lemma strip_prefix_app p s : strip_prefix p (p +:+ s) = Some s.
Proof.
  induction p as [|a p IH]; [done|].
  rewrite append_cons. cbn [strip_prefix]. by rewrite Ascii.eqb_refl.
Qed.

Lemma has_char_append c s t : has_char c (s +:+ t) = has_char c s || has_char c t.
Proof.
  induction s as [|a s IH]; [done|].
  rewrite append_cons. cbn [has_char]. by rewrite IH, orb_assoc.
Qed.

Lemma ends_with_append suffix s : ends_with suffix (s +:+ suffix) = true.
Proof.
  induction s as [|a s IH].
  - rewrite append_nil_l. destruct suffix; cbn [ends_with]; by rewrite String.eqb_refl.
  - rewrite append_cons. cbn [ends_with]. by rewrite IH, orb_true_r.
Qed.

(** The file of a key is one the glob of [clear] matches. *)
Lemma globbed_cache_path dir k : globbed dir (_get_cache_path dir k) = true.
Proof.
  unfold globbed, _get_cache_path.
  assert (Hassoc : ∀ s, dir +:+ "/" +:+ s = (dir +:+ "/") +:+ s).
  { intros s. induction dir as [|a dir IH]; [done|]. rewrite !append_cons. by f_equal. }
  rewrite Hassoc, strip_prefix_app, has_char_append, ends_with_append.
  rewrite replace_keeps_absent; [done|done|]. by apply replace_no_char.
Qed.

(** X8: The file name of a key has the key's length plus the extension, holds
    neither ['/'] nor [':'], and lies directly in the cache directory. *)
Theorem cache_path_is_one_component dir k :
  ∃ name,
    _get_cache_path dir k = dir +:+ "/" +:+ name +:+ ".json" ∧
    String.length name = String.length k ∧
    has_char "/" name = false ∧ has_char ":" name = false.
Proof.
  exists (replace ":" "_" (replace "/" "_" k)). split; [done|]. split; [|split].
  - by rewrite !replace_length.
  - rewrite replace_keeps_absent; [done|done|]. by apply replace_no_char.
  - by apply replace_no_char.
Qed.

(** X9: Keys without ['/'] and [':'] are stored under their own name, so two
    of them share a file only when they are equal. *)
Theorem separator_free_keys_do_not_collide dir k1 k2 :
  separator_free k1 → separator_free k2 →
  _get_cache_path dir k1 = dir +:+ "/" +:+ k1 +:+ ".json" ∧
  (_get_cache_path dir k1 = _get_cache_path dir k2 → k1 = k2).
Proof.
  intros [H1 H1'] [H2 H2'].
  assert (Hid : ∀ k, has_char "/" k = false → has_char ":" k = false →
                     replace ":" "_" (replace "/" "_" k) = k).
  { intros k Hs Hc. rewrite (replace_absent "/" "_" k Hs). by apply replace_absent. }
  split.
  - unfold _get_cache_path. by rewrite (Hid k1 H1 H1').
  - intros Heq. apply _get_cache_path_eq in Heq.
    rewrite (Hid k1 H1 H1'), (Hid k2 H2 H2') in Heq. exact Heq.
Qed.

End PathExtras.

Section CacheExtras.
Context {L : PyLib} (E : env).

(** X1: [set] touches one file: a key with another file name reads as before. *)
Theorem set_leaves_other_keys dir k k' p ttl w :
  _get_cache_path dir k' ≠ _get_cache_path dir k →
  files (set E dir k p ttl w).2 !! _get_cache_path dir k'
    = files w !! _get_cache_path dir k' ∧
  (get E dir k' true (set E dir k p ttl w).2).1 = (get E dir k' true w).1.
Proof.
  intros Hne.
  assert (Hfiles : files (set E dir k p ttl w).2 !! _get_cache_path dir k'
                   = files w !! _get_cache_path dir k')
    by by apply files_set_other.
  split; [done|].
  unfold get. rewrite Hfiles.
  destruct (files w !! _get_cache_path dir k') as [content|]; [|done].
  unfold get_try.
  destruct (load_json content) as [cache_entry|e]; [|by destruct (corrupted e)].
  destruct (lacks_fields cache_entry) as [[]|e]; [done| |by destruct (corrupted e)].
  destruct (py_getitem cache_entry "data") as [v|e]; [done|].
  by destruct (corrupted e).
Qed.

(** X2: A second [set] for a key, with a [ttl] for which it can compute
    [expires_at], replaces the entry of the first wholesale: the files are
    those before the first write plus the second entry, and a stale read
    returns the second payload.  With a [ttl] out of range the second [set]
    raises [OverflowError] after one reading of the clock, and the first
    entry stays. *)
Theorem last_write_wins dir k p1 ttl1 p2 ttl2 w :
  iso_round_trip →
  storable E ttl1 w →
  let w1 := (set E dir k p1 ttl1 w).2 in
  let w2 := (set E dir k p2 ttl2 w1).2 in
  (storable E ttl2 w1 →
   ∃ content,
     (set E dir k p2 ttl2 w1).1 = Ok tt ∧
     files w2 = <[_get_cache_path dir k := content]> (files w) ∧
     entry_of content p2 (expiry E ttl2 w1) ∧
     get E dir k true w2 = (Ok p2, w2)) ∧
  (¬ storable E ttl2 w1 →
   set E dir k p2 ttl2 w1 = (Raise OverflowError, ticked E w1) ∧
   files w2 = files w1 ∧
   get E dir k true w2 = (Ok p1, w2)).
Proof.
  intros Hiso Hok1. cbv zeta. split.
  - intros Hok2.
    destruct (set_entry E dir k p2 ttl2 (set E dir k p1 ttl1 w).2 Hiso Hok2)
      as (content & Hfile & Hentry).
    exists content. split; [by apply set_returns|].
    split; [|split; [done|by eapply get_entry_stale]].
    rewrite files_set in Hfile |- * by done. rewrite lookup_insert_eq in Hfile.
    injection Hfile as <-. rewrite files_set by done. by rewrite insert_insert_eq.
  - intros Hnot. rewrite (set_overflow E dir k p2 ttl2 _ Hnot). cbn [snd].
    split; [done|]. split; [done|].
    destruct (set_entry E dir k p1 ttl1 w Hiso Hok1) as (content & Hfile & Hentry).
    by eapply get_entry_stale.
Qed.

(** X3: An unreadable or undecodable file is removed by the read that finds
    it: afterwards the key has no file, [get] and [is_valid] answer
    absent and false without touching anything, and no other file changed. *)
Theorem corrupt_entry_is_purged dir k ignore_ttl w content :
  files w !! _get_cache_path dir k = Some content →
  content = Unreadable ∨ content = Undecodable →
  let w' := (get E dir k ignore_ttl w).2 in
  (get E dir k ignore_ttl w).1 = Ok PyNone ∧
  files w' = delete (_get_cache_path dir k) (files w) ∧
  (∀ ignore, get E dir k ignore w' = (Ok PyNone, w')) ∧
  is_valid E dir k w' = (Ok false, w').
Proof.
  intros Hfile Hcontent. cbv zeta.
  rewrite (get_purges E _ _ _ _ _ Hfile Hcontent). cbn [fst snd].
  assert (Hgone : files (unlink (_get_cache_path dir k) w) !! _get_cache_path dir k
                  = None) by apply lookup_delete_eq.
  split; [done|]. split; [done|]. split.
  - intros ignore. by apply get_absent.
  - unfold is_valid. by rewrite Hgone.
Qed.

(** X4: A file that decodes to a JSON scalar makes [get] and [is_valid] raise
    [TypeError]: the [except] clauses do not catch it, and the file stays. *)
Theorem scalar_entry_raises dir k ignore_ttl w v :
  files w !! _get_cache_path dir k = Some (Decoded v) →
  scalar v →
  get E dir k ignore_ttl w = (Raise TypeError, w) ∧
  is_valid E dir k w = (Raise TypeError, w).
Proof.
  intros Hfile Hv. unfold get, is_valid. rewrite Hfile.
  destruct v; try done.
Qed.

(** X5: [is_valid] never changes a file. *)
Theorem is_valid_keeps_files dir k w :
  files (is_valid E dir k w).2 = files w.
Proof.
  unfold is_valid.
  destruct (files w !! _get_cache_path dir k) as [content|]; [|done].
  destruct (load_json content) as [cache_entry|e]; [|by destruct (corrupted e)].
  destruct (py_in "expires_at" cache_entry) as [[]|e]; [|done|by destruct (corrupted e)].
  destruct (py_getitem cache_entry "expires_at" ≫= py_fromisoformat) as [d|e];
    [|by destruct (corrupted e)].
  cbn [read_clock]. destruct (now_not_after _ d) as [b|e]; [done|].
  by destruct (corrupted e).
Qed.

(** X6: For an entry as [set] writes it, [is_valid] is the test
    [now <= expires_at], and it agrees with [get]: the entry is valid
    exactly when a plain read at the same clock reading returns its payload. *)
Theorem is_valid_agrees_with_get dir k w content p expires_at :
  files w !! _get_cache_path dir k = Some content →
  entry_of content p expires_at →
  p ≠ PyNone →
  is_valid E dir k w = (Ok (clock E (readings w) <=? expires_at), ticked E w) ∧
  ((is_valid E dir k w).1 = Ok true ↔ (get E dir k false w).1 = Ok p).
Proof.
  intros Hfile Hentry Hp.
  assert (Hvalid : is_valid E dir k w
                   = (Ok (clock E (readings w) <=? expires_at), ticked E w)).
  { destruct Hentry as (fields & s & -> & Hd & Hx & Hs).
    unfold is_valid. rewrite Hfile. cbn [load_json].
    rewrite (py_in_present _ _ _ Hx), (py_getitem_present _ _ _ Hx).
    cbn [mbind res_bind bind py_fromisoformat]. by rewrite Hs. }
  split; [done|].
  rewrite Hvalid, (get_entry_fresh E _ _ _ _ _ _ Hfile Hentry). cbn [fst].
  destruct (Z.leb_spec (clock E (readings w)) expires_at) as [Hle|Hgt].
  - replace (expires_at <? _) with false by (symmetry; apply Z.ltb_ge; lia). done.
  - replace (expires_at <? _) with true by (symmetry; apply Z.ltb_lt; lia).
    split; [done|]. intros [= H]. by destruct Hp.
Qed.

(** X7: After [clear] no key has a file, so every read is a miss; files that
    the glob does not match are as they were. *)
Theorem clear_removes_every_entry dir w :
  (∀ k ignore_ttl,
     files (clear dir w) !! _get_cache_path dir k = None ∧
     get E dir k ignore_ttl (clear dir w) = (Ok PyNone, clear dir w)) ∧
  (∀ path, globbed dir path = false →
           files (clear dir w) !! path = files w !! path).
Proof.
  split.
  - intros k ignore_ttl.
    assert (Hgone : files (clear dir w) !! _get_cache_path dir k = None).
    { unfold clear. cbn [files set_files]. apply map_lookup_filter_None. right.
      intros content _. cbn [fst]. by rewrite globbed_cache_path. }
    split; [done|]. by apply get_absent.
  - intros path Hpath. unfold clear. cbn [files set_files].
    destruct (files w !! path) as [content|] eqn:Hfile.
    + by apply map_lookup_filter_Some.
    + apply map_lookup_filter_None. by left.
Qed.

End CacheExtras.

(** * Further properties of the fetcher *)

Section FetchExtras.
Context {L : PyLib} (E : env).

Lemma transient_outcome r e :
  transient r e → response_outcome r = Raise e ∧ retried e = true.
Proof.
  intros [| |s body Hs|s body Hs Hb].
  - done.
  - done.
  - split; [by apply response_outcome_server_error|].
    unfold server_error in Hs. simpl.
    replace (s <? 500) with false by (symmetry; apply Z.ltb_ge; lia).
    by rewrite andb_false_r.
  - split; [by apply response_outcome_malformed|done].
Qed.

Lemma response_outcome_ok r data :
  response_outcome r = Ok data → well_formed (Some data) = true.
Proof.
  destruct r as [| |s body]; try done. simpl.
  destruct (raise_for_status s); [|done]. simpl.
  destruct (well_formed body) eqn:Hb.
  - destruct (validate_body_well_formed _ Hb) as (d & -> & ->). by intros [= <-].
  - by rewrite (validate_body_malformed _ Hb).
Qed.

Lemma count_failure_last retry_count w :
  last_request_time (count_failure retry_count w).2 = last_request_time w.
Proof. unfold count_failure. simpl. by destruct (_ <? _). Qed.

Lemma retry_loop_bounds fuel url query retry_count last_exception w :
  0 <= retry_count →
  let w' := (retry_loop E fuel url query retry_count last_exception w).2 in
  (sent w ≤ sent w' ≤ sent w + Z.to_nat (MAX_RETRIES - retry_count))%nat ∧
  last_request_time w' = last_request_time w.
Proof.
  revert retry_count last_exception w.
  induction fuel as [|fuel IH]; intros retry_count last_exception w Hrc; cbv zeta.
  - simpl. destruct (_ <? _); simpl; split; (lia || done).
  - destruct (Z.lt_ge_cases retry_count MAX_RETRIES) as [Hlt|Hge].
    + rewrite retry_loop_step by done.
      destruct (response_outcome _) as [|e].
      { simpl. split; [|done]. unfold MAX_RETRIES in *. lia. }
      destruct (retried e).
      * destruct (IH (retry_count + 1) (Some e)
                    (count_failure retry_count (requested E url query w)).2)
          as [Hs Hl]; [lia|].
        rewrite count_failure_sent, sent_requested in Hs.
        rewrite count_failure_last in Hl.
        split; [|by rewrite Hl]. unfold MAX_RETRIES in *. lia.
      * simpl. split; [|done]. unfold MAX_RETRIES in *. lia.
    + rewrite retry_loop_done by done. simpl. split; (lia || done).
Qed.

(** X10: A logical request sends at least one and at most three HTTP requests,
    leaves the cache files alone, and is rate limited once: the retries do
    not stamp [_last_request_time] again. *)
Theorem request_budget url query w :
  let w' := (_make_request E url query w).2 in
  (1 + sent w ≤ sent w' ≤ 3 + sent w)%nat ∧
  files w' = files w ∧
  last_request_time w' = last_request_time (_rate_limit E w).
Proof.
  cbv zeta. split; [|split].
  - unfold _make_request. change (Z.to_nat MAX_RETRIES) with 3%nat.
    rewrite retry_loop_step by done.
    pose proof (sent_rate_limit E w) as S0.
    destruct (response_outcome _) as [|e].
    { cbn [snd]. rewrite sent_requested, S0. lia. }
    destruct (retried e); [|cbn [snd]; rewrite sent_requested, S0; lia].
    destruct (retry_loop_bounds 2 url query (0 + 1) (Some e)
                (count_failure 0 (requested E url query (_rate_limit E w))).2)
      as [Hs _]; [lia|].
    rewrite count_failure_sent, sent_requested, S0 in Hs.
    change (Z.to_nat (MAX_RETRIES - (0 + 1))) with 2%nat in Hs. lia.
  - apply _make_request_files.
  - unfold _make_request.
    by destruct (retry_loop_bounds 3 url query 0 None (_rate_limit E w)) as [_ Hl].
Qed.

Lemma retry_loop_ok fuel url query retry_count last_exception w data w' :
  retry_loop E fuel url query retry_count last_exception w = (Ok data, w') →
  well_formed (Some data) = true.
Proof.
  revert retry_count last_exception w.
  induction fuel as [|fuel IH]; intros retry_count last_exception w.
  - simpl. destruct (_ <? _); by destruct last_exception.
  - destruct (Z.lt_ge_cases retry_count MAX_RETRIES) as [Hlt|Hge].
    + rewrite retry_loop_step by done.
      destruct (response_outcome _) as [d|e] eqn:Hout.
      * intros [= <- _]. by eapply response_outcome_ok.
      * destruct (retried e); [apply IH|done].
    + rewrite retry_loop_done by done. by destruct last_exception.
Qed.

(** X11: What [_make_request] returns is a JSON object with the ['MRData'] field. *)
Theorem returned_body_is_well_formed url query w data w' :
  _make_request E url query w = (Ok data, w') →
  ∃ fields envelope, data = JObj fields ∧ assoc "MRData" fields = Some envelope.
Proof.
  intros H. apply retry_loop_ok in H.
  destruct data as [| | | | | |fields]; try done.
  simpl in H. apply bool_decide_eq_true in H as [envelope H]. eauto.
Qed.

(** X12: Three transient failures in a row use up the budget: [_make_request]
    raises the exception of the third, after three requests and backoffs of
    2 and 4 seconds; it does not sleep after the last failure. *)
Theorem retries_exhausted url query w e1 e2 e3 :
  transient (net E (sent w) url query) e1 →
  transient (net E (S (sent w)) url query) e2 →
  transient (net E (S (S (sent w))) url query) e3 →
  ∃ w', _make_request E url query w = (Raise e3, w') ∧
        trace w' = trace (_rate_limit E w) ++ retry_events url query 1 2 ∧
        sent w' = (3 + sent w)%nat.
Proof.
  intros [O1 R1]%transient_outcome [O2 R2]%transient_outcome
    [O3 R3]%transient_outcome.
  unfold _make_request. change (Z.to_nat MAX_RETRIES) with 3%nat.
  set (w0 := _rate_limit E w).
  assert (S0 : sent w0 = sent w) by apply sent_rate_limit.
  rewrite retry_loop_step by done. rewrite S0, O1, R1.
  rewrite retry_loop_step by done.
  rewrite count_failure_sent, sent_requested, S0, O2, R2.
  rewrite retry_loop_step by done.
  rewrite count_failure_sent, sent_requested, count_failure_sent, sent_requested,
    S0, O3, R3.
  rewrite retry_loop_done by done.
  eexists. split; [done|]. split.
  - rewrite count_failure_trace, trace_requested, count_failure_trace,
      trace_requested, count_failure_trace, trace_requested. simpl.
    by rewrite <- !app_assoc.
  - by rewrite count_failure_sent, sent_requested, count_failure_sent,
      sent_requested, count_failure_sent, sent_requested, S0.
Qed.

(** X13: After [k] transient failures, [k] at most two, a well-formed success
    response is returned: [k + 1] requests, the backoffs 2 and 4 as far as
    needed between them. *)
Theorem success_after_failures url query w k s data :
  (k < 3)%nat →
  (∀ i, (i < k)%nat → ∃ e, transient (net E (i + sent w) url query) e) →
  net E (k + sent w) url query = ReplyResponse s (Some data) →
  success s → well_formed (Some data) = true →
  ∃ w', _make_request E url query w = (Ok data, w') ∧
        trace w' = trace (_rate_limit E w) ++ retry_events url query 1 k ∧
        sent w' = (k + 1 + sent w)%nat.
Proof.
  intros Hk Hfail Hnet Hs Hd.
  pose proof (response_outcome_well_formed s data Hs Hd) as Hok.
  unfold _make_request. change (Z.to_nat MAX_RETRIES) with 3%nat.
  set (w0 := _rate_limit E w).
  assert (S0 : sent w0 = sent w) by apply sent_rate_limit.
  destruct k as [|[|[|k]]]; [| | |lia].
  - rewrite retry_loop_step by done. cbn [Nat.add] in Hnet.
    rewrite S0, Hnet, Hok.
    eexists. split; [done|]. split; [apply trace_requested|].
    rewrite sent_requested, S0. lia.
  - destruct (Hfail 0%nat) as [e1 [O1 R1]%transient_outcome]; [lia|].
    cbn [Nat.add] in O1, Hnet.
    rewrite retry_loop_step by done. rewrite S0, O1, R1.
    rewrite retry_loop_step by done.
    rewrite count_failure_sent, sent_requested, S0, Hnet, Hok.
    eexists. split; [done|]. split.
    + rewrite trace_requested, count_failure_trace, trace_requested. simpl.
      by rewrite <- !app_assoc.
    + rewrite sent_requested, count_failure_sent, sent_requested, S0. lia.
  - destruct (Hfail 0%nat) as [e1 [O1 R1]%transient_outcome]; [lia|].
    destruct (Hfail 1%nat) as [e2 [O2 R2]%transient_outcome]; [lia|].
    cbn [Nat.add] in O1, O2, Hnet.
    rewrite retry_loop_step by done. rewrite S0, O1, R1.
    rewrite retry_loop_step by done.
    rewrite count_failure_sent, sent_requested, S0, O2, R2.
    rewrite retry_loop_step by done.
    rewrite count_failure_sent, sent_requested, count_failure_sent,
      sent_requested, S0, Hnet, Hok.
    eexists. split; [done|]. split.
    + rewrite trace_requested, count_failure_trace, trace_requested,
        count_failure_trace, trace_requested. simpl.
      by rewrite <- !app_assoc.
    + rewrite sent_requested, count_failure_sent, sent_requested,
        count_failure_sent, sent_requested, S0. lia.
Qed.

End FetchExtras.

(** * Further properties of the cached fetch *)

Section OrchestratorExtras.
Context {L : PyLib} (E : env).

(** X14: A fresh entry is a cache hit: its payload is returned after one clock
    reading, with no request, no sleep and no change to the files. *)
Theorem fresh_entry_is_a_cache_hit self key url ttl query w content p expires_at :
  use_cache self = true →
  files w !! _get_cache_path (cache_dir self) key = Some content →
  entry_of content p expires_at → p ≠ PyNone →
  clock E (readings w) <= expires_at →
  _get_cached_or_fetch E self key url ttl query w = (Ok p, ticked E w) ∧
  sent (ticked E w) = sent w ∧ trace (ticked E w) = trace w ∧
  files (ticked E w) = files w.
Proof.
  intros Hcache Hfile Hentry Hp Hfresh. split; [|done].
  unfold _get_cached_or_fetch. rewrite Hcache.
  rewrite (get_entry_fresh E _ _ _ _ _ _ Hfile Hentry).
  replace (expires_at <? _) with false by (symmetry; apply Z.ltb_ge; lia).
  by rewrite (is_none_false p Hp).
Qed.

(** X15: Write-through: after a miss and a successful request the body is
    returned, and it is stored under the key with the given TTL, where a
    later read finds it, when [set] can compute [expires_at] for that TTL;
    when it cannot, the [OverflowError] of [set] is swallowed and no file
    changes. *)
Theorem fetched_body_is_written_through self key url ttl query w data w2 :
  iso_round_trip →
  use_cache self = true →
  is_miss (get E (cache_dir self) key false w).1 →
  _make_request E url query (get E (cache_dir self) key false w).2 = (Ok data, w2) →
  let w3 := (set E (cache_dir self) key data ttl w2).2 in
  _get_cached_or_fetch E self key url ttl query w = (Ok data, w3) ∧
  (storable E ttl w2 →
   get E (cache_dir self) key true w3 = (Ok data, w3) ∧
   (clock E (readings w3) <= expiry E ttl w2 →
    get E (cache_dir self) key false w3 = (Ok data, ticked E w3))) ∧
  (¬ storable E ttl w2 → files w3 = files w2).
Proof.
  intros Hiso Hcache Hmiss Hreq. cbv zeta.
  split; [|split].
  - unfold _get_cached_or_fetch. rewrite Hcache.
    destruct (get E (cache_dir self) key false w) as [[v|e] w1]; cbn [fst snd] in *.
    + rewrite Hmiss. cbn [is_none PyNone negb]. by rewrite Hreq.
    + cbn [is_none PyNone negb]. by rewrite Hreq.
  - intros Hok.
    destruct (set_entry E (cache_dir self) key data ttl w2 Hiso Hok)
      as (content & Hfile & Hentry).
    split; [by eapply get_entry_stale|].
    intros Hfresh. rewrite (get_entry_fresh E _ _ _ _ _ _ Hfile Hentry).
    by replace (_ <? _) with false by (symmetry; apply Z.ltb_ge; lia).
  - intros Hnot. by rewrite (set_overflow E _ _ _ _ _ Hnot).
Qed.

(** X16: With caching disabled the operation is the request alone: no file is
    read or written, and a failure is not covered by a stale entry. *)
Theorem without_cache_only_the_request self key url ttl query w :
  use_cache self = false →
  _get_cached_or_fetch E self key url ttl query w = _make_request E url query w.
Proof.
  intros Hcache. unfold _get_cached_or_fetch. rewrite Hcache.
  cbn [is_none PyNone negb].
  destruct (_make_request E url query w) as [[data|e] w2]; [done|].
  by destruct (is_request_exception e).
Qed.

(** X17: Whatever the cache holds, an exception that leaves
    [_get_cached_or_fetch] is the one the live request raised, an exception
    of the [requests] package: errors of the cache itself never surface. *)
Theorem only_the_request_failure_surfaces self key url ttl query w e w' :
  _get_cached_or_fetch E self key url ttl query w = (Raise e, w') →
  is_request_exception e = true ∧
  ∃ w1 w2, _make_request E url query w1 = (Raise e, w2).
Proof.
  unfold _get_cached_or_fetch.
  destruct (if use_cache self then _ else _) as [cached_data w1].
  destruct (negb (is_none cached_data)); [done|].
  destruct (_make_request E url query w1) as [[data|e1] w2] eqn:Hreq; [done|].
  pose proof (_make_request_raises E _ _ _ _ _ Hreq) as He1. rewrite He1.
  destruct (use_cache self).
  - destruct (get E _ _ true w2) as [[stale|e2] w3].
    + destruct (negb (is_none stale)); [done|]. intros [= <- _]. eauto.
    + intros [= <- _]. eauto.
  - intros [= <- _]. eauto.
Qed.

End OrchestratorExtras.

(** * Further properties of the response parsers and operations *)

Section CollectionExtras.
Context {L : PyLib}.

Lemma for_each_tolerable {A : Type} (parse : value → res A) items results :
  tolerable parse items →
  for_each_skipping (append_parsed parse) items results
    = (Ok tt, results ++ valid_records parse items).
Proof.
  revert results. induction items as [|x items IH]; intros results Htol.
  - by rewrite app_nil_r.
  - assert (Hrest : tolerable parse items).
    { intros y e Hy. apply Htol. by right. }
    cbn [for_each_skipping]. unfold append_parsed at 1.
    unfold valid_records. cbn [omap list_omap].
    destruct (parse x) as [record|e] eqn:Hx.
    + rewrite (IH _ Hrest). by rewrite <- app_assoc.
    + rewrite (Htol x e (list_elem_of_here _ _) Hx). by apply IH.
Qed.

(** X18: Standings, of drivers and of constructors alike: as long as each entry
    of the first standings list parses or fails with [KeyError],
    [ValueError] or [TypeError], the operation returns the records of the
    entries that parse, in order, however many entries fail. *)
Theorem standings_keep_the_valid_entries {A : Type} collection
    (parse : value → res A) data items :
  standings_collection data collection items →
  tolerable parse items →
  standings_of collection parse data = Ok (valid_records parse items).
Proof.
  intros (standings_list & more & Hdata & Hlist) Htol. unfold standings_of.
  rewrite (nested_collection_envelope _ _ _ _ Hdata), Hdata.
  cbn [py_truth negb py_first mbind res_bind bind]. rewrite Hlist.
  cbn [mbind res_bind bind py_iter].
  by rewrite (for_each_tolerable parse items [] Htol).
Qed.

(** X19: Qualifying results are read from the first race of the table only. *)
Theorem qualifying_reads_the_first_race data race_data more race items :
  nested_collection data "RaceTable" "Races" = Ok (JArr (race_data :: more)) →
  _parse_race race_data = Ok race →
  py_get race_data "QualifyingResults" (JArr []) = Ok (JArr items) →
  tolerable (_parse_qualifying_result race) items →
  qualifying_results_of data
    = Ok (valid_records (_parse_qualifying_result race) items).
Proof.
  intros Hdata Hrace Hresults Htol. unfold qualifying_results_of.
  rewrite (nested_collection_envelope _ _ _ _ Hdata), Hdata.
  cbn [py_truth negb py_first]. rewrite Hrace, Hresults.
  cbn [mbind res_bind bind py_iter].
  by rewrite (for_each_tolerable _ items [] Htol).
Qed.

(** Only a JSON object parses as a race. *)
Lemma _parse_race_object race_data race :
  _parse_race race_data = Ok race → ∃ fields, race_data = JObj fields.
Proof.
  unfold _parse_race.
  destruct race_data as [| | | | |items|fields]; try done; [| |by eauto].
  - by destruct (check_required _ _) as [[]|].
  - by destruct (check_required _ _) as [[]|].
Qed.

Lemma py_iter_raises (v : value) e : py_iter v = Raise e → e = TypeError.
Proof. destruct v; simpl; congruence. Qed.

Lemma race_body_tolerable (keep : Race → bool) (f : body RaceResult) race_data results :
  (∀ x rs, f x rs =
     match _parse_race x with
     | Raise e => (Raise e, rs)
     | Ok race =>
         if keep race then
           match py_get x "Results" (JArr []) ≫= py_iter with
           | Raise e => (Raise e, rs)
           | Ok items =>
               for_each_skipping (append_parsed (_parse_race_result race)) items rs
           end
         else (Ok tt, rs)
     end) →
  tolerable_race race_data →
  ∃ r, f race_data results = (r, results ++ records_of_race keep race_data) ∧
       match r with Ok _ => True | Raise e => skippable e = true end.
Proof.
  intros Hf Htol. rewrite Hf. unfold tolerable_race, records_of_race in *.
  destruct (_parse_race race_data) as [race|e] eqn:Hrace.
  - destruct (keep race).
    + destruct (py_get race_data "Results" (JArr []) ≫= py_iter) as [items|e] eqn:Hitems.
      * rewrite (for_each_tolerable _ items results (Htol items eq_refl)). by exists (Ok tt).
      * exists (Raise e). rewrite app_nil_r. split; [done|].
        destruct (_parse_race_object _ _ Hrace) as [fields ->].
        cbn [py_get mbind res_bind bind] in Hitems.
        by rewrite (py_iter_raises _ _ Hitems).
    + exists (Ok tt). by rewrite app_nil_r.
  - exists (Raise e). by rewrite app_nil_r.
Qed.

Lemma for_each_race_tolerable (keep : Race → bool) (f : body RaceResult) races results :
  (∀ x rs, f x rs =
     match _parse_race x with
     | Raise e => (Raise e, rs)
     | Ok race =>
         if keep race then
           match py_get x "Results" (JArr []) ≫= py_iter with
           | Raise e => (Raise e, rs)
           | Ok items =>
               for_each_skipping (append_parsed (_parse_race_result race)) items rs
           end
         else (Ok tt, rs)
     end) →
  Forall tolerable_race races →
  for_each_skipping f races results
    = (Ok tt, results ++ flat_map (records_of_race keep) races).
Proof.
  intros Hf Htol. revert results.
  induction Htol as [|race_data races Hrace _ IH]; intros results.
  - by rewrite app_nil_r.
  - cbn [for_each_skipping flat_map].
    destruct (race_body_tolerable keep f race_data results Hf Hrace)
      as ([[]|e] & -> & Hr).
    + rewrite IH. by rewrite <- app_assoc.
    + rewrite Hr, IH. by rewrite <- app_assoc.
Qed.

(** X20: Season results over any number of races: as long as each race, and
    each result of a race that parses, parses or fails with [KeyError],
    [ValueError] or [TypeError], the operation returns, race by race, the
    records of the valid results of the races that parse. *)
Theorem season_results_keep_the_valid_results data races :
  nested_collection data "RaceTable" "Races" ≫= py_iter = Ok races →
  Forall tolerable_race races →
  season_results_of data = Ok (flat_map (records_of_race (λ _, true)) races).
Proof.
  intros Hdata Htol. unfold season_results_of.
  assert (Henv : py_in "MRData" data = Ok true).
  { destruct (nested_collection data "RaceTable" "Races") as [v|] eqn:Hv; [|done].
    by eapply nested_collection_envelope. }
  rewrite Henv, Hdata.
  by rewrite (for_each_race_tolerable (λ _, true) season_race_body races []).
Qed.

End CollectionExtras.

Section HistoryExtras.
Context {L : PyLib} (E : env).

(** X21: Circuit history over any number of races: under the same condition
    the operation returns the records of the valid results of the races
    that parse and whose season is not before the cutoff year. *)
Theorem circuit_history_keeps_recent_races years data w races :
  nested_collection data "RaceTable" "Races" ≫= py_iter = Ok races →
  Forall tolerable_race races →
  circuit_history_of E years data w
    = (Ok (flat_map (records_of_race (λ race, cutoff_year E years w <=? season race))
             races),
       ticked E w).
Proof.
  intros Hdata Htol. unfold circuit_history_of.
  destruct (nested_collection data "RaceTable" "Races") as [v|] eqn:Hv; [|done].
  rewrite (nested_collection_envelope _ _ _ _ Hv).
  cbn [mbind res_bind bind] in Hdata. cbn [read_clock]. rewrite Hdata.
  by rewrite (for_each_race_tolerable
                (λ race, cutoff_year E years w <=? season race)
                (history_race_body (year_of (clock E (readings w)) - years))
                races []).
Qed.

End HistoryExtras.

Section RaceExtras.
Context {L : PyLib}.

Lemma check_required_present required_fields fields :
  has_fields required_fields fields →
  check_required required_fields (JObj fields) = Ok tt ∧
  missing_fields required_fields (JObj fields) = Ok [].
Proof.
  induction required_fields as [|f rest IH]; intros Hall; [done|].
  destruct (Hall f) as [v Hv]; [by left|].
  destruct IH as [IH1 IH2]; [intros g Hg; apply Hall; by right|].
  cbn [check_required missing_fields].
  rewrite (py_in_present _ _ _ Hv). cbn [mbind res_bind bind].
  by rewrite IH1, IH2.
Qed.

Lemma py_in_raises k (v : value) e : py_in k v = Raise e → e = TypeError.
Proof. destruct v; simpl; congruence. Qed.

(** X22: A race whose [time] is not a string makes [_parse_race] raise
    [AttributeError] (from [time_str.rstrip]), which no [except] clause of
    the parser or of the operations names: with such a race first in the
    table, season results, qualifying results and the next race raise
    [AttributeError] instead of skipping the race or raising [ValueError]. *)
Theorem race_with_non_string_time_raises fields time :
  has_fields race_fields fields →
  assoc "time" fields = Some time → is_string time = false →
  _parse_race (JObj fields) = Raise AttributeError ∧
  ∀ data more,
    nested_collection data "RaceTable" "Races" = Ok (JArr (JObj fields :: more)) →
    season_results_of data = Raise AttributeError ∧
    qualifying_results_of data = Raise AttributeError ∧
    next_race_of data = Raise AttributeError.
Proof.
  intros Hfields Htime Hstr.
  destruct (check_required_present race_fields fields Hfields) as [Hcheck Hmissing].
  unfold race_fields in *.
  destruct (Hfields "date") as [date Hdate]; [set_solver|].
  assert (Hrace : _parse_race (JObj fields) = Raise AttributeError).
  { unfold _parse_race. rewrite Hcheck. cbn [mbind res_bind bind].
    rewrite (py_getitem_present _ _ _ Hdate), (py_get_present _ _ _ _ Htime).
    cbn [mbind res_bind bind]. by destruct time. }
  split; [done|]. intros data more Hdata.
  pose proof (nested_collection_envelope _ _ _ _ Hdata) as Henv.
  split; [|split].
  - unfold season_results_of. rewrite Henv, Hdata.
    cbn [mbind res_bind bind py_iter for_each_skipping].
    unfold season_race_body at 1. by rewrite Hrace.
  - unfold qualifying_results_of. rewrite Henv, Hdata.
    cbn [py_truth negb py_first]. by rewrite Hrace.
  - unfold next_race_of. rewrite Henv, Hdata.
    cbn [mbind res_bind bind negb py_truth py_first]. by rewrite Hmissing, Hrace.
Qed.

(** X23: [get_next_race] parses the first race of the table: when that race
    parses, the operation returns it, whatever follows it in the table. *)
Theorem next_race_is_the_first_race data race_data more race :
  nested_collection data "RaceTable" "Races" = Ok (JArr (race_data :: more)) →
  _parse_race race_data = Ok race →
  next_race_of data = Ok race.
Proof.
  intros Hdata Hrace.
  destruct (_parse_race_object _ _ Hrace) as [fields ->].
  assert (Hmissing : missing_fields race_fields (JObj fields) = Ok []).
  { apply check_required_present. intros f Hf.
    unfold _parse_race in Hrace. fold race_fields in Hrace.
    destruct (assoc f fields) eqn:Hassoc; [done|].
    by rewrite (check_required_lacks race_fields (JObj fields)) in Hrace
      by (by exists fields, f). }
  unfold next_race_of. rewrite (nested_collection_envelope _ _ _ _ Hdata), Hdata.
  cbn [mbind res_bind bind negb py_truth py_first].
  unfold race_fields in Hmissing. by rewrite Hmissing, Hrace.
Qed.

End RaceExtras.

Section EnvelopeExtras.
Context {L : PyLib} (E : env).

(** X24: A response without the ['MRData'] envelope (a cache file can hold
    any JSON): the list operations return the empty list, and the next race
    raises [ValueError]. *)
Theorem response_without_envelope data :
  py_in "MRData" data ≠ Ok true →
  season_results_of data = Ok [] ∧
  standings_of "DriverStandings" _parse_driver_standing data = Ok [] ∧
  standings_of "ConstructorStandings" _parse_constructor_standing data = Ok [] ∧
  qualifying_results_of data = Ok [] ∧
  (∀ years w, circuit_history_of E years data w = (Ok [], w)) ∧
  next_race_of data = Raise ValueError.
Proof.
  intros Henv.
  unfold season_results_of, standings_of, qualifying_results_of,
    circuit_history_of, next_race_of.
  destruct (py_in "MRData" data) as [[]|e] eqn:Hin; [done|done|].
  apply py_in_raises in Hin as ->. done.
Qed.

End EnvelopeExtras.

Section FilterExtras.
Context {L : PyLib} (E : env).

(** A race result is the result of the race it was parsed for. *)
Lemma _parse_race_result_race race x record :
  _parse_race_result race x = Ok record → rr_race record = race.
Proof.
  unfold _parse_race_result.
  destruct (check_required _ x) as [[]|]; [|done]. cbn [mbind res_bind bind].
  unfold try_except.
  destruct (py_getitem x "Driver" ≫= _parse_driver) as [driver|]; [|cbn [mbind res_bind bind]; by case_match].
  destruct (py_getitem x "Constructor" ≫= _parse_constructor) as [constructor|];
    [|cbn [mbind res_bind bind]; by case_match].
  destruct (py_getitem x "position" ≫= py_int) as [position|]; [|cbn [mbind res_bind bind]; by case_match].
  destruct (py_getitem x "points" ≫= py_float) as [points|]; [|cbn [mbind res_bind bind]; by case_match].
  destruct (py_getitem x "grid" ≫= py_int) as [grid|]; [|cbn [mbind res_bind bind]; by case_match].
  destruct (py_getitem x "laps" ≫= py_int) as [laps|]; [|cbn [mbind res_bind bind]; by case_match].
  destruct (py_getitem x "status") as [status|]; [|cbn [mbind res_bind bind]; by case_match].
  cbn [mbind res_bind bind]. by intros [= <-].
Qed.

(** A loop keeps what holds of every record when its body does. *)
Lemma for_each_keeps {A : Type} (P : A → Prop) (f : body A) items results :
  (∀ x rs, Forall P rs → Forall P (f x rs).2) →
  Forall P results → Forall P (for_each_skipping f items results).2.
Proof.
  intros Hf. revert results.
  induction items as [|x items IH]; intros results Hresults; [done|].
  cbn [for_each_skipping]. specialize (Hf x results Hresults).
  destruct (f x results) as [[[]|e] results1]; cbn [snd] in Hf.
  - by apply IH.
  - destruct (skippable e); [by apply IH|done].
Qed.

Lemma append_parsed_keeps {A : Type} (P : A → Prop) (parse : value → res A) x rs :
  (∀ record, parse x = Ok record → P record) →
  Forall P rs → Forall P (append_parsed parse x rs).2.
Proof.
  intros Hparse Hrs. unfold append_parsed.
  destruct (parse x) as [record|e]; [|done].
  cbn [snd]. apply Forall_app. split; [done|]. apply Forall_singleton. by apply Hparse.
Qed.

(** X25: Whatever the response holds, [get_circuit_history] never returns a
    result of a race whose season is before the cutoff year, the current
    year minus [years]. *)
Theorem circuit_history_has_no_older_race years data w records w' :
  circuit_history_of E years data w = (Ok records, w') →
  Forall (λ record, cutoff_year E years w <= season (rr_race record)) records.
Proof.
  unfold circuit_history_of.
  destruct (py_in "MRData" data) as [[]|e].
  2:{ intros [= <- _]. constructor. }
  2:{ unfold finish. destruct (structure_error e); [|done].
      intros [= <- _]. constructor. }
  destruct (nested_collection data "RaceTable" "Races") as [races|e].
  2:{ unfold finish. destruct (structure_error e); [|done].
      intros [= <- _]. constructor. }
  cbn [read_clock].
  destruct (py_iter races) as [items|e].
  2:{ unfold finish. destruct (structure_error e); [|done].
      intros [= <- _]. constructor. }
  fold (cutoff_year E years w).
  assert (Hkeep : Forall (λ record, cutoff_year E years w <= season (rr_race record))
                    (for_each_skipping (history_race_body (cutoff_year E years w))
                       items []).2).
  { apply for_each_keeps; [|constructor].
    intros x rs Hrs. unfold history_race_body.
    destruct (_parse_race x) as [race|]; [|done].
    destruct (Z.leb_spec (cutoff_year E years w) (season race)) as [Hle|]; [|done].
    destruct (py_get x "Results" (JArr []) ≫= py_iter) as [results|]; [|done].
    apply for_each_keeps; [|done].
    intros y rs' Hrs'. apply append_parsed_keeps; [|done].
    intros record Hrecord. by rewrite (_parse_race_result_race _ _ _ Hrecord). }
  destruct (for_each_skipping _ items []) as [[[]|e] results]; cbn [snd finish] in *.
  - by intros [= <- _].
  - destruct (structure_error e); [|done]. by intros [= <- _].
Qed.

End FilterExtras.

(** ** Extras: which exceptions leave the fetch operations *)

Section Exceptions.
Context {L : PyLib} (E : env).
Hypothesis library : int_raises_builtin.

Lemma builtin_ok {A} (a : A) : builtin (Ok a).
Proof. by intros e. Qed.

Lemma builtin_raise {A} e : is_request_exception e = false → builtin (@Raise A e).
Proof. by intros He e' [= <-]. Qed.

Lemma builtin_bind {A B} (m : res A) (f : A → res B) :
  builtin m → (∀ a, builtin (f a)) → builtin (m ≫= f).
Proof.
  intros Hm Hf e. destruct m as [a|e']; cbn.
  - apply Hf.
  - intros [= <-]. by apply Hm.
Qed.

Lemma builtin_try {A} (m : res A) catches handler :
  builtin m → (∀ e, builtin (handler e)) → builtin (try_except m catches handler).
Proof.
  intros Hm Hh e. destruct m as [a|e']; cbn; [done|].
  destruct (catches e'); [apply Hh|]. intros [= <-]. by apply Hm.
Qed.

Lemma builtin_py_in k v : builtin (py_in k v).
Proof. by destruct v; intros e [= <-]. Qed.

Lemma builtin_py_getitem v k : builtin (py_getitem v k).
Proof. destruct v; intros e; cbn; try by intros [= <-]. by case_match; intros [= <-]. Qed.

Lemma builtin_py_get v k d : builtin (py_get v k d).
Proof. by destruct v; intros e [= <-]. Qed.

Lemma builtin_py_first v : builtin (py_first v).
Proof.
  destruct v as [| | | |s|items|]; intros e; cbn; try by intros [= <-].
  - by destruct s; intros [= <-].
  - by destruct items; intros [= <-].
Qed.

Lemma builtin_py_iter v : builtin (py_iter v).
Proof. by destruct v; intros e [= <-]. Qed.

Lemma builtin_py_rstrip_Z v : builtin (py_rstrip_Z v).
Proof. by destruct v; intros e [= <-]. Qed.

Lemma builtin_py_int v : builtin (py_int v).
Proof using library.
  destruct v; intros e; cbn; try by intros [= <-].
  - apply library.
  - by case_match; intros [= <-].
Qed.

Lemma builtin_py_float v : builtin (py_float v).
Proof.
  destruct v; intros e; cbn; unfold float_of_int_res; try by intros [= <-].
  all: by case_match; intros [= <-].
Qed.

Lemma builtin_check_required fields d : builtin (check_required fields d).
Proof.
  induction fields as [|field rest IH]; [apply builtin_ok|].
  cbn [check_required]. apply builtin_bind; [apply builtin_py_in|].
  intros [|]; [done|]. by apply builtin_raise.
Qed.

Lemma builtin_missing_fields fields d : builtin (missing_fields fields d).
Proof.
  induction fields as [|field rest IH]; [apply builtin_ok|].
  cbn [missing_fields]. apply builtin_bind; [apply builtin_py_in|]. intros present.
  apply builtin_bind; [done|]. intros missing. apply builtin_ok.
Qed.

Lemma builtin_nested_collection data table collection :
  builtin (nested_collection data table collection).
Proof.
  unfold nested_collection.
  apply builtin_bind; [apply builtin_py_getitem|]. intros envelope.
  apply builtin_bind; [apply builtin_py_get|]. intros t. apply builtin_py_get.
Qed.

(** One step of a proof that a parser raises builtin exceptions only. *)
Ltac builtin_step :=
  first
    [ apply builtin_ok
    | apply builtin_raise; reflexivity
    | apply builtin_py_in | apply builtin_py_getitem | apply builtin_py_get
    | apply builtin_py_first | apply builtin_py_iter | apply builtin_py_rstrip_Z
    | apply builtin_py_int | apply builtin_py_float
    | apply builtin_check_required | apply builtin_missing_fields
    | apply builtin_nested_collection
    | apply builtin_try; [|intros ?]
    | apply builtin_bind; [|intros ?]
    | match goal with
      | |- builtin (if ?b then _ else _) => destruct b
      | |- builtin (match ?x with _ => _ end) => destruct x
      end ].

Lemma builtin_parse_circuit d : builtin (_parse_circuit d).
Proof using Type. unfold _parse_circuit. repeat builtin_step. Qed.

Lemma builtin_parse_driver d : builtin (_parse_driver d).
Proof using Type. unfold _parse_driver. repeat builtin_step. Qed.

Lemma builtin_parse_constructor d : builtin (_parse_constructor d).
Proof using Type. unfold _parse_constructor. repeat builtin_step. Qed.

Lemma builtin_parse_race d : builtin (_parse_race d).
Proof using library.
  unfold _parse_race.
  repeat first [apply builtin_parse_circuit | builtin_step].
Qed.



Lemma builtin_parse_driver_standing d : builtin (_parse_driver_standing d).
Proof using library.
  unfold _parse_driver_standing.
  repeat first [apply builtin_parse_driver | apply builtin_parse_constructor
               | builtin_step].
Qed.

Lemma builtin_parse_constructor_standing d :
  builtin (_parse_constructor_standing d).
Proof using library.
  unfold _parse_constructor_standing.
  repeat first [apply builtin_parse_constructor | builtin_step].
Qed.

Lemma builtin_for_each {A} (f : body A) items results :
  (∀ x rs, builtin (f x rs).1) → builtin (for_each_skipping f items results).1.
Proof.
  intros Hf. revert results.
  induction items as [|x rest IH]; intros results; [by intros e|].
  cbn [for_each_skipping]. destruct (f x results) as [[u|e'] rs] eqn:Hx; [apply IH|].
  destruct (skippable e'); [apply IH|].
  intros e [= <-]. apply (Hf x results). by rewrite Hx.
Qed.

Lemma builtin_append_parsed {A} (parse : value → res A) x rs :
  (∀ y, builtin (parse y)) → builtin (append_parsed parse x rs).1.
Proof.
  intros Hp. unfold append_parsed. destruct (parse x) as [a|e'] eqn:Hx; [by intros e|].
  intros e [= <-]. apply (Hp x). by rewrite Hx.
Qed.

Lemma builtin_finish {A} catches (r : res unit * list A) :
  builtin r.1 → builtin (finish catches r).
Proof.
  destruct r as [[u|e'] rs]; unfold finish; cbn [fst]; [intros _; apply builtin_ok|].
  intros Hr. destruct (catches e'); [apply builtin_ok|].
  intros e [= <-]. by apply Hr.
Qed.




Lemma builtin_next_race_of data : builtin (next_race_of data).
Proof using library.
  unfold next_race_of.
  repeat first [apply builtin_parse_race | builtin_step].
Qed.


Lemma builtin_standings_of {A} collection (parse : value → res A) data :
  (∀ y, builtin (parse y)) → builtin (standings_of collection parse data).
Proof.
  intros Hp. unfold standings_of.
  destruct (py_in "MRData" data) as [[|]|e'] eqn:Hin.
  - destruct (nested_collection data "StandingsTable" "StandingsLists")
      as [lists|e''] eqn:Hlists.
    + destruct (negb (py_truth lists)); [apply builtin_ok|].
      match goal with |- builtin (match ?m with _ => _ end) =>
        assert (Hm : builtin m); [|destruct m as [items|e3]] end.
      { repeat builtin_step. }
      * apply builtin_finish, builtin_for_each. intros x rs.
        by apply builtin_append_parsed.
      * apply builtin_finish. intros e [= <-]. by apply Hm.
    + apply builtin_finish. intros e [= <-].
      by apply (builtin_nested_collection data "StandingsTable" "StandingsLists").
  - apply builtin_ok.
  - apply builtin_finish. intros e [= <-]. by apply (builtin_py_in "MRData" data).
Qed.



Lemma builtin_fetched {A} (r : res value * world) (on_failure : res A) parse :
  builtin on_failure → (∀ data w1, builtin (parse data w1).1) →
  builtin (fetched r on_failure parse).1.
Proof.
  intros Hf Hp. destruct r as [[data|e'] w1]; cbn; [apply Hp|].
  destruct (is_request_exception e') eqn:He'; cbn; [done|].
  by intros e [= <-].
Qed.

Lemma builtin_get_next_race self w : builtin (get_next_race E self w).1.
Proof using library.
  apply builtin_fetched; [by apply builtin_raise|]. intros. apply builtin_next_race_of.
Qed.

Lemma builtin_get_driver_standings self season w :
  builtin (get_driver_standings E self season w).1.
Proof using library.
  apply builtin_fetched; [apply builtin_ok|]. intros.
  apply builtin_standings_of, builtin_parse_driver_standing.
Qed.

Lemma builtin_get_constructor_standings self season w :
  builtin (get_constructor_standings E self season w).1.
Proof using library.
  apply builtin_fetched; [apply builtin_ok|]. intros.
  apply builtin_standings_of, builtin_parse_constructor_standing.
Qed.


End Exceptions.

(** ** Extras: the prediction engine *)

Section EngineExtras.
Context {L : PyLib} (E : env).
Context {DriverPrediction : Type}.
Context (analyze : Race → list DriverStanding → list ConstructorStanding →
                   list RaceResult → list QualifyingResult → list RaceResult →
                   Z → res (list DriverPrediction)).
Context (true_div : Z → Z → pyfloat).

Abbreviation predict := (predict_next_race E analyze true_div).

Lemma or_empty_world {A} (r : res (list A) * world) : (or_empty r).2 = r.2.
Proof. by destruct r as [[xs|e] w]. Qed.

Lemma _validate_race_data_world race w :
  (_validate_race_data E race w).2
  = if season race <? 1950 then w else (read_clock E w).2.
Proof.
  unfold _validate_race_data. destruct (season race <? 1950); [done|].
  destruct (read_clock E w) as [now w1]. by destruct (_ <? _).
Qed.

(** X27: [predict_next_race] never raises a [PredictionError] of type
    ["NetworkError"], whatever the network, the cache and the analyzer do:
    the fetcher has turned every failed request into [ValueError] or an
    empty list before the engine's [except requests.RequestException]
    clauses could see it. *)
Theorem prediction_never_reports_a_network_error (self : engine) (w : world)
    error w' :
  int_raises_builtin →
  predict self w = (inl error, w') →
  error_type error ≠ "NetworkError".
Proof.
  intros library. unfold predict_next_race, prediction_attempt.
  destruct (get_next_race E (data_fetcher self) w) as [[race|e] w1] eqn:Hnext.
  - destruct (_validate_race_data E race w1) as [race_warnings w2].
    destruct (get_driver_standings E (data_fetcher self) (Some (season race)) w2)
      as [[driver_standings|e] w3] eqn:Hdrivers.
    + destruct (get_constructor_standings E (data_fetcher self) (Some (season race)) w3)
        as [[constructor_standings|e] w4] eqn:Hconstructors.
      * destruct driver_standings as [|d ds]; [by intros [= <- _]|].
        destruct (or_empty (get_current_season_results _ _ _ _)) as [season_results w5].
        destruct (or_empty (get_qualifying_results _ _ _ _ _))
          as [qualifying_results w6].
        destruct (or_empty (get_circuit_history _ _ _ _ _)) as [circuit_history w7].
        destruct (analyze _ _ _ _ _ _ _) as [[|p ps]|e]; by intros [= <- _].
      * pose proof (builtin_get_constructor_standings E library (data_fetcher self)
                      (Some (season race)) w3 e) as He.
        rewrite Hconstructors in He. unfold standings_failure.
        rewrite (He eq_refl). by intros [= <- _].
    + pose proof (builtin_get_driver_standings E library (data_fetcher self)
                    (Some (season race)) w2 e) as He.
      rewrite Hdrivers in He. unfold standings_failure.
      rewrite (He eq_refl). by intros [= <- _].
  - pose proof (builtin_get_next_race E library (data_fetcher self) w e) as He.
    rewrite Hnext in He. rewrite (He eq_refl).
    destruct (is_value_error e); by intros [= <- _].
Qed.

(** X28: When the fetch of the next race fails (the request fails and no
    cache entry stands in), [predict_next_race] raises the recoverable
    ["DataError"] and does nothing further: no validation reads the clock
    and no other request is sent. *)
Theorem failed_next_race_fetch_is_a_data_error (self : engine) (w : world) e w1 :
  _get_cached_or_fetch E (data_fetcher self) "next_race"
    (BASE_URL +:+ "/current/next.json") CACHE_TTL_NEXT_RACE None w = (Raise e, w1) →
  ∃ error,
    predict self w = (inl error, w1) ∧
    error_type error = "DataError" ∧ recoverable error = true.
Proof.
  intros Hfetch. exists next_race_data_error. split; [|done].
  unfold predict_next_race, prediction_attempt, get_next_race, fetched.
  rewrite Hfetch, (_get_cached_or_fetch_raises E _ _ _ _ _ _ _ _ Hfetch). done.
Qed.

(** X29: When the fetch of the driver standings fails, the operation
    answers with the empty list, and [predict_next_race] raises
    ["MissingData"], which is not recoverable, once the constructor
    standings have been fetched as well; season results, qualifying results
    and circuit history are not requested and the analyzer is not run. *)
Theorem failed_standings_fetch_is_missing_data (self : engine) (w : world)
    race w1 e w3 constructor_standings w4 :
  get_next_race E (data_fetcher self) w = (Ok race, w1) →
  _get_cached_or_fetch E (data_fetcher self)
    ("driver_standings_" +:+ season_str_of (Some (season race)))
    (BASE_URL +:+ "/" +:+ season_str_of (Some (season race)) +:+ "/driverStandings.json")
    CACHE_TTL_STANDINGS None (_validate_race_data E race w1).2 = (Raise e, w3) →
  get_constructor_standings E (data_fetcher self) (Some (season race)) w3
    = (Ok constructor_standings, w4) →
  ∃ error,
    predict self w = (inl error, w4) ∧
    error_type error = "MissingData" ∧ recoverable error = false.
Proof.
  intros Hnext Hfetch Hconstructors. exists missing_data. split; [|done].
  unfold predict_next_race, prediction_attempt. rewrite Hnext.
  destruct (_validate_race_data E race w1) as [race_warnings w2].
  cbn [snd] in Hfetch.
  unfold get_driver_standings, fetched.
  rewrite Hfetch, (_get_cached_or_fetch_raises E _ _ _ _ _ _ _ _ Hfetch).
  by rewrite Hconstructors.
Qed.

(** X30: Once the next race and a non-empty list of driver standings are at
    hand, the outcome is the analyzer's: if it produces predictions for the
    race and the standings whatever the other inputs, [predict_next_race]
    returns them for that race, however the fetches of season results,
    qualifying results and circuit history end. *)
Theorem optional_data_never_fails_the_prediction (self : engine) (w : world)
    race w1 d ds w3 constructor_standings w4 :
  get_next_race E (data_fetcher self) w = (Ok race, w1) →
  get_driver_standings E (data_fetcher self) (Some (season race))
    (_validate_race_data E race w1).2 = (Ok (d :: ds), w3) →
  get_constructor_standings E (data_fetcher self) (Some (season race)) w3
    = (Ok constructor_standings, w4) →
  (∀ season_results qualifying_results circuit_history,
     ∃ p ps, analyze race (d :: ds) constructor_standings season_results
               qualifying_results circuit_history (top_n self) = Ok (p :: ps)) →
  ∃ result w' season_results qualifying_results circuit_history,
    predict self w = (inr result, w') ∧
    pr_race result = race ∧
    Ok (predictions result)
      = analyze race (d :: ds) constructor_standings season_results
          qualifying_results circuit_history (top_n self).
Proof.
  intros Hnext Hdrivers Hconstructors Hanalyze.
  unfold predict_next_race, prediction_attempt. rewrite Hnext.
  destruct (_validate_race_data E race w1) as [race_warnings w2].
  cbn [snd] in Hdrivers. rewrite Hdrivers, Hconstructors.
  destruct (or_empty (get_current_season_results _ _ _ _)) as [season_results w5].
  destruct (or_empty (get_qualifying_results _ _ _ _ _)) as [qualifying_results w6].
  destruct (or_empty (get_circuit_history _ _ _ _ _)) as [circuit_history w7].
  destruct (Hanalyze season_results qualifying_results circuit_history)
    as (p & ps & Hps).
  rewrite Hps. destruct (read_clock E w7) as [now w8].
  eexists _, _, season_results, qualifying_results, circuit_history.
  split; [reflexivity|]. by rewrite Hps.
Qed.

End EngineExtras.

(** * The properties on concrete runs *)

Section Examples.
#[local] Existing Instance Demo.lib.

(** C1 as stated fails: a 200 response whose body is a JSON array is a
    malformed success response, yet [_make_request] does not raise after one
    attempt: it sends three requests and sleeps 2 and 4 seconds. *)
Lemma malformed_response_three_attempts :
  let E := {| clock := Demo.frozen 0;
              net := Demo.always (ReplyResponse 200 (Some (JArr []))) |} in
  let w := Demo.start ∅ in
  success 200 ∧
  well_formed (Some (JArr [])) = false ∧
  net E (sent w) "u" None = ReplyResponse 200 (Some (JArr [])) ∧
  (_make_request E "u" None w).1 = Raise RequestException ∧
  trace (_make_request E "u" None w).2 =
    trace (_rate_limit E w) ++
      [EvRequest "u" None; EvBackoffSleep 2; EvRequest "u" None;
       EvBackoffSleep 4; EvRequest "u" None] ∧
  ¬ fails_at_once E "u" None w.
Proof.
  cbv zeta. split; [unfold success; lia|].
  repeat split; try reflexivity.
  intros [e He]. apply (f_equal (λ p, sent p.2)) in He.
  vm_compute in He. discriminate He.
Qed.

(** A 404 on the first attempt: one request, then the [HTTPError]. *)
Lemma client_error_fails_at_once_witness :
  let E := {| clock := Demo.ticking 5000;
              net := Demo.always (ReplyResponse 404 None) |} in
  let w := Demo.start ∅ in
  ∃ w', _make_request E "u" None w = (Raise (HTTPError 404), w') ∧
        trace w' = trace (_rate_limit E w) ++ [EvRequest "u" None] ∧
        sent w' = 1%nat.
Proof.
  cbv zeta.
  apply (client_error_fails_at_once _ "u" None (Demo.start ∅) 404 None).
  - unfold client_error. lia.
  - reflexivity.
Defined.

(** 500, 503, then a well-formed 200: the body after three requests. *)
Lemma two_server_errors_then_success_witness :
  let E := {| clock := Demo.ticking 5000;
              net := Demo.scripted [ReplyResponse 500 None; ReplyResponse 503 None]
                       (ReplyResponse 200 (Some Demo.a_body)) |} in
  let w := Demo.start ∅ in
  ∃ w', _make_request E "u" None w = (Ok Demo.a_body, w') ∧
        trace w' = trace (_rate_limit E w) ++
          [EvRequest "u" None; EvBackoffSleep 2; EvRequest "u" None;
           EvBackoffSleep 4; EvRequest "u" None] ∧
        sent w' = 3%nat.
Proof.
  cbv zeta.
  apply (two_server_errors_then_success _ "u" None (Demo.start ∅)
           500 None 503 None 200 Demo.a_body).
  - unfold server_error. lia.
  - unfold server_error. lia.
  - unfold success. lia.
  - reflexivity.
  - reflexivity.
  - reflexivity.
  - reflexivity.
Defined.

(** Three 200 responses with a JSON array as body: three requests, then
    the [RequestException]. *)
Lemma malformed_response_is_retried_witness :
  let E := {| clock := Demo.ticking 5000;
              net := Demo.always (ReplyResponse 200 (Some (JArr []))) |} in
  let w := Demo.start ∅ in
  ∃ r w', _make_request E "u" None w = (r, w') ∧
    (trace (_rate_limit E w) ++
       [EvRequest "u" None; EvBackoffSleep 2; EvRequest "u" None])
      `prefix_of` trace w' ∧
    r = Raise RequestException ∧ sent w' = 3%nat.
Proof.
  cbv zeta.
  destruct (malformed_response_is_retried
              {| clock := Demo.ticking 5000;
                 net := Demo.always (ReplyResponse 200 (Some (JArr []))) |}
              "u" None (Demo.start ∅) 200 (Some (JArr [])))
    as (r & w' & Hrun & Hprefix & Hall).
  - unfold success. lia.
  - reflexivity.
  - reflexivity.
  - exists r, w'. split; [exact Hrun|]. split; [exact Hprefix|].
    destruct (Hall 200 (Some (JArr [])) 200 (Some (JArr []))) as (Hr & _ & Hsent).
    + unfold success. lia.
    + reflexivity.
    + unfold success. lia.
    + reflexivity.
    + reflexivity.
    + reflexivity.
    + split; [exact Hr | exact Hsent].
Defined.

(** C2 on the code: a cache file that holds a JSON object with [data] but
    no [expires_at] is a miss for [get], and [get] leaves the file where
    it is; an undecodable file is a miss too, and that one is unlinked. *)
Lemma entry_without_expiry_is_kept :
  let E := Demo.down in
  let path := _get_cache_path ".f1_cache" "next_race" in
  let broken := Decoded (JObj [("data", Demo.a_body)]) in
  let w := Demo.start {[ path := broken ]} in
  let w' := Demo.start {[ path := Undecodable ]} in
  get E ".f1_cache" "next_race" false w = (Ok PyNone, w) ∧
  files (get E ".f1_cache" "next_race" false w).2 !! path = Some broken ∧
  (get E ".f1_cache" "next_race" false w').1 = Ok PyNone ∧
  files (get E ".f1_cache" "next_race" false w').2 !! path = None.
Proof. cbv zeta. repeat split; reflexivity. Qed.

(** The provider is down and an expired entry is on disk: the entry's
    payload comes back. *)
Lemma stale_entry_is_served_witness :
  let E := Demo.down in
  let path := _get_cache_path ".f1_cache" "next_race" in
  let w := Demo.start {[ path := Demo.an_entry ]} in
  (_get_cached_or_fetch E Demo.a_fetcher "next_race" "u" 3600 None w).1
    = Ok Demo.a_body.
Proof.
  cbv zeta.
  set (E := Demo.down).
  set (w := Demo.start {[ _get_cache_path ".f1_cache" "next_race" := Demo.an_entry ]}).
  assert (Hreq : _make_request E "u" None
                   (get E (cache_dir Demo.a_fetcher) "next_race" false w).2
                 = (Raise (HTTPError 500),
                    (_make_request E "u" None
                       (get E (cache_dir Demo.a_fetcher) "next_race" false w).2).2))
    by reflexivity.
  refine (proj1 (proj1 (stale_entry_is_served E Demo.a_fetcher "next_race" "u"
                          3600 None w _ _ eq_refl Hreq)
                   Demo.an_entry Demo.a_body 1000 eq_refl _ _)).
  - exists [("data", Demo.a_body); ("cached_at", JStr "0");
            ("expires_at", JStr "1000"); ("ttl", JInt 0)], "1000".
    repeat split; reflexivity.
  - discriminate.
Defined.

(** Written with [ttl = -1] and read at once: absent for a plain read, the
    payload for a read that ignores the TTL. *)
Lemma expired_entry_is_kept_witness :
  let E := Demo.down in
  let w := Demo.start ∅ in
  let w' := (set E ".f1_cache" "k" Demo.a_body (-1) w).2 in
  storable E (-1) w ∧
  get E ".f1_cache" "k" true w' = (Ok Demo.a_body, w') ∧
  get E ".f1_cache" "k" false w' = (Ok PyNone, ticked E w').
Proof.
  cbv zeta.
  assert (Hok : storable Demo.down (-1) (Demo.start ∅))
    by (split; split; apply Z.leb_le; reflexivity).
  split; [exact Hok|].
  destruct (expired_entry_is_kept Demo.down ".f1_cache" "k" Demo.a_body (-1)
              (Demo.start ∅)
              (set Demo.down ".f1_cache" "k" Demo.a_body (-1) (Demo.start ∅)).2
              demo_round_trip Hok eq_refl)
    as (Hstale & Hexpired & _).
  split; [exact Hstale|]. apply Hexpired. reflexivity.
Defined.

(** C7 as stated fails for [ttl = 0]: when the clock gives the same reading
    to [set] and to [get], the reading is not past [expires_at], and the
    plain read returns the payload, not absent. *)
Lemma entry_with_ttl_zero_is_served :
  let E := {| clock := Demo.frozen 1000;
              net := Demo.always (ReplyResponse 500 None) |} in
  let w' := (set E ".f1_cache" "k" Demo.a_body 0 (Demo.start ∅)).2 in
  0 <= 0 ∧
  (set E ".f1_cache" "k" Demo.a_body 0 (Demo.start ∅)).1 = Ok tt ∧
  (get E ".f1_cache" "k" false w').1 = Ok Demo.a_body ∧
  Demo.a_body ≠ PyNone.
Proof.
  cbv zeta. split; [lia|]. split; [reflexivity|]. split; [reflexivity|discriminate].
Qed.

(** Keys that differ by a ['-'] where the first has a ['/']. *)
Lemma distinct_keys_distinct_paths_witness :
  _get_cache_path ".f1_cache" "a/b" ≠ _get_cache_path ".f1_cache" "a-b".
Proof.
  apply (distinct_keys_distinct_paths ".f1_cache" "a/b" "a-b").
  - discriminate.
  - cbn. unfold safe_not_underscore, safe.
    repeat split; (by left) || (right; repeat split; discriminate).
Defined.

(** C4 as stated fails: ["a_b"] differs from ["a/b"] only by the safe
    character ['_'] in the position of the ['/'], and both keys get the file
    [a_b.json]. *)
Lemma slash_and_underscore_collide :
  "a/b" ≠ "a_b" ∧
  has_separator "a/b" ∧
  differs_only_by safe "a/b" "a_b" ∧
  _get_cache_path ".f1_cache" "a/b" = _get_cache_path ".f1_cache" "a_b".
Proof.
  split; [discriminate|]. split; [exists 1%nat; by left|]. split; [|reflexivity].
  cbn. unfold safe.
  repeat split; (by left) || (right; repeat split; discriminate).
Qed.

(** A driver without a code. *)
Lemma driver_without_code_witness :
  _parse_driver
    (JObj [("driverId", JStr "fangio"); ("givenName", JStr "Juan");
           ("familyName", JStr "Fangio"); ("nationality", JStr "Argentine")])
  = Ok {| driver_id := JStr "fangio"; code := JStr "???";
          forename := JStr "Juan"; surname := JStr "Fangio";
          driver_nationality := JStr "Argentine" |}.
Proof.
  apply (driver_without_code
           [("driverId", JStr "fangio"); ("givenName", JStr "Juan");
            ("familyName", JStr "Fangio"); ("nationality", JStr "Argentine")]);
    reflexivity.
Defined.

Lemma three_results_one_malformed race :
  ∃ first third,
    one_malformed race_result_fields (_parse_race_result race)
      Demo.three_results [first; third] ∧
    rr_position first = 1 ∧ rr_position third = 3.
Proof.
  eexists _, _. split.
  - exists [Demo.a_result "1"], Demo.a_bad_result, [Demo.a_result "3"].
    split; [reflexivity|]. split.
    + eexists _, "status". split; [reflexivity|]. split; [|reflexivity].
      unfold race_result_fields. set_solver.
    + repeat constructor; reflexivity.
  - split; reflexivity.
Qed.

(** Season results of the race with three results, the second without its
    [status]: the first and the third. *)
Lemma one_malformed_element_is_skipped_witness :
  ∃ first third,
    season_results_of Demo.a_race_response = Ok [first; third] ∧
    rr_position first = 1 ∧ rr_position third = 3.
Proof.
  assert (Hrace : ∃ race, _parse_race Demo.a_race = Ok race)
    by (eexists; reflexivity).
  destruct Hrace as [race Hrace].
  destruct (three_results_one_malformed race) as (first & third & Hone & H1 & H3).
  exists first, third. split; [|by split].
  apply (proj1 (one_malformed_element_is_skipped Demo.today Demo.a_race_response
                  Demo.three_results) Demo.a_race race [first; third]);
    [|exact Hone].
  split; [reflexivity|]. split; [exact Hrace|reflexivity].
Defined.

(** C8 as stated fails for circuit history: asked in 2026 for five years
    of history, the race of 2000 with three results, one of them malformed,
    gives no record at all, not the two records of its valid results. *)
Lemma old_race_is_left_out :
  ∃ race first third,
    race_collection Demo.a_race_response Demo.a_race race "Results"
      Demo.three_results ∧
    one_malformed race_result_fields (_parse_race_result race)
      Demo.three_results [first; third] ∧
    season race = 2000 ∧
    cutoff_year Demo.today 5 (Demo.start ∅) = 2021 ∧
    circuit_history_of Demo.today 5 Demo.a_race_response (Demo.start ∅)
      = (Ok [], ticked Demo.today (Demo.start ∅)).
Proof.
  assert (Hrace : ∃ race, _parse_race Demo.a_race = Ok race ∧ season race = 2000)
    by (eexists; split; reflexivity).
  destruct Hrace as (race & Hrace & Hseason).
  destruct (three_results_one_malformed race) as (first & third & Hone & _).
  exists race, first, third.
  split; [split; [reflexivity|split; [exact Hrace|reflexivity]]|].
  split; [exact Hone|]. split; [exact Hseason|]. split; [reflexivity|].
  apply (circuit_history_old_race Demo.today 5 (Demo.start ∅)
           Demo.a_race_response Demo.a_race race); [reflexivity|exact Hrace|].
  rewrite Hseason. reflexivity.
Qed.

(** The provider is down and nothing is cached: the next race raises, the
    standings are empty. *)
Lemma failure_policy_witness :
  let w := Demo.start ∅ in
  (get_next_race Demo.down Demo.a_fetcher w).1 = Raise ValueError ∧
  (get_current_season_results Demo.down Demo.a_fetcher None w).1 = Ok [] ∧
  (get_driver_standings Demo.down Demo.a_fetcher None w).1 = Ok [] ∧
  (get_constructor_standings Demo.down Demo.a_fetcher None w).1 = Ok [].
Proof.
  cbv zeta.
  destruct (failure_policy Demo.down Demo.a_fetcher None (Demo.start ∅))
    as (Hnext & _ & Hseason & Hdrivers & Hconstructors).
  split; [|split; [|split]].
  - assert (H : fetch_next_race Demo.down Demo.a_fetcher (Demo.start ∅)
                 = (Raise (HTTPError 500),
                    (fetch_next_race Demo.down Demo.a_fetcher (Demo.start ∅)).2))
      by reflexivity.
    rewrite (Hnext _ _ H). reflexivity.
  - assert (H : fetch_season_results Demo.down Demo.a_fetcher None (Demo.start ∅)
                 = (Raise (HTTPError 500),
                    (fetch_season_results Demo.down Demo.a_fetcher None (Demo.start ∅)).2))
      by reflexivity.
    rewrite (Hseason _ _ H). reflexivity.
  - assert (H : fetch_driver_standings Demo.down Demo.a_fetcher None (Demo.start ∅)
                 = (Raise (HTTPError 500),
                    (fetch_driver_standings Demo.down Demo.a_fetcher None (Demo.start ∅)).2))
      by reflexivity.
    rewrite (Hdrivers _ _ H). reflexivity.
  - assert (H : fetch_constructor_standings Demo.down Demo.a_fetcher None (Demo.start ∅)
                 = (Raise (HTTPError 500),
                    (fetch_constructor_standings Demo.down Demo.a_fetcher None (Demo.start ∅)).2))
      by reflexivity.
    rewrite (Hconstructors _ _ H). reflexivity.
Defined.

(** ** Runs of the further properties *)

Lemma an_entry_is_an_entry : entry_of Demo.an_entry Demo.a_body 1000.
Proof.
  exists [("data", Demo.a_body); ("cached_at", JStr "0");
          ("expires_at", JStr "1000"); ("ttl", JInt 0)], "1000".
  repeat split; reflexivity.
Qed.

Lemma set_leaves_other_keys_witness :
  let w := Demo.start {[ _get_cache_path ".f1_cache" "b" := Demo.an_entry ]} in
  let w' := (set Demo.down ".f1_cache" "a" Demo.a_body 60 w).2 in
  files w' !! _get_cache_path ".f1_cache" "b"
    = files w !! _get_cache_path ".f1_cache" "b" ∧
  (get Demo.down ".f1_cache" "b" true w').1 = (get Demo.down ".f1_cache" "b" true w).1.
Proof.
  cbv zeta.
  apply (set_leaves_other_keys Demo.down ".f1_cache" "a" "b" Demo.a_body 60).
  intros H. vm_compute in H. discriminate H.
Defined.

(** A second write with a TTL of 30 seconds replaces the entry; one with a
    TTL of a million million seconds, some 31700 years, raises and leaves
    the entry of the first write. *)
Lemma last_write_wins_witness :
  let w1 := (set Demo.down ".f1_cache" "k" (JInt 1) 60 (Demo.start ∅)).2 in
  let w2 := (set Demo.down ".f1_cache" "k" Demo.a_body 30 w1).2 in
  let w2' := (set Demo.down ".f1_cache" "k" Demo.a_body 1000000000000 w1).2 in
  (∃ content,
     (set Demo.down ".f1_cache" "k" Demo.a_body 30 w1).1 = Ok tt ∧
     files w2 = <[_get_cache_path ".f1_cache" "k" := content]> (files (Demo.start ∅)) ∧
     entry_of content Demo.a_body (expiry Demo.down 30 w1) ∧
     get Demo.down ".f1_cache" "k" true w2 = (Ok Demo.a_body, w2)) ∧
  set Demo.down ".f1_cache" "k" Demo.a_body 1000000000000 w1
    = (Raise OverflowError, ticked Demo.down w1) ∧
  files w2' = files w1 ∧
  get Demo.down ".f1_cache" "k" true w2' = (Ok (JInt 1), w2').
Proof.
  cbv zeta.
  assert (Hok1 : storable Demo.down 60 (Demo.start ∅))
    by (split; split; apply Z.leb_le; reflexivity).
  split.
  - apply (last_write_wins Demo.down ".f1_cache" "k" (JInt 1) 60 Demo.a_body 30
             (Demo.start ∅) demo_round_trip Hok1).
    split; split; apply Z.leb_le; reflexivity.
  - apply (last_write_wins Demo.down ".f1_cache" "k" (JInt 1) 60 Demo.a_body
             1000000000000 (Demo.start ∅) demo_round_trip Hok1).
    intros [_ [_ Hyear]]. apply Z.leb_le in Hyear.
    match type of Hyear with
    | ?b = true => assert (Hnot : b = false) by reflexivity
    end.
    rewrite Hnot in Hyear. discriminate Hyear.
Defined.

Lemma corrupt_entry_is_purged_witness :
  let path := _get_cache_path ".f1_cache" "k" in
  let w := Demo.start {[ path := Undecodable ]} in
  let w' := (get Demo.down ".f1_cache" "k" false w).2 in
  (get Demo.down ".f1_cache" "k" false w).1 = Ok PyNone ∧
  files w' = delete path (files w) ∧
  (∀ ignore, get Demo.down ".f1_cache" "k" ignore w' = (Ok PyNone, w')) ∧
  is_valid Demo.down ".f1_cache" "k" w' = (Ok false, w').
Proof.
  cbv zeta.
  apply (corrupt_entry_is_purged Demo.down ".f1_cache" "k" false _ Undecodable).
  - reflexivity.
  - by right.
Defined.

Lemma scalar_entry_raises_witness :
  let w := Demo.start {[ _get_cache_path ".f1_cache" "k" := Decoded (JInt 5) ]} in
  get Demo.down ".f1_cache" "k" false w = (Raise TypeError, w) ∧
  is_valid Demo.down ".f1_cache" "k" w = (Raise TypeError, w).
Proof.
  cbv zeta.
  apply (scalar_entry_raises Demo.down ".f1_cache" "k" false _ (JInt 5)).
  - reflexivity.
  - exact I.
Defined.

Lemma is_valid_agrees_with_get_witness :
  let w := Demo.start {[ _get_cache_path ".f1_cache" "k" := Demo.an_entry ]} in
  is_valid Demo.early ".f1_cache" "k" w = (Ok true, ticked Demo.early w) ∧
  (get Demo.early ".f1_cache" "k" false w).1 = Ok Demo.a_body.
Proof.
  cbv zeta.
  assert (Hfile : files (Demo.start
                           {[ _get_cache_path ".f1_cache" "k" := Demo.an_entry ]})
                    !! _get_cache_path ".f1_cache" "k" = Some Demo.an_entry)
    by reflexivity.
  destruct (is_valid_agrees_with_get Demo.early ".f1_cache" "k" _
              Demo.an_entry Demo.a_body 1000 Hfile an_entry_is_an_entry)
    as [Hvalid Hiff]; [discriminate|].
  split; [exact Hvalid|]. apply Hiff. rewrite Hvalid. reflexivity.
Defined.

Lemma separator_free_keys_do_not_collide_witness :
  _get_cache_path ".f1_cache" "next_race" = ".f1_cache/next_race.json" ∧
  (_get_cache_path ".f1_cache" "next_race"
     = _get_cache_path ".f1_cache" "driver_standings_current" →
   "next_race" = "driver_standings_current").
Proof.
  apply (separator_free_keys_do_not_collide ".f1_cache" "next_race"
           "driver_standings_current"); split; reflexivity.
Defined.

Lemma returned_body_is_well_formed_witness :
  ∃ fields envelope,
    Demo.a_body = JObj fields ∧ assoc "MRData" fields = Some envelope.
Proof.
  apply (returned_body_is_well_formed Demo.up "u" None (Demo.start ∅) Demo.a_body
           (_make_request Demo.up "u" None (Demo.start ∅)).2).
  reflexivity.
Defined.

Lemma server_down_is_transient n :
  transient (net Demo.down n "u" None) (HTTPError 500).
Proof. apply (transient_server 500 None). unfold server_error. lia. Qed.

Lemma retries_exhausted_witness :
  ∃ w', _make_request Demo.down "u" None (Demo.start ∅) = (Raise (HTTPError 500), w') ∧
        trace w' = trace (_rate_limit Demo.down (Demo.start ∅))
                   ++ retry_events "u" None 1 2 ∧
        sent w' = 3%nat.
Proof.
  apply (retries_exhausted Demo.down "u" None (Demo.start ∅)
           (HTTPError 500) (HTTPError 500) (HTTPError 500));
    apply server_down_is_transient.
Defined.

Lemma success_after_failures_witness :
  ∃ w', _make_request Demo.slow "u" None (Demo.start ∅) = (Ok Demo.a_body, w') ∧
        trace w' = trace (_rate_limit Demo.slow (Demo.start ∅))
                   ++ retry_events "u" None 1 1 ∧
        sent w' = 2%nat.
Proof.
  apply (success_after_failures Demo.slow "u" None (Demo.start ∅) 1 200 Demo.a_body).
  - lia.
  - intros i Hi. assert (i = 0%nat) as -> by lia.
    exists ReqTimeout. apply transient_timeout.
  - reflexivity.
  - unfold success. lia.
  - reflexivity.
Defined.

Lemma fresh_entry_is_a_cache_hit_witness :
  let w := Demo.start {[ _get_cache_path ".f1_cache" "next_race" := Demo.an_entry ]} in
  _get_cached_or_fetch Demo.early Demo.a_fetcher "next_race" "u" 3600 None w
    = (Ok Demo.a_body, ticked Demo.early w) ∧
  sent (ticked Demo.early w) = sent w ∧ trace (ticked Demo.early w) = trace w ∧
  files (ticked Demo.early w) = files w.
Proof.
  cbv zeta.
  apply (fresh_entry_is_a_cache_hit Demo.early Demo.a_fetcher "next_race" "u" 3600
           None _ Demo.an_entry Demo.a_body 1000).
  - reflexivity.
  - reflexivity.
  - exact an_entry_is_an_entry.
  - discriminate.
  - vm_compute. discriminate.
Defined.

Lemma fetched_body_is_written_through_witness :
  let w := Demo.start ∅ in
  let w2 := (_make_request Demo.up "u" None w).2 in
  let w3 := (set Demo.up ".f1_cache" "next_race" Demo.a_body 3600 w2).2 in
  _get_cached_or_fetch Demo.up Demo.a_fetcher "next_race" "u" 3600 None w
    = (Ok Demo.a_body, w3) ∧
  storable Demo.up 3600 w2 ∧
  get Demo.up ".f1_cache" "next_race" true w3 = (Ok Demo.a_body, w3) ∧
  (clock Demo.up (readings w3) <= expiry Demo.up 3600 w2 →
   get Demo.up ".f1_cache" "next_race" false w3 = (Ok Demo.a_body, ticked Demo.up w3)).
Proof.
  cbv zeta.
  assert (Hok : storable Demo.up 3600 (_make_request Demo.up "u" None (Demo.start ∅)).2)
    by (split; split; apply Z.leb_le; reflexivity).
  destruct (fetched_body_is_written_through Demo.up Demo.a_fetcher "next_race" "u"
              3600 None (Demo.start ∅) Demo.a_body
              (_make_request Demo.up "u" None (Demo.start ∅)).2 demo_round_trip)
    as (Hrun & Hstored & _).
  - reflexivity.
  - reflexivity.
  - reflexivity.
  - split; [exact Hrun|]. split; [exact Hok|]. exact (Hstored Hok).
Defined.

Lemma without_cache_only_the_request_witness :
  let self := {| cache_dir := ".f1_cache"; use_cache := false |} in
  let w := Demo.start {[ _get_cache_path ".f1_cache" "next_race" := Demo.an_entry ]} in
  _get_cached_or_fetch Demo.down self "next_race" "u" 3600 None w
    = _make_request Demo.down "u" None w.
Proof.
  cbv zeta.
  apply (without_cache_only_the_request Demo.down
           {| cache_dir := ".f1_cache"; use_cache := false |}).
  reflexivity.
Defined.

Lemma only_the_request_failure_surfaces_witness :
  is_request_exception (HTTPError 500) = true ∧
  ∃ w1 w2, _make_request Demo.down "u" None w1 = (Raise (HTTPError 500), w2).
Proof.
  apply (only_the_request_failure_surfaces Demo.down Demo.a_fetcher "next_race" "u"
           3600 None (Demo.start ∅) (HTTPError 500)
           (_get_cached_or_fetch Demo.down Demo.a_fetcher "next_race" "u" 3600 None
              (Demo.start ∅)).2).
  reflexivity.
Defined.

Lemma three_standings_tolerable :
  tolerable _parse_driver_standing Demo.three_standings.
Proof.
  intros x e Hx Hparse. unfold Demo.three_standings in Hx.
  assert (Hfirst : ∃ record, _parse_driver_standing (Demo.a_standing "1") = Ok record)
    by (eexists; reflexivity).
  assert (Hthird : ∃ record, _parse_driver_standing (Demo.a_standing "3") = Ok record)
    by (eexists; reflexivity).
  assert (Hbad : _parse_driver_standing Demo.a_bad_standing = Raise ValueError)
    by reflexivity.
  apply elem_of_cons in Hx as [->|Hx].
  { destruct Hfirst as [record Hr]. congruence. }
  apply elem_of_cons in Hx as [->|Hx].
  { rewrite Hbad in Hparse. by injection Hparse as <-. }
  apply elem_of_cons in Hx as [->|Hx].
  { destruct Hthird as [record Hr]. congruence. }
  by apply elem_of_nil in Hx.
Qed.

Lemma standings_keep_the_valid_entries_witness :
  standings_of "DriverStandings" _parse_driver_standing Demo.a_standings_response
    = Ok (valid_records _parse_driver_standing Demo.three_standings) ∧
  length (valid_records _parse_driver_standing Demo.three_standings) = 2%nat.
Proof.
  split; [|reflexivity].
  apply (standings_keep_the_valid_entries "DriverStandings" _parse_driver_standing
           Demo.a_standings_response Demo.three_standings).
  - eexists _, _. split; reflexivity.
  - exact three_standings_tolerable.
Defined.

Lemma three_qualifyings_tolerable race :
  tolerable (_parse_qualifying_result race) Demo.three_qualifyings.
Proof.
  intros x e Hx Hparse. unfold Demo.three_qualifyings in Hx.
  assert (Hfirst : ∃ record, _parse_qualifying_result race (Demo.a_qualifying "1") = Ok record)
    by (eexists; reflexivity).
  assert (Hthird : ∃ record, _parse_qualifying_result race (Demo.a_qualifying "3") = Ok record)
    by (eexists; reflexivity).
  assert (Hbad : _parse_qualifying_result race Demo.a_bad_qualifying
                 = Raise ValueError) by reflexivity.
  apply elem_of_cons in Hx as [->|Hx].
  { destruct Hfirst as [record Hr]. congruence. }
  apply elem_of_cons in Hx as [->|Hx].
  { rewrite Hbad in Hparse. by injection Hparse as <-. }
  apply elem_of_cons in Hx as [->|Hx].
  { destruct Hthird as [record Hr]. congruence. }
  by apply elem_of_nil in Hx.
Qed.

Lemma qualifying_reads_the_first_race_witness :
  ∃ race,
    qualifying_results_of (Demo.races_response [Demo.a_qualifying_race; JNull])
      = Ok (valid_records (_parse_qualifying_result race) Demo.three_qualifyings).
Proof.
  assert (Hrace : ∃ race, _parse_race Demo.a_qualifying_race = Ok race)
    by (eexists; reflexivity).
  destruct Hrace as [race Hrace]. exists race.
  apply (qualifying_reads_the_first_race
           (Demo.races_response [Demo.a_qualifying_race; JNull])
           Demo.a_qualifying_race [JNull] race Demo.three_qualifyings).
  - reflexivity.
  - exact Hrace.
  - reflexivity.
  - apply three_qualifyings_tolerable.
Defined.

Lemma three_results_tolerable race :
  tolerable (_parse_race_result race) Demo.three_results.
Proof.
  intros x e Hx Hparse. unfold Demo.three_results in Hx.
  assert (Hfirst : ∃ record, _parse_race_result race (Demo.a_result "1") = Ok record)
    by (eexists; reflexivity).
  assert (Hthird : ∃ record, _parse_race_result race (Demo.a_result "3") = Ok record)
    by (eexists; reflexivity).
  assert (Hbad : _parse_race_result race Demo.a_bad_result = Raise ValueError)
    by reflexivity.
  apply elem_of_cons in Hx as [->|Hx].
  { destruct Hfirst as [record Hr]. congruence. }
  apply elem_of_cons in Hx as [->|Hx].
  { rewrite Hbad in Hparse. by injection Hparse as <-. }
  apply elem_of_cons in Hx as [->|Hx].
  { destruct Hthird as [record Hr]. congruence. }
  by apply elem_of_nil in Hx.
Qed.

(** The race of 2000 and, before it, an element that is no race at all. *)
Lemma demo_races_tolerable : Forall tolerable_race [JNull; Demo.a_race].
Proof.
  constructor; [reflexivity|]. constructor; [|constructor].
  unfold tolerable_race.
  assert (Hrace : ∃ race, _parse_race Demo.a_race = Ok race)
    by (eexists; reflexivity).
  destruct Hrace as [race ->]. intros items Hitems.
  assert (Hresults : py_get Demo.a_race "Results" (JArr []) ≫= py_iter
                     = Ok Demo.three_results) by reflexivity.
  rewrite Hresults in Hitems. injection Hitems as <-.
  apply three_results_tolerable.
Qed.

Lemma season_results_keep_the_valid_results_witness :
  season_results_of (Demo.races_response [JNull; Demo.a_race])
    = Ok (flat_map (records_of_race (λ _, true)) [JNull; Demo.a_race]).
Proof.
  apply (season_results_keep_the_valid_results
           (Demo.races_response [JNull; Demo.a_race]) [JNull; Demo.a_race]).
  - reflexivity.
  - exact demo_races_tolerable.
Defined.

Lemma circuit_history_keeps_recent_races_witness :
  let w := Demo.start ∅ in
  circuit_history_of Demo.back_then 5 (Demo.races_response [JNull; Demo.a_race]) w
    = (Ok (flat_map
             (records_of_race
                (λ race, cutoff_year Demo.back_then 5 w <=? season race))
             [JNull; Demo.a_race]),
       ticked Demo.back_then w).
Proof.
  cbv zeta.
  apply (circuit_history_keeps_recent_races Demo.back_then 5
           (Demo.races_response [JNull; Demo.a_race]) (Demo.start ∅)
           [JNull; Demo.a_race]).
  - reflexivity.
  - exact demo_races_tolerable.
Defined.

Lemma race_with_non_string_time_raises_witness :
  _parse_race (JObj Demo.a_race_with_numeric_time) = Raise AttributeError ∧
  season_results_of
    (Demo.races_response [JObj Demo.a_race_with_numeric_time; Demo.a_race])
    = Raise AttributeError.
Proof.
  destruct (race_with_non_string_time_raises Demo.a_race_with_numeric_time
              (JInt 170000)) as [Hrace Hops].
  - intros field Hfield. unfold race_fields in Hfield.
    repeat (apply elem_of_cons in Hfield as [->|Hfield]; [by eexists|]).
    by apply elem_of_nil in Hfield.
  - reflexivity.
  - reflexivity.
  - split; [exact Hrace|].
    apply (Hops (Demo.races_response [JObj Demo.a_race_with_numeric_time; Demo.a_race])
             [Demo.a_race]).
    reflexivity.
Defined.

Lemma next_race_is_the_first_race_witness :
  ∃ race, next_race_of Demo.a_race_response = Ok race ∧ season race = 2000.
Proof.
  assert (Hrace : ∃ race, _parse_race Demo.a_race = Ok race ∧ season race = 2000)
    by (eexists; split; reflexivity).
  destruct Hrace as (race & Hrace & Hseason). exists race. split; [|exact Hseason].
  apply (next_race_is_the_first_race Demo.a_race_response Demo.a_race [] race).
  - reflexivity.
  - exact Hrace.
Defined.

Lemma response_without_envelope_witness :
  season_results_of (JObj [("data", JNull)]) = Ok [] ∧
  next_race_of (JObj [("data", JNull)]) = Raise ValueError.
Proof.
  destruct (response_without_envelope Demo.down (JObj [("data", JNull)]))
    as (Hseason & _ & _ & _ & _ & Hnext).
  - discriminate.
  - by split.
Defined.

Lemma circuit_history_has_no_older_race_witness :
  ∃ first third,
    (circuit_history_of Demo.back_then 5 Demo.a_race_response (Demo.start ∅)).1
      = Ok [first; third] ∧
    Forall (λ record,
              cutoff_year Demo.back_then 5 (Demo.start ∅) <= season (rr_race record))
      [first; third].
Proof.
  assert (Hrun : ∃ first third,
            circuit_history_of Demo.back_then 5 Demo.a_race_response (Demo.start ∅)
            = (Ok [first; third], ticked Demo.back_then (Demo.start ∅)))
    by (eexists _, _; reflexivity).
  destruct Hrun as (first & third & Hrun). exists first, third.
  split; [by rewrite Hrun|].
  exact (circuit_history_has_no_older_race Demo.back_then 5 Demo.a_race_response
           (Demo.start ∅) [first; third] _ Hrun).
Defined.

(** *** The fetch operations and the engine *)

Lemma demo_int_raises_builtin : @int_raises_builtin Demo.lib.
Proof. by intros x e. Qed.


Lemma prediction_never_reports_a_network_error_witness :
  ∃ error,
    (predict_next_race Demo.down EngineDemo.by_standing EngineDemo.quotient
       EngineDemo.an_engine (Demo.start ∅)).1 = inl error ∧
    error_type error ≠ "NetworkError".
Proof.
  exists next_race_data_error. split; [reflexivity|].
  assert (H : predict_next_race Demo.down EngineDemo.by_standing EngineDemo.quotient
                EngineDemo.an_engine (Demo.start ∅)
              = (inl next_race_data_error,
                 (predict_next_race Demo.down EngineDemo.by_standing EngineDemo.quotient
                    EngineDemo.an_engine (Demo.start ∅)).2)) by reflexivity.
  exact (prediction_never_reports_a_network_error Demo.down EngineDemo.by_standing
           EngineDemo.quotient EngineDemo.an_engine (Demo.start ∅) _ _
           demo_int_raises_builtin H).
Defined.

Lemma failed_next_race_fetch_is_a_data_error_witness :
  ∃ error,
    (predict_next_race Demo.down EngineDemo.by_standing EngineDemo.quotient
       EngineDemo.an_engine (Demo.start ∅)).1 = inl error ∧
    error_type error = "DataError" ∧ recoverable error = true.
Proof.
  assert (H : _get_cached_or_fetch Demo.down (data_fetcher EngineDemo.an_engine)
                "next_race" (BASE_URL +:+ "/current/next.json") CACHE_TTL_NEXT_RACE
                None (Demo.start ∅)
              = (Raise (HTTPError 500),
                 (_get_cached_or_fetch Demo.down (data_fetcher EngineDemo.an_engine)
                    "next_race" (BASE_URL +:+ "/current/next.json") CACHE_TTL_NEXT_RACE
                    None (Demo.start ∅)).2)) by reflexivity.
  destruct (failed_next_race_fetch_is_a_data_error Demo.down EngineDemo.by_standing
              EngineDemo.quotient EngineDemo.an_engine (Demo.start ∅) _ _ H)
    as (error & Hrun & Htype & Hrecoverable).
  exists error. rewrite Hrun. done.
Defined.

End Examples.

(** *** The engine, with a provider that knows the next race *)

#[local] Existing Instance Demo.lib.

(** The driver standings cannot be fetched: the prediction fails for
    missing data. *)
Lemma failed_standings_fetch_is_missing_data_witness :
  ∃ error,
    (predict_next_race EngineDemo.without_driver_standings EngineDemo.by_standing
       EngineDemo.quotient EngineDemo.an_engine_without_cache (Demo.start ∅)).1
      = inl error ∧
    error_type error = "MissingData" ∧ recoverable error = false.
Proof.
  assert (Hnext : ∃ race,
            get_next_race EngineDemo.without_driver_standings
              (data_fetcher EngineDemo.an_engine_without_cache) (Demo.start ∅)
            = (Ok race,
               (get_next_race EngineDemo.without_driver_standings
                  (data_fetcher EngineDemo.an_engine_without_cache) (Demo.start ∅)).2)
            ∧ season race = 2000)
    by (eexists; split; reflexivity).
  destruct Hnext as (race & Hnext & Hseason).
  epose proof (failed_standings_fetch_is_missing_data
                 EngineDemo.without_driver_standings EngineDemo.by_standing
                 EngineDemo.quotient EngineDemo.an_engine_without_cache (Demo.start ∅)
                 race _ (HTTPError 500) _ _ _ Hnext) as H.
  edestruct H as (error & Hrun & Htype & Hrecoverable).
  - rewrite _validate_race_data_world, Hseason. reflexivity.
  - rewrite Hseason. reflexivity.
  - exact (ex_intro _ error (conj (f_equal fst Hrun) (conj Htype Hrecoverable))).
Defined.

(** The three optional fetches all fail (the provider answers them with a
    500), and the prediction is returned all the same. *)
Lemma optional_data_never_fails_the_prediction_witness :
  ∃ result w' season_results qualifying_results circuit_history,
    predict_next_race EngineDemo.with_driver_standings EngineDemo.by_standing
      EngineDemo.quotient EngineDemo.an_engine_without_cache (Demo.start ∅)
      = (inr result, w') ∧
    season (pr_race result) = 2000 ∧
    ∃ first third,
      Ok (predictions result)
        = EngineDemo.by_standing (pr_race result) [first; third]
            (valid_records _parse_constructor_standing
               [EngineDemo.a_constructor_standing])
            season_results qualifying_results circuit_history 3.
Proof.
  assert (Hnext : ∃ race,
            get_next_race EngineDemo.with_driver_standings
              (data_fetcher EngineDemo.an_engine_without_cache) (Demo.start ∅)
            = (Ok race,
               (get_next_race EngineDemo.with_driver_standings
                  (data_fetcher EngineDemo.an_engine_without_cache) (Demo.start ∅)).2)
            ∧ season race = 2000)
    by (eexists; split; reflexivity).
  destruct Hnext as (race & Hnext & Hseason).
  assert (Hstandings : ∃ first third,
            standings_of "DriverStandings" _parse_driver_standing
              Demo.a_standings_response = Ok [first; third])
    by (eexists _, _; reflexivity).
  destruct Hstandings as (first & third & Hstandings).
  epose proof (optional_data_never_fails_the_prediction
                 EngineDemo.with_driver_standings EngineDemo.by_standing
                 EngineDemo.quotient EngineDemo.an_engine_without_cache (Demo.start ∅)
                 race _ first [third] _
                 (valid_records _parse_constructor_standing
                    [EngineDemo.a_constructor_standing]) _ Hnext) as H.
  edestruct H as (result & w' & sr & q & h & Hrun & Hrace & Hpredictions).
  - rewrite _validate_race_data_world, Hseason.
    unfold get_driver_standings.
    match goal with |- fetched ?r _ _ = _ =>
      assert (Hfetch : r = (Ok Demo.a_standings_response, r.2)) by reflexivity;
      rewrite Hfetch end.
    cbn [fetched]. rewrite Hstandings. reflexivity.
  - rewrite Hseason. reflexivity.
  - intros sr q h. eexists _, _. reflexivity.
  - exists result, w', sr, q, h. split; [exact Hrun|]. rewrite Hrace.
    split; [exact Hseason|]. exists first, third. exact Hpredictions.
Defined.
